(** * JitsiConference: the session / topology state machine

    A shallow embedding of the peer-to-peer versus bridge logic of
    [JitsiConference] (the second document of
    [src/modules/browser/BrowserCapabilities.ts]) together with the
    pieces of [ChatRoom.js] it calls ([isFocus], [sendPresence]).

    Conventions of the embedding:
    - a JavaScript object with identity (a Jingle session, a track, a
      context object) is a record carrying its identity as a number;
      [===] on such objects compares the identities;
    - the conference is a record of its mutable fields; every method is
      a computation in the monad [M], which threads the whole [World]
      (conference, pending timers of the event loop, the heap of context
      objects, the signaling layer), may throw, and yields the list of the
      calls it made into collaborators whose code is not part of the
      conference (sessions, statistics, event emitter, logger at warn and
      error level), in order; [logger.info] and [logger.debug] are not
      recorded;
    - [null] and [undefined] are [None]. *)

From Stdlib Require Import String Ascii List ZArith Bool Lia.
From stdpp Require Import base gmap strings pretty.
Import ListNotations.

Local Open Scope string_scope.

(** ** Data model *)

Inductive MediaType := AUDIO | VIDEO.
Inductive VideoType := CAMERA | DESKTOP.

Definition MediaType_eqb (a b : MediaType) : bool :=
  match a, b with
  | AUDIO, AUDIO | VIDEO, VIDEO => true
  | _, _ => false
  end.

Definition VideoType_eqb (a b : VideoType) : bool :=
  match a, b with
  | CAMERA, CAMERA | DESKTOP, DESKTOP => true
  | _, _ => false
  end.

Definition MediaType_toString (m : MediaType) : string :=
  match m with
  | AUDIO => "audio"
  | VIDEO => "video"
  end.

(** [track.getVideoType() === other.getVideoType()], both possibly
    [undefined]. *)
Definition optVideoType_eqb (a b : option VideoType) : bool :=
  match a, b with
  | Some x, Some y => VideoType_eqb x y
  | None, None => true
  | _, _ => false
  end.

(** A [JitsiLocalTrack]; [tid] is the identity of the object. *)
Record JitsiLocalTrack := {
  tid : nat;
  getType : MediaType;
  getVideoType : option VideoType;
  isMuted : bool;
  getSourceName : option string;
  disposed : bool;
  (** [track.conference === this] *)
  belongsToConference : bool
}.

(** A [JitsiRemoteTrack]; [rtid] is the identity of the object. *)
Record JitsiRemoteTrack := {
  rtid : nat;
  ownerEndpointId : string;
  track_isP2P : bool;
  remote_getType : MediaType
}.

Definition getParticipantId (t : JitsiRemoteTrack) : string := ownerEndpointId t.

(** A [JingleSessionPC]; [sid] is the identity of the object, the track
    lists are what [peerconnection.getRemoteTracks()] and
    [peerconnection.getLocalTracks()] return. *)
Record JingleSessionPC := {
  sid : nat;
  isP2P : bool;
  isInitiator : bool;
  remoteJid : string;
  pc_getRemoteTracks : list JitsiRemoteTrack;
  pc_getLocalTracks : list JitsiLocalTrack;
  establishmentDuration : option Z
}.

(** [a === b] on sessions. *)
Definition same_session (a b : JingleSessionPC) : bool := Nat.eqb (sid a) (sid b).

(** [this.field === session] where the field may be [null]. *)
Definition field_is_session (f : option JingleSessionPC) (s : JingleSessionPC) : bool :=
  match f with
  | Some x => same_session x s
  | None => false
  end.

(** A [JitsiParticipant]. *)
Record JitsiParticipant := {
  getId : string;
  getJid : string;
  getBotType : option string;
  _features : gset string;
  participant_isHidden : bool;
  _tracks : list JitsiRemoteTrack
}.

Definition hasFeature (p : JitsiParticipant) (feature : string) : bool :=
  bool_decide (feature ∈ _features p).

Definition set_tracks (ts : list JitsiRemoteTrack) (p : JitsiParticipant) : JitsiParticipant :=
  {| getId := getId p; getJid := getJid p; getBotType := getBotType p;
     _features := _features p; participant_isHidden := participant_isHidden p;
     _tracks := ts |}.

(** The part of a [ChatRoom] the conference reads: [members] maps a MUC
    jid to the [isFocus] flag of the member. *)
Record ChatRoom := {
  myroomjid : option string;
  joined : bool;
  members : gmap string bool;
  connection_connected : bool;
  presMap_to : option string
}.

(** [ChatRoom.isFocus(mucJid)]: [null] when the jid is not a member. *)
Definition ChatRoom_isFocus (r : ChatRoom) (mucJid : string) : option bool :=
  members r !! mucJid.

(** [options.config], as far as the conference looks at it; every field
    holds the truthiness of the configured value. [cfg_p2p] is [None] when
    [config.p2p] is [undefined]. *)
Record Config := {
  cfg_p2p : option bool;
  cfg_p2pTestMode : bool;
  cfg_forceInitiator : bool;
  cfg_forceResponder : bool;
  cfg_allowMultipleTracks : bool
}.

(** An [IceFailedHandling] object: whether [start] was called on it (and for
    which session) and whether it was cancelled. *)
Record IceFailedHandling := {
  ifh_started : option nat;
  ifh_canceled : bool
}.

(** The mutable fields of a [JitsiConference]. The roster is the
    insertion-ordered [Map] from endpoint id to participant. *)
Record JitsiConference := {
  config : Config;
  room : option ChatRoom;
  participants : list (string * JitsiParticipant);
  rtc_localTracks : list JitsiLocalTrack;
  jvbJingleSession : option JingleSessionPC;
  p2pJingleSession : option JingleSessionPC;
  p2p : bool;
  deferredStartP2PTask : option positive;
  backToP2PDelay : Z;
  isP2PConnectionInterrupted : bool;
  isJvbConnectionInterrupted : bool;
  _iceRestarts : nat;
  _delayedIceFailed : option IceFailedHandling;
  _sessionInitiateTimeout : option positive;
  _hasVisitors : option bool;
  _transcribingEnabled : option bool;
  _firefoxP2pEnabled : bool;
  e2eeEnabled : bool;
  lastN : Z;
  dtmfManager : option unit;
  p2pEstablishmentDuration : option Z;
  jvbEstablishmentDuration : option Z;
  avgRtpStatsReporter : option unit;
  e2eping : option unit;
  wasStopped : bool;
  (** [undefined] until [setDesktopSharingFrameRate] stores a frame rate *)
  _desktopSharingFrameRate : option Z
}.

(** Truthiness of a field that is [undefined] or a boolean. *)
Definition truthy (b : option bool) : bool :=
  match b with
  | Some true => true
  | _ => false
  end.

(** ** The event loop, the trace and the world *)

Inductive LogLevel := WARN | ERROR.

Inductive ConferenceError := ICE_FAILED | OFFER_ANSWER_FAILED.

Inductive ConferenceEvent :=
| CONFERENCE_FAILED (e : ConferenceError)
| CONNECTION_ESTABLISHED
| CONNECTION_INTERRUPTED
| CONNECTION_RESTORED
| P2P_STATUS (status : bool)
| _MEDIA_SESSION_ACTIVE_CHANGED (active : option nat)
| TRACK_ADDED (track : nat)
| TRACK_REMOVED (track : nat)
| LOCAL_TRACK_REMOVED (track : nat)
| SERVER_REGION_CHANGED
| _MEDIA_SESSION_STARTED (s : nat).

(** What a timer of the event loop runs when it fires. *)
Inductive TimerCallback :=
| CbStartP2PSession (jid : string)
| CbIceRestart (session : JingleSessionPC) (jitterDelay : Z)
| CbSessionInitiateTimeout.

(** Calls into collaborators, in the order the conference makes them.
    [LogIceRestart jitterDelay] is the error logged with the text
    'triggering ice restart after ${jitterDelay} '. *)
Inductive Effect :=
| Log (level : LogLevel) (msg : string)
| LogIceRestart (jitterDelay : Z)
| Emit (e : ConferenceEvent)
| SendAnalytics (action : string)
| AddPermanentProperty (key : string) (value : bool)
| SetTimeout (handle : positive) (cb : TimerCallback) (delay : Z)
| ClearTimeout (handle : positive)
| NewP2PJingleSession (s : nat) (me : option string) (peer : string)
| SessionInitialize (s : nat) (codecs : string)
| SessionInvite (s : nat) (localTracks : list nat)
| SessionTerminate (s : nat) (reason reasonDescription : option string)
    (sendSessionTerminate : bool)
| SessionClose (s : nat)
| SessionSetMediaTransferActive (s : nat) (active : bool)
| SessionSetP2pVideoTransferActive (s : nat) (active : bool)
| SessionAddTracks (s : nat) (tracks : list nat)
| SessionReplaceTrack (s : nat) (oldTrack newTrack : option nat)
| TrackSetSourceName (track : nat) (name : option string)
| RemoteTrackAddListeners (track : nat)
| StartRemoteStats (s : nat)
| StopRemoteStats (s : nat)
| IceFailedHandling_start (s : nat)
| IceFailedHandling_cancel
| SendPresenceStanza (to : string)
| SessionAcceptOffer (s : nat) (localTracks : list nat)
| SetBridgeChannel (s : nat)
| SetDesktopSharingFrameRate (s : nat) (maxFps : Z)
| CloseBridgeChannel
| DisposeStatistics
| DisposeAvgRtpStatsReporter
| StopE2ePing
| ConferenceJoinAnalytics
| ConferenceLeftAnalytics
| LocalTrackDetach (track : nat)
| RemoveRoomListeners
| RoomLeave (reason : option string).

(** A context object passed along with [SESSION_ACCEPT], [SOURCE_ADD] and
    [SOURCE_REMOVE]; [ctx.skip] is [undefined] until somebody sets it. *)
Record Ctx := { skip : option bool }.

(** ** Collaborators

    Constants and functions the conference imports from modules whose code
    is outside the conference: [MAX_CONNECTION_RETRIES]
    (service/connectivity/Constants), the pseudo-random jitter of
    [getJitterDelay] (modules/util/Retry): [jitter base] is what the draw of
    a call adds to the base delay, [Strophe.getResourceFromJid],
    [FEATURE_JIGASI], [getSourceNameForJitsiTrack], [browser.isFirefox()],
    the test [ToNumber(s) < 0] of ECMAScript (what [null > s] amounts to) and
    the two presence setters of [SignalingLayerImpl], each returning whether
    the presence changed together with the new state of the layer.

    A call into a media session or into the statistics returns normally,
    except where the conference itself catches what the call throws:
    [initialize_error], [acceptOffer_error],
    [setDesktopSharingFrameRate_error] and [startRemoteStats_error] give
    the error that [jingleSession.initialize], [jingleSession.acceptOffer],
    [peerconnection.setDesktopSharingFrameRate] and
    [statistics.startRemoteStats] throw for a bridge session, [None] when
    they return. *)
Class Collaborators := {
  MAX_CONNECTION_RETRIES : nat;
  jitter : Z -> Z;
  initialize_error : JingleSessionPC -> option string;
  acceptOffer_error : JingleSessionPC -> option string;
  setDesktopSharingFrameRate_error : JingleSessionPC -> option string;
  startRemoteStats_error : JingleSessionPC -> option string;
  getResourceFromJid : string -> option string;
  FEATURE_JIGASI : string;
  getSourceNameForJitsiTrack : option string -> MediaType -> nat -> string;
  browser_isFirefox : bool;
  ToNumber_negative : string -> bool;
  SignalingLayer : Type;
  setTrackMuteStatus : option string -> bool -> SignalingLayer -> bool * SignalingLayer;
  setTrackVideoType :
    option string -> option VideoType -> SignalingLayer -> bool * SignalingLayer
}.

(** [JINGLE_SI_TIMEOUT], in milliseconds. *)
Definition JINGLE_SI_TIMEOUT : Z := 5000.

(** Modelled from the spec: [getJitterDelay] of modules/util/Retry, whose
    code is not among the sources. The spec gives the backoff delay as
    [delay = minDelay * (growthFactor ^ attemptNumber) * (1 + random jitter
    fraction)] with the base delay doubling per attempt; [jitter base] is
    the base delay times the jitter fraction drawn for the call. *)
Definition getJitterDelay `{Collaborators} (retry : nat) (minDelay : Z) : Z :=
  let base := (minDelay * 2 ^ Z.of_nat retry)%Z in
  (base + jitter base)%Z.

Section Conference.

Context `{Collaborators}.

Record World := {
  conf : JitsiConference;
  (** pending timers of the event loop: handle and callback *)
  timers : list (positive * TimerCallback);
  next_handle : positive;
  next_sid : nat;
  (** the context objects, by reference *)
  heap : gmap nat Ctx;
  signaling : SignalingLayer
}.

(** A call either returns or throws; both leave a world behind, and the
    list of the calls made into collaborators. *)
Inductive Outcome (A : Type) :=
| Ok (a : A) (w : World) (calls : list Effect)
| Throw (msg : string) (w : World) (calls : list Effect).

Arguments Ok {A} a w calls.
Arguments Throw {A} msg w calls.

Definition M (A : Type) : Type := World -> Outcome A.

Definition world_of {A} (o : Outcome A) : World :=
  match o with
  | Ok _ w _ => w
  | Throw _ w _ => w
  end.

Definition calls_of {A} (o : Outcome A) : list Effect :=
  match o with
  | Ok _ _ es => es
  | Throw _ _ es => es
  end.

Definition returned {A} (o : Outcome A) : option A :=
  match o with
  | Ok a _ _ => Some a
  | Throw _ _ _ => None
  end.

(** The calls [es] were made before the outcome [o]. *)
Definition after_calls {A} (es : list Effect) (o : Outcome A) : Outcome A :=
  match o with
  | Ok a w es' => Ok a w (es ++ es')
  | Throw msg w es' => Throw msg w (es ++ es')
  end.

#[export] Instance M_ret : MRet M := fun A a w => Ok a w [].

#[export] Instance M_bind : MBind M := fun A B f m w =>
  match m w with
  | Ok a w' es => after_calls es (f a w')
  | Throw msg w' es => Throw msg w' es
  end.

Definition throw {A} (msg : string) : M A := fun w => Throw msg w [].

Definition set_conf (c : JitsiConference) (w : World) : World :=
  {| conf := c; timers := timers w; next_handle := next_handle w; next_sid := next_sid w;
     heap := heap w; signaling := signaling w |}.

Definition set_timers (ts : list (positive * TimerCallback)) (n : positive) (w : World) : World :=
  {| conf := conf w; timers := ts; next_handle := n; next_sid := next_sid w;
     heap := heap w; signaling := signaling w |}.

Definition set_next_sid (n : nat) (w : World) : World :=
  {| conf := conf w; timers := timers w; next_handle := next_handle w; next_sid := n;
     heap := heap w; signaling := signaling w |}.

Definition set_heap (h : gmap nat Ctx) (w : World) : World :=
  {| conf := conf w; timers := timers w; next_handle := next_handle w; next_sid := next_sid w;
     heap := h; signaling := signaling w |}.

Definition set_signaling (s : SignalingLayer) (w : World) : World :=
  {| conf := conf w; timers := timers w; next_handle := next_handle w; next_sid := next_sid w;
     heap := heap w; signaling := s |}.

Definition this : M JitsiConference := fun w => Ok (conf w) w [].

Definition update (f : JitsiConference -> JitsiConference) : M unit :=
  fun w => Ok tt (set_conf (f (conf w)) w) [].

(** One call into a collaborator. *)
Definition call (e : Effect) : M unit := fun w => Ok tt w [e].

Definition when (b : bool) (m : M unit) : M unit := if b then m else mret tt.

(** [for (const x of xs) body(x)] *)
Fixpoint for_each {A} (xs : list A) (body : A -> M unit) : M unit :=
  match xs with
  | [] => mret tt
  | x :: rest => body x;; for_each rest body
  end.

(** [setTimeout(cb, delay)]: a fresh handle, the timer becomes pending. *)
Definition setTimeout (cb : TimerCallback) (delay : Z) : M positive :=
  fun w =>
    let h := next_handle w in
    Ok h (set_timers (timers w ++ [(h, cb)]) (Pos.succ h) w) [SetTimeout h cb delay].

(** [clearTimeout(handle)]: the timer is no longer pending. *)
Definition clearTimeout (h : positive) : M unit :=
  fun w =>
    Ok tt (set_timers (List.filter (fun t => negb (Pos.eqb (fst t) h)) (timers w))
             (next_handle w) w)
      [ClearTimeout h].

(** ** Field assignments [this.field = v] *)

Definition set_room (v : option ChatRoom) (c : JitsiConference) : JitsiConference :=
  {| config := config c; room := v; participants := participants c;
     rtc_localTracks := rtc_localTracks c; jvbJingleSession := jvbJingleSession c;
     p2pJingleSession := p2pJingleSession c; p2p := p2p c;
     deferredStartP2PTask := deferredStartP2PTask c; backToP2PDelay := backToP2PDelay c;
     isP2PConnectionInterrupted := isP2PConnectionInterrupted c;
     isJvbConnectionInterrupted := isJvbConnectionInterrupted c;
     _iceRestarts := _iceRestarts c; _delayedIceFailed := _delayedIceFailed c;
     _sessionInitiateTimeout := _sessionInitiateTimeout c; _hasVisitors := _hasVisitors c;
     _transcribingEnabled := _transcribingEnabled c;
     _firefoxP2pEnabled := _firefoxP2pEnabled c; e2eeEnabled := e2eeEnabled c;
     lastN := lastN c; dtmfManager := dtmfManager c;
     p2pEstablishmentDuration := p2pEstablishmentDuration c;
     jvbEstablishmentDuration := jvbEstablishmentDuration c;
     avgRtpStatsReporter := avgRtpStatsReporter c; e2eping := e2eping c;
     wasStopped := wasStopped c; _desktopSharingFrameRate := _desktopSharingFrameRate c |}.

Definition set_participants (v : list (string * JitsiParticipant)) (c : JitsiConference) : JitsiConference :=
  {| config := config c; room := room c; participants := v;
     rtc_localTracks := rtc_localTracks c; jvbJingleSession := jvbJingleSession c;
     p2pJingleSession := p2pJingleSession c; p2p := p2p c;
     deferredStartP2PTask := deferredStartP2PTask c; backToP2PDelay := backToP2PDelay c;
     isP2PConnectionInterrupted := isP2PConnectionInterrupted c;
     isJvbConnectionInterrupted := isJvbConnectionInterrupted c;
     _iceRestarts := _iceRestarts c; _delayedIceFailed := _delayedIceFailed c;
     _sessionInitiateTimeout := _sessionInitiateTimeout c; _hasVisitors := _hasVisitors c;
     _transcribingEnabled := _transcribingEnabled c;
     _firefoxP2pEnabled := _firefoxP2pEnabled c; e2eeEnabled := e2eeEnabled c;
     lastN := lastN c; dtmfManager := dtmfManager c;
     p2pEstablishmentDuration := p2pEstablishmentDuration c;
     jvbEstablishmentDuration := jvbEstablishmentDuration c;
     avgRtpStatsReporter := avgRtpStatsReporter c; e2eping := e2eping c;
     wasStopped := wasStopped c; _desktopSharingFrameRate := _desktopSharingFrameRate c |}.

Definition set_jvbJingleSession (v : option JingleSessionPC) (c : JitsiConference) : JitsiConference :=
  {| config := config c; room := room c; participants := participants c;
     rtc_localTracks := rtc_localTracks c; jvbJingleSession := v;
     p2pJingleSession := p2pJingleSession c; p2p := p2p c;
     deferredStartP2PTask := deferredStartP2PTask c; backToP2PDelay := backToP2PDelay c;
     isP2PConnectionInterrupted := isP2PConnectionInterrupted c;
     isJvbConnectionInterrupted := isJvbConnectionInterrupted c;
     _iceRestarts := _iceRestarts c; _delayedIceFailed := _delayedIceFailed c;
     _sessionInitiateTimeout := _sessionInitiateTimeout c; _hasVisitors := _hasVisitors c;
     _transcribingEnabled := _transcribingEnabled c;
     _firefoxP2pEnabled := _firefoxP2pEnabled c; e2eeEnabled := e2eeEnabled c;
     lastN := lastN c; dtmfManager := dtmfManager c;
     p2pEstablishmentDuration := p2pEstablishmentDuration c;
     jvbEstablishmentDuration := jvbEstablishmentDuration c;
     avgRtpStatsReporter := avgRtpStatsReporter c; e2eping := e2eping c;
     wasStopped := wasStopped c; _desktopSharingFrameRate := _desktopSharingFrameRate c |}.

Definition set_p2pJingleSession (v : option JingleSessionPC) (c : JitsiConference) : JitsiConference :=
  {| config := config c; room := room c; participants := participants c;
     rtc_localTracks := rtc_localTracks c; jvbJingleSession := jvbJingleSession c;
     p2pJingleSession := v; p2p := p2p c; deferredStartP2PTask := deferredStartP2PTask c;
     backToP2PDelay := backToP2PDelay c;
     isP2PConnectionInterrupted := isP2PConnectionInterrupted c;
     isJvbConnectionInterrupted := isJvbConnectionInterrupted c;
     _iceRestarts := _iceRestarts c; _delayedIceFailed := _delayedIceFailed c;
     _sessionInitiateTimeout := _sessionInitiateTimeout c; _hasVisitors := _hasVisitors c;
     _transcribingEnabled := _transcribingEnabled c;
     _firefoxP2pEnabled := _firefoxP2pEnabled c; e2eeEnabled := e2eeEnabled c;
     lastN := lastN c; dtmfManager := dtmfManager c;
     p2pEstablishmentDuration := p2pEstablishmentDuration c;
     jvbEstablishmentDuration := jvbEstablishmentDuration c;
     avgRtpStatsReporter := avgRtpStatsReporter c; e2eping := e2eping c;
     wasStopped := wasStopped c; _desktopSharingFrameRate := _desktopSharingFrameRate c |}.

Definition set_p2p (v : bool) (c : JitsiConference) : JitsiConference :=
  {| config := config c; room := room c; participants := participants c;
     rtc_localTracks := rtc_localTracks c; jvbJingleSession := jvbJingleSession c;
     p2pJingleSession := p2pJingleSession c; p2p := v;
     deferredStartP2PTask := deferredStartP2PTask c; backToP2PDelay := backToP2PDelay c;
     isP2PConnectionInterrupted := isP2PConnectionInterrupted c;
     isJvbConnectionInterrupted := isJvbConnectionInterrupted c;
     _iceRestarts := _iceRestarts c; _delayedIceFailed := _delayedIceFailed c;
     _sessionInitiateTimeout := _sessionInitiateTimeout c; _hasVisitors := _hasVisitors c;
     _transcribingEnabled := _transcribingEnabled c;
     _firefoxP2pEnabled := _firefoxP2pEnabled c; e2eeEnabled := e2eeEnabled c;
     lastN := lastN c; dtmfManager := dtmfManager c;
     p2pEstablishmentDuration := p2pEstablishmentDuration c;
     jvbEstablishmentDuration := jvbEstablishmentDuration c;
     avgRtpStatsReporter := avgRtpStatsReporter c; e2eping := e2eping c;
     wasStopped := wasStopped c; _desktopSharingFrameRate := _desktopSharingFrameRate c |}.

Definition set_deferredStartP2PTask (v : option positive) (c : JitsiConference) : JitsiConference :=
  {| config := config c; room := room c; participants := participants c;
     rtc_localTracks := rtc_localTracks c; jvbJingleSession := jvbJingleSession c;
     p2pJingleSession := p2pJingleSession c; p2p := p2p c; deferredStartP2PTask := v;
     backToP2PDelay := backToP2PDelay c;
     isP2PConnectionInterrupted := isP2PConnectionInterrupted c;
     isJvbConnectionInterrupted := isJvbConnectionInterrupted c;
     _iceRestarts := _iceRestarts c; _delayedIceFailed := _delayedIceFailed c;
     _sessionInitiateTimeout := _sessionInitiateTimeout c; _hasVisitors := _hasVisitors c;
     _transcribingEnabled := _transcribingEnabled c;
     _firefoxP2pEnabled := _firefoxP2pEnabled c; e2eeEnabled := e2eeEnabled c;
     lastN := lastN c; dtmfManager := dtmfManager c;
     p2pEstablishmentDuration := p2pEstablishmentDuration c;
     jvbEstablishmentDuration := jvbEstablishmentDuration c;
     avgRtpStatsReporter := avgRtpStatsReporter c; e2eping := e2eping c;
     wasStopped := wasStopped c; _desktopSharingFrameRate := _desktopSharingFrameRate c |}.

Definition set_isP2PConnectionInterrupted (v : bool) (c : JitsiConference) : JitsiConference :=
  {| config := config c; room := room c; participants := participants c;
     rtc_localTracks := rtc_localTracks c; jvbJingleSession := jvbJingleSession c;
     p2pJingleSession := p2pJingleSession c; p2p := p2p c;
     deferredStartP2PTask := deferredStartP2PTask c; backToP2PDelay := backToP2PDelay c;
     isP2PConnectionInterrupted := v;
     isJvbConnectionInterrupted := isJvbConnectionInterrupted c;
     _iceRestarts := _iceRestarts c; _delayedIceFailed := _delayedIceFailed c;
     _sessionInitiateTimeout := _sessionInitiateTimeout c; _hasVisitors := _hasVisitors c;
     _transcribingEnabled := _transcribingEnabled c;
     _firefoxP2pEnabled := _firefoxP2pEnabled c; e2eeEnabled := e2eeEnabled c;
     lastN := lastN c; dtmfManager := dtmfManager c;
     p2pEstablishmentDuration := p2pEstablishmentDuration c;
     jvbEstablishmentDuration := jvbEstablishmentDuration c;
     avgRtpStatsReporter := avgRtpStatsReporter c; e2eping := e2eping c;
     wasStopped := wasStopped c; _desktopSharingFrameRate := _desktopSharingFrameRate c |}.

Definition set_isJvbConnectionInterrupted (v : bool) (c : JitsiConference) : JitsiConference :=
  {| config := config c; room := room c; participants := participants c;
     rtc_localTracks := rtc_localTracks c; jvbJingleSession := jvbJingleSession c;
     p2pJingleSession := p2pJingleSession c; p2p := p2p c;
     deferredStartP2PTask := deferredStartP2PTask c; backToP2PDelay := backToP2PDelay c;
     isP2PConnectionInterrupted := isP2PConnectionInterrupted c;
     isJvbConnectionInterrupted := v; _iceRestarts := _iceRestarts c;
     _delayedIceFailed := _delayedIceFailed c;
     _sessionInitiateTimeout := _sessionInitiateTimeout c; _hasVisitors := _hasVisitors c;
     _transcribingEnabled := _transcribingEnabled c;
     _firefoxP2pEnabled := _firefoxP2pEnabled c; e2eeEnabled := e2eeEnabled c;
     lastN := lastN c; dtmfManager := dtmfManager c;
     p2pEstablishmentDuration := p2pEstablishmentDuration c;
     jvbEstablishmentDuration := jvbEstablishmentDuration c;
     avgRtpStatsReporter := avgRtpStatsReporter c; e2eping := e2eping c;
     wasStopped := wasStopped c; _desktopSharingFrameRate := _desktopSharingFrameRate c |}.

Definition set_iceRestarts (v : nat) (c : JitsiConference) : JitsiConference :=
  {| config := config c; room := room c; participants := participants c;
     rtc_localTracks := rtc_localTracks c; jvbJingleSession := jvbJingleSession c;
     p2pJingleSession := p2pJingleSession c; p2p := p2p c;
     deferredStartP2PTask := deferredStartP2PTask c; backToP2PDelay := backToP2PDelay c;
     isP2PConnectionInterrupted := isP2PConnectionInterrupted c;
     isJvbConnectionInterrupted := isJvbConnectionInterrupted c; _iceRestarts := v;
     _delayedIceFailed := _delayedIceFailed c;
     _sessionInitiateTimeout := _sessionInitiateTimeout c; _hasVisitors := _hasVisitors c;
     _transcribingEnabled := _transcribingEnabled c;
     _firefoxP2pEnabled := _firefoxP2pEnabled c; e2eeEnabled := e2eeEnabled c;
     lastN := lastN c; dtmfManager := dtmfManager c;
     p2pEstablishmentDuration := p2pEstablishmentDuration c;
     jvbEstablishmentDuration := jvbEstablishmentDuration c;
     avgRtpStatsReporter := avgRtpStatsReporter c; e2eping := e2eping c;
     wasStopped := wasStopped c; _desktopSharingFrameRate := _desktopSharingFrameRate c |}.

Definition set_delayedIceFailed (v : option IceFailedHandling) (c : JitsiConference) : JitsiConference :=
  {| config := config c; room := room c; participants := participants c;
     rtc_localTracks := rtc_localTracks c; jvbJingleSession := jvbJingleSession c;
     p2pJingleSession := p2pJingleSession c; p2p := p2p c;
     deferredStartP2PTask := deferredStartP2PTask c; backToP2PDelay := backToP2PDelay c;
     isP2PConnectionInterrupted := isP2PConnectionInterrupted c;
     isJvbConnectionInterrupted := isJvbConnectionInterrupted c;
     _iceRestarts := _iceRestarts c; _delayedIceFailed := v;
     _sessionInitiateTimeout := _sessionInitiateTimeout c; _hasVisitors := _hasVisitors c;
     _transcribingEnabled := _transcribingEnabled c;
     _firefoxP2pEnabled := _firefoxP2pEnabled c; e2eeEnabled := e2eeEnabled c;
     lastN := lastN c; dtmfManager := dtmfManager c;
     p2pEstablishmentDuration := p2pEstablishmentDuration c;
     jvbEstablishmentDuration := jvbEstablishmentDuration c;
     avgRtpStatsReporter := avgRtpStatsReporter c; e2eping := e2eping c;
     wasStopped := wasStopped c; _desktopSharingFrameRate := _desktopSharingFrameRate c |}.

Definition set_sessionInitiateTimeout (v : option positive) (c : JitsiConference) : JitsiConference :=
  {| config := config c; room := room c; participants := participants c;
     rtc_localTracks := rtc_localTracks c; jvbJingleSession := jvbJingleSession c;
     p2pJingleSession := p2pJingleSession c; p2p := p2p c;
     deferredStartP2PTask := deferredStartP2PTask c; backToP2PDelay := backToP2PDelay c;
     isP2PConnectionInterrupted := isP2PConnectionInterrupted c;
     isJvbConnectionInterrupted := isJvbConnectionInterrupted c;
     _iceRestarts := _iceRestarts c; _delayedIceFailed := _delayedIceFailed c;
     _sessionInitiateTimeout := v; _hasVisitors := _hasVisitors c;
     _transcribingEnabled := _transcribingEnabled c;
     _firefoxP2pEnabled := _firefoxP2pEnabled c; e2eeEnabled := e2eeEnabled c;
     lastN := lastN c; dtmfManager := dtmfManager c;
     p2pEstablishmentDuration := p2pEstablishmentDuration c;
     jvbEstablishmentDuration := jvbEstablishmentDuration c;
     avgRtpStatsReporter := avgRtpStatsReporter c; e2eping := e2eping c;
     wasStopped := wasStopped c; _desktopSharingFrameRate := _desktopSharingFrameRate c |}.

Definition set_transcribingEnabled (v : option bool) (c : JitsiConference) : JitsiConference :=
  {| config := config c; room := room c; participants := participants c;
     rtc_localTracks := rtc_localTracks c; jvbJingleSession := jvbJingleSession c;
     p2pJingleSession := p2pJingleSession c; p2p := p2p c;
     deferredStartP2PTask := deferredStartP2PTask c; backToP2PDelay := backToP2PDelay c;
     isP2PConnectionInterrupted := isP2PConnectionInterrupted c;
     isJvbConnectionInterrupted := isJvbConnectionInterrupted c;
     _iceRestarts := _iceRestarts c; _delayedIceFailed := _delayedIceFailed c;
     _sessionInitiateTimeout := _sessionInitiateTimeout c; _hasVisitors := _hasVisitors c;
     _transcribingEnabled := v; _firefoxP2pEnabled := _firefoxP2pEnabled c;
     e2eeEnabled := e2eeEnabled c; lastN := lastN c; dtmfManager := dtmfManager c;
     p2pEstablishmentDuration := p2pEstablishmentDuration c;
     jvbEstablishmentDuration := jvbEstablishmentDuration c;
     avgRtpStatsReporter := avgRtpStatsReporter c; e2eping := e2eping c;
     wasStopped := wasStopped c; _desktopSharingFrameRate := _desktopSharingFrameRate c |}.

Definition set_dtmfManager (v : option unit) (c : JitsiConference) : JitsiConference :=
  {| config := config c; room := room c; participants := participants c;
     rtc_localTracks := rtc_localTracks c; jvbJingleSession := jvbJingleSession c;
     p2pJingleSession := p2pJingleSession c; p2p := p2p c;
     deferredStartP2PTask := deferredStartP2PTask c; backToP2PDelay := backToP2PDelay c;
     isP2PConnectionInterrupted := isP2PConnectionInterrupted c;
     isJvbConnectionInterrupted := isJvbConnectionInterrupted c;
     _iceRestarts := _iceRestarts c; _delayedIceFailed := _delayedIceFailed c;
     _sessionInitiateTimeout := _sessionInitiateTimeout c; _hasVisitors := _hasVisitors c;
     _transcribingEnabled := _transcribingEnabled c;
     _firefoxP2pEnabled := _firefoxP2pEnabled c; e2eeEnabled := e2eeEnabled c;
     lastN := lastN c; dtmfManager := v;
     p2pEstablishmentDuration := p2pEstablishmentDuration c;
     jvbEstablishmentDuration := jvbEstablishmentDuration c;
     avgRtpStatsReporter := avgRtpStatsReporter c; e2eping := e2eping c;
     wasStopped := wasStopped c; _desktopSharingFrameRate := _desktopSharingFrameRate c |}.

Definition set_p2pEstablishmentDuration (v : option Z) (c : JitsiConference) : JitsiConference :=
  {| config := config c; room := room c; participants := participants c;
     rtc_localTracks := rtc_localTracks c; jvbJingleSession := jvbJingleSession c;
     p2pJingleSession := p2pJingleSession c; p2p := p2p c;
     deferredStartP2PTask := deferredStartP2PTask c; backToP2PDelay := backToP2PDelay c;
     isP2PConnectionInterrupted := isP2PConnectionInterrupted c;
     isJvbConnectionInterrupted := isJvbConnectionInterrupted c;
     _iceRestarts := _iceRestarts c; _delayedIceFailed := _delayedIceFailed c;
     _sessionInitiateTimeout := _sessionInitiateTimeout c; _hasVisitors := _hasVisitors c;
     _transcribingEnabled := _transcribingEnabled c;
     _firefoxP2pEnabled := _firefoxP2pEnabled c; e2eeEnabled := e2eeEnabled c;
     lastN := lastN c; dtmfManager := dtmfManager c; p2pEstablishmentDuration := v;
     jvbEstablishmentDuration := jvbEstablishmentDuration c;
     avgRtpStatsReporter := avgRtpStatsReporter c; e2eping := e2eping c;
     wasStopped := wasStopped c; _desktopSharingFrameRate := _desktopSharingFrameRate c |}.

Definition set_jvbEstablishmentDuration (v : option Z) (c : JitsiConference) : JitsiConference :=
  {| config := config c; room := room c; participants := participants c;
     rtc_localTracks := rtc_localTracks c; jvbJingleSession := jvbJingleSession c;
     p2pJingleSession := p2pJingleSession c; p2p := p2p c;
     deferredStartP2PTask := deferredStartP2PTask c; backToP2PDelay := backToP2PDelay c;
     isP2PConnectionInterrupted := isP2PConnectionInterrupted c;
     isJvbConnectionInterrupted := isJvbConnectionInterrupted c;
     _iceRestarts := _iceRestarts c; _delayedIceFailed := _delayedIceFailed c;
     _sessionInitiateTimeout := _sessionInitiateTimeout c; _hasVisitors := _hasVisitors c;
     _transcribingEnabled := _transcribingEnabled c;
     _firefoxP2pEnabled := _firefoxP2pEnabled c; e2eeEnabled := e2eeEnabled c;
     lastN := lastN c; dtmfManager := dtmfManager c;
     p2pEstablishmentDuration := p2pEstablishmentDuration c; jvbEstablishmentDuration := v;
     avgRtpStatsReporter := avgRtpStatsReporter c; e2eping := e2eping c;
     wasStopped := wasStopped c; _desktopSharingFrameRate := _desktopSharingFrameRate c |}.

Definition set_avgRtpStatsReporter (v : option unit) (c : JitsiConference) : JitsiConference :=
  {| config := config c; room := room c; participants := participants c;
     rtc_localTracks := rtc_localTracks c; jvbJingleSession := jvbJingleSession c;
     p2pJingleSession := p2pJingleSession c; p2p := p2p c;
     deferredStartP2PTask := deferredStartP2PTask c; backToP2PDelay := backToP2PDelay c;
     isP2PConnectionInterrupted := isP2PConnectionInterrupted c;
     isJvbConnectionInterrupted := isJvbConnectionInterrupted c;
     _iceRestarts := _iceRestarts c; _delayedIceFailed := _delayedIceFailed c;
     _sessionInitiateTimeout := _sessionInitiateTimeout c; _hasVisitors := _hasVisitors c;
     _transcribingEnabled := _transcribingEnabled c;
     _firefoxP2pEnabled := _firefoxP2pEnabled c; e2eeEnabled := e2eeEnabled c;
     lastN := lastN c; dtmfManager := dtmfManager c;
     p2pEstablishmentDuration := p2pEstablishmentDuration c;
     jvbEstablishmentDuration := jvbEstablishmentDuration c; avgRtpStatsReporter := v;
     e2eping := e2eping c;
     wasStopped := wasStopped c; _desktopSharingFrameRate := _desktopSharingFrameRate c |}.

Definition set_e2eping (v : option unit) (c : JitsiConference) : JitsiConference :=
  {| config := config c; room := room c; participants := participants c;
     rtc_localTracks := rtc_localTracks c; jvbJingleSession := jvbJingleSession c;
     p2pJingleSession := p2pJingleSession c; p2p := p2p c;
     deferredStartP2PTask := deferredStartP2PTask c; backToP2PDelay := backToP2PDelay c;
     isP2PConnectionInterrupted := isP2PConnectionInterrupted c;
     isJvbConnectionInterrupted := isJvbConnectionInterrupted c;
     _iceRestarts := _iceRestarts c; _delayedIceFailed := _delayedIceFailed c;
     _sessionInitiateTimeout := _sessionInitiateTimeout c; _hasVisitors := _hasVisitors c;
     _transcribingEnabled := _transcribingEnabled c;
     _firefoxP2pEnabled := _firefoxP2pEnabled c; e2eeEnabled := e2eeEnabled c;
     lastN := lastN c; dtmfManager := dtmfManager c;
     p2pEstablishmentDuration := p2pEstablishmentDuration c;
     jvbEstablishmentDuration := jvbEstablishmentDuration c;
     avgRtpStatsReporter := avgRtpStatsReporter c; e2eping := v;
     wasStopped := wasStopped c; _desktopSharingFrameRate := _desktopSharingFrameRate c |}.

Definition set_rtc_localTracks (v : list JitsiLocalTrack) (c : JitsiConference) : JitsiConference :=
  {| config := config c; room := room c; participants := participants c;
     rtc_localTracks := v; jvbJingleSession := jvbJingleSession c;
     p2pJingleSession := p2pJingleSession c; p2p := p2p c;
     deferredStartP2PTask := deferredStartP2PTask c; backToP2PDelay := backToP2PDelay c;
     isP2PConnectionInterrupted := isP2PConnectionInterrupted c;
     isJvbConnectionInterrupted := isJvbConnectionInterrupted c;
     _iceRestarts := _iceRestarts c; _delayedIceFailed := _delayedIceFailed c;
     _sessionInitiateTimeout := _sessionInitiateTimeout c; _hasVisitors := _hasVisitors c;
     _transcribingEnabled := _transcribingEnabled c;
     _firefoxP2pEnabled := _firefoxP2pEnabled c; e2eeEnabled := e2eeEnabled c;
     lastN := lastN c; dtmfManager := dtmfManager c;
     p2pEstablishmentDuration := p2pEstablishmentDuration c;
     jvbEstablishmentDuration := jvbEstablishmentDuration c;
     avgRtpStatsReporter := avgRtpStatsReporter c; e2eping := e2eping c;
     wasStopped := wasStopped c; _desktopSharingFrameRate := _desktopSharingFrameRate c |}.
(** ** Accessors *)

Definition is_set {A} (o : option A) : bool :=
  match o with
  | Some _ => true
  | None => false
  end.

(** [Boolean(config.p2p && config.p2p.enabled) || typeof config.p2p === 'undefined'] *)
Definition isP2PEnabled (c : JitsiConference) : bool :=
  match cfg_p2p (config c) with
  | Some enabled => enabled
  | None => true
  end.

Definition isP2PTestModeEnabled (c : JitsiConference) : bool := cfg_p2pTestMode (config c).

Definition isE2EEEnabled (c : JitsiConference) : bool := e2eeEnabled c.

Definition isP2PActive (c : JitsiConference) : bool := p2p c.

Definition getParticipants (c : JitsiConference) : list JitsiParticipant :=
  map snd (participants c).

(** [participants.get(id)] *)
Definition participants_get (id : string) (ps : list (string * JitsiParticipant))
  : option JitsiParticipant :=
  option_map snd (find (fun kp => String.eqb (fst kp) id) ps).

Definition getParticipantById (c : JitsiConference) (id : option string)
  : option JitsiParticipant :=
  match id with
  | Some i => participants_get i (participants c)
  | None => None
  end.

(** [getParticipantCount(countHidden = false)] *)
Definition getParticipantCount (c : JitsiConference) : nat :=
  length (List.filter (fun p => negb (participant_isHidden p)) (getParticipants c)) + 1.

Definition myUserId (c : JitsiConference) : option string :=
  match room c with
  | Some r =>
      match myroomjid r with
      | Some jid => getResourceFromJid jid
      | None => None
      end
  | None => None
  end.

Definition isJoined (c : JitsiConference) : bool :=
  match room c with
  | Some r => joined r
  | None => false
  end.

(** [this.room ? this.room.isFocus(mucJid) : null] *)
Definition isFocus (c : JitsiConference) (mucJid : string) : option bool :=
  match room c with
  | Some r => ChatRoom_isFocus r mucJid
  | None => None
  end.

Definition getActiveMediaSession (c : JitsiConference) : option JingleSessionPC :=
  if isP2PActive c then p2pJingleSession c else jvbJingleSession c.

Definition getMediaSessions (c : JitsiConference) : list JingleSessionPC :=
  match jvbJingleSession c with Some s => [s] | None => [] end
  ++ match p2pJingleSession c with Some s => [s] | None => [] end.

Definition isConnectionInterrupted (c : JitsiConference) : bool :=
  if isP2PActive c then isP2PConnectionInterrupted c else isJvbConnectionInterrupted c.

(** [rtc.getLocalTracks(mediaType)]: all local tracks, or those of the type. *)
Definition getLocalTracks (c : JitsiConference) (mediaType : option MediaType)
  : list JitsiLocalTrack :=
  match mediaType with
  | Some m => List.filter (fun t => MediaType_eqb (getType t) m) (rtc_localTracks c)
  | None => rtc_localTracks c
  end.

(** [a > b] and [a === b] where [a] is [myUserId()], a string or [null],
    and [b] a string: strings compare lexicographically by code unit. *)
Definition js_gt (a : option string) (b : string) : bool :=
  match a with
  | Some x => String.ltb b x
  | None => ToNumber_negative b
  end.

Definition js_strict_eq (a : option string) (b : string) : bool :=
  match a with
  | Some x => String.eqb x b
  | None => false
  end.

(** ** Topology controller *)

Definition _shouldBeInP2PMode (c : JitsiConference) : bool :=
  let peers := getParticipants c in
  let peerCount := length peers in
  let hasBotPeer :=
    is_set (find (fun p => match getBotType p with
                           | Some b => String.eqb b "poltergeist"
                           | None => false
                           end || hasFeature p FEATURE_JIGASI) peers) in
  Nat.eqb peerCount 1 && negb hasBotPeer && negb (truthy (_hasVisitors c))
  && negb (truthy (_hasVisitors c)) && negb (truthy (_transcribingEnabled c)).

(** The test guarding [_maybeStartOrStopP2P] ('Auto P2P disabled'). *)
Definition autoP2PDisabled (c : JitsiConference) : bool :=
  negb (isP2PEnabled c) || isP2PTestModeEnabled c
  || (browser_isFirefox && negb (_firefoxP2pEnabled c)) || isE2EEEnabled c.

Definition _maybeClearDeferredStartP2P : M unit :=
  c ← this;
  match deferredStartP2PTask c with
  | Some h => clearTimeout h;; update (set_deferredStartP2PTask None)
  | None => mret tt
  end.

Definition _maybeClearSITimeout : M unit :=
  c ← this;
  match _sessionInitiateTimeout c with
  | Some h =>
      if is_set (jvbJingleSession c) || (getParticipantCount c <? 2)%nat
      then clearTimeout h;; update (set_sessionInitiateTimeout None)
      else mret tt
  | None => mret tt
  end.

Definition _maybeSetSITimeout : M unit :=
  c ← this;
  if negb (is_set (jvbJingleSession c)) && (2 <=? getParticipantCount c)%nat
     && negb (is_set (_sessionInitiateTimeout c))
  then h ← setTimeout CbSessionInitiateTimeout JINGLE_SI_TIMEOUT;
       update (set_sessionInitiateTimeout (Some h))
  else mret tt.

Definition _resumeMediaTransferForJvbConnection : M unit :=
  c ← this;
  match jvbJingleSession c with
  | Some s => call (SessionSetMediaTransferActive (sid s) true)
  | None => throw "TypeError: this.jvbJingleSession is null"
  end.

Definition _suspendMediaTransferForJvbConnection : M unit :=
  c ← this;
  match jvbJingleSession c with
  | Some s => call (SessionSetMediaTransferActive (sid s) false)
  | None => throw "TypeError: this.jvbJingleSession is null"
  end.

(** ** Remote tracks of a session and the roster *)

(** Index-free form of the search loop of [onRemoteTrackRemoved]: the list
    without the first element identical to the track, if there is one. *)
Fixpoint splice_first (t : nat) (ts : list JitsiRemoteTrack)
  : option (list JitsiRemoteTrack) :=
  match ts with
  | [] => None
  | x :: rest =>
      if Nat.eqb (rtid x) t then Some rest
      else option_map (cons x) (splice_first t rest)
  end.

(** [participants.forEach(body)], the body possibly mutating the participant
    it visits. *)
Fixpoint forEach_participant (ps : list (string * JitsiParticipant))
    (body : JitsiParticipant -> M JitsiParticipant)
  : M (list (string * JitsiParticipant)) :=
  match ps with
  | [] => mret []
  | (id, p) :: rest =>
      p' ← body p;
      rest' ← forEach_participant rest body;
      mret ((id, p') :: rest')
  end.

Definition onRemoteTrackRemoved (removedTrack : JitsiRemoteTrack) : M unit :=
  c ← this;
  ps ← forEach_participant (participants c) (fun participant =>
          match splice_first (rtid removedTrack) (_tracks participant) with
          | Some ts =>
              call (Emit (TRACK_REMOVED (rtid removedTrack)));;
              mret (set_tracks ts participant)
          | None => mret participant
          end);
  update (set_participants ps).

(** [participant._tracks.push(track)] on the participant stored under [id]. *)
Fixpoint push_track (id : string) (t : JitsiRemoteTrack)
    (ps : list (string * JitsiParticipant)) : list (string * JitsiParticipant) :=
  match ps with
  | [] => []
  | (k, p) :: rest =>
      if String.eqb k id then (k, set_tracks (_tracks p ++ [t]) p) :: rest
      else (k, p) :: push_track id t rest
  end.

Definition onRemoteTrackAdded (track : JitsiRemoteTrack) : M unit :=
  c ← this;
  if track_isP2P track && negb (isP2PActive c) then mret tt
  else if negb (track_isP2P track) && isP2PActive c then mret tt
  else
    let id := getParticipantId track in
    update (fun c => set_participants (push_track id track (participants c)) c);;
    call (RemoteTrackAddListeners (rtid track));;
    call (Emit (TRACK_ADDED (rtid track))).

Definition _removeRemoteTracks (remoteTracks : list JitsiRemoteTrack) : M unit :=
  for_each remoteTracks onRemoteTrackRemoved.

Definition _addRemoteTracks (remoteTracks : list JitsiRemoteTrack) : M unit :=
  for_each remoteTracks (fun track =>
    c ← this;
    if is_set (participants_get (ownerEndpointId track) (participants c))
    then onRemoteTrackAdded track
    else mret tt).

Definition _removeRemoteJVBTracks : M unit :=
  c ← this;
  match jvbJingleSession c with
  | Some s => _removeRemoteTracks (pc_getRemoteTracks s)
  | None => throw "TypeError: this.jvbJingleSession is null"
  end.

Definition _removeRemoteP2PTracks : M unit :=
  c ← this;
  match p2pJingleSession c with
  | Some s => _removeRemoteTracks (pc_getRemoteTracks s)
  | None => throw "TypeError: this.p2pJingleSession is null"
  end.

Definition _addRemoteJVBTracks : M unit :=
  c ← this;
  match jvbJingleSession c with
  | Some s => _addRemoteTracks (pc_getRemoteTracks s)
  | None => throw "TypeError: this.jvbJingleSession is null"
  end.

Definition _addRemoteP2PTracks : M unit :=
  c ← this;
  match p2pJingleSession c with
  | Some s => _addRemoteTracks (pc_getRemoteTracks s)
  | None => throw "TypeError: this.p2pJingleSession is null"
  end.

(** ** Switching between the two sessions *)

Definition _setP2PStatus (newStatus : bool) : M unit :=
  c ← this;
  if Bool.eqb (p2p c) newStatus then mret tt
  else
    update (set_p2p newStatus);;
    (if newStatus then
       call (AddPermanentProperty "p2pFailed" false);;
       let isVideoActive := negb (Z.eqb (lastN c) 0) in
       match p2pJingleSession c with
       | Some s => call (SessionSetP2pVideoTransferActive (sid s) isVideoActive)
       | None => throw "TypeError: this.p2pJingleSession is null"
       end
     else mret tt);;
    update (set_dtmfManager None);;
    c ← this;
    call (Emit (P2P_STATUS (p2p c)));;
    call (Emit (_MEDIA_SESSION_ACTIVE_CHANGED (option_map sid (getActiveMediaSession c))));;
    call (Emit (if isConnectionInterrupted c then CONNECTION_INTERRUPTED
                else CONNECTION_RESTORED)).

(** [xmpp.connection.jingle.newP2PJingleSession(me, remoteJid)]: a fresh
    session object, initiator side. *)
Definition newP2PJingleSession (me : option string) (peer : string) : M JingleSessionPC :=
  fun w =>
    let s := {| sid := next_sid w; isP2P := true; isInitiator := true; remoteJid := peer;
                pc_getRemoteTracks := []; pc_getLocalTracks := [];
                establishmentDuration := None |} in
    Ok s (set_next_sid (S (next_sid w)) w) [NewP2PJingleSession (next_sid w) me peer].

Definition _startP2PSession (remoteJid : string) : M unit :=
  _maybeClearDeferredStartP2P;;
  c ← this;
  match p2pJingleSession c with
  | Some _ => call (Log ERROR "P2P session already started!")
  | None =>
      update (set_isP2PConnectionInterrupted false);;
      match room c with
      | None => throw "TypeError: this.room is null"
      | Some r =>
          s ← newP2PJingleSession (myroomjid r) remoteJid;
          update (set_p2pJingleSession (Some s));;
          call ConferenceJoinAnalytics;;
          call (SessionInitialize (sid s) "p2p");;
          c ← this;
          call (SessionInvite (sid s) (map tid (getLocalTracks c None)))
      end
  end.

(** The [options] argument of [_stopP2PSession]; a missing property is
    [None] and takes the default of the destructuring. *)
Record StopOptions := {
  opt_reason : option string;
  opt_reasonDescription : option string;
  opt_requestRestart : option bool
}.

Definition no_options : StopOptions :=
  {| opt_reason := None; opt_reasonDescription := None; opt_requestRestart := None |}.

Definition _stopP2PSession (options : StopOptions) : M unit :=
  let reason := default "success" (opt_reason options) in
  let reasonDescription := default "Turning off P2P session" (opt_reasonDescription options) in
  let requestRestart := default false (opt_requestRestart options) in
  c ← this;
  match p2pJingleSession c with
  | None => call (Log ERROR "No P2P session to be stopped!")
  | Some s =>
      let wasP2PEstablished := isP2PActive c in
      when wasP2PEstablished
        (when (is_set (jvbJingleSession c) && negb requestRestart)
           _resumeMediaTransferForJvbConnection;;
         _removeRemoteP2PTracks);;
      call (StopRemoteStats (sid s));;
      c ← this;
      call (SessionTerminate (sid s) (Some reason) (Some reasonDescription)
              (is_set (room c)
               && is_set (getParticipantById c (getResourceFromJid (remoteJid s)))));;
      update (set_p2pJingleSession None);;
      _setP2PStatus false;;
      when wasP2PEstablished
        (c ← this;
         if is_set (jvbJingleSession c) && negb requestRestart
         then _addRemoteJVBTracks
         else mret tt)
  end.

Definition _maybeStartOrStopP2P (userLeftEvent : bool) : M unit :=
  c ← this;
  if autoP2PDisabled c then mret tt
  else
    let peers := getParticipants c in
    let peerCount := length peers in
    let shouldBeInP2P := _shouldBeInP2PMode c in
    when (negb shouldBeInP2P && is_set (deferredStartP2PTask c))
      _maybeClearDeferredStartP2P;;
    c ← this;
    match p2pJingleSession c, shouldBeInP2P with
    | None, true =>
        match peers with
        | [] => throw "TypeError: peer.getId is not a function"
        | peer :: _ =>
            let myId := myUserId c in
            let peersId := getId peer in
            let jid := getJid peer in
            if cfg_forceInitiator (config c) then _startP2PSession jid
            else if cfg_forceResponder (config c) then mret tt
            else if js_gt myId peersId then mret tt
            else if js_strict_eq myId peersId then call (Log ERROR "The same IDs ? ")
            else if userLeftEvent then
              match deferredStartP2PTask c with
              | Some _ => call (Log ERROR "Deferred start P2P task's been set already!")
              | None =>
                  h ← setTimeout (CbStartP2PSession jid) (backToP2PDelay c * 1000);
                  update (set_deferredStartP2PTask (Some h))
              end
            else _startP2PSession jid
        end
    | Some s, false =>
        when (isInitiator s && (1 <? peerCount)%nat)
          (call (SendAnalytics "ACTION_P2P_SWITCH_TO_JVB"));;
        _stopP2PSession no_options
    | _, _ => mret tt
    end.

(** ** Connectivity recovery *)

Definition new_IceFailedHandling : IceFailedHandling :=
  {| ifh_started := None; ifh_canceled := false |}.

(** [this._delayedIceFailed && this._delayedIceFailed.cancel()] *)
Definition cancel_delayedIceFailed : M unit :=
  c ← this;
  match _delayedIceFailed c with
  | Some h =>
      call IceFailedHandling_cancel;;
      update (set_delayedIceFailed
                (Some {| ifh_started := ifh_started h; ifh_canceled := true |}))
  | None => mret tt
  end.

Definition _onIceConnectionInterrupted (session : JingleSessionPC) : M unit :=
  (if isP2P session then update (set_isP2PConnectionInterrupted true)
   else update (set_isJvbConnectionInterrupted true));;
  c ← this;
  when (Bool.eqb (isP2P session) (isP2PActive c)) (call (Emit CONNECTION_INTERRUPTED)).

Definition _onIceConnectionRestored (session : JingleSessionPC) : M unit :=
  (if isP2P session then update (set_isP2PConnectionInterrupted false)
   else update (set_isJvbConnectionInterrupted false);; cancel_delayedIceFailed);;
  c ← this;
  when (Bool.eqb (isP2P session) (isP2PActive c)) (call (Emit CONNECTION_RESTORED)).

Definition _onIceConnectionFailed (session : JingleSessionPC) : M unit :=
  c ← this;
  if isP2P session then
    call (AddPermanentProperty "p2pFailed" true);;
    when (is_set (p2pJingleSession c)) (call (SendAnalytics "ACTION_P2P_FAILED"));;
    _stopP2PSession {| opt_reason := Some "connectivity-error";
                       opt_reasonDescription := Some "ICE FAILED";
                       opt_requestRestart := None |}
  else if field_is_session (jvbJingleSession c) session
          && (_iceRestarts c <? MAX_CONNECTION_RETRIES)%nat then
    let jitterDelay := getJitterDelay (_iceRestarts c) 1000 in
    update (set_delayedIceFailed (Some new_IceFailedHandling));;
    setTimeout (CbIceRestart session jitterDelay) jitterDelay;;
    mret tt
  else if field_is_session (jvbJingleSession c) session then
    call (Log WARN
      "ICE failed, force reloading the conference after failed attempts to re-establish ICE");;
    call (SendAnalytics "ACTION_JVB_ICE_FAILED");;
    call (Emit (CONFERENCE_FAILED ICE_FAILED))
  else mret tt.

Definition _onIceConnectionEstablished (jingleSession : JingleSessionPC) : M unit :=
  c ← this;
  match p2pJingleSession c with
  | Some s => update (set_p2pEstablishmentDuration (establishmentDuration s))
  | None => mret tt
  end;;
  match jvbJingleSession c with
  | Some s => update (set_jvbEstablishmentDuration (establishmentDuration s))
  | None => mret tt
  end;;
  done ← (if negb (isP2P jingleSession) then mret true
          else if negb (field_is_session (p2pJingleSession c) jingleSession) then
            call (Log ERROR "CONNECTION_ESTABLISHED - wrong P2P session instance ?!");;
            mret true
          else mret false);
  c ← this;
  when (is_set (p2pEstablishmentDuration c) && is_set (jvbEstablishmentDuration c))
    (call (SendAnalytics "ICE_ESTABLISHMENT_DURATION_DIFF"));;
  when (Bool.eqb (isP2P jingleSession) (isP2PActive c))
    (call (Emit CONNECTION_ESTABLISHED));;
  if done : bool then mret tt
  else
    _setP2PStatus true;;
    c ← this;
    when (is_set (jvbJingleSession c)) _removeRemoteJVBTracks;;
    _addRemoteP2PTracks;;
    c ← this;
    when (is_set (jvbJingleSession c)) _suspendMediaTransferForJvbConnection;;
    c ← this;
    match p2pJingleSession c with
    | Some s =>
        call (StartRemoteStats (sid s));;
        call (SendAnalytics "ACTION_P2P_ESTABLISHED")
    | None => throw "TypeError: this.p2pJingleSession is null"
    end.

(** ** Timers firing *)

(** The body of each callback handed to [setTimeout]. *)
Definition run_callback (cb : TimerCallback) : M unit :=
  match cb with
  | CbStartP2PSession jid => _startP2PSession jid
  | CbIceRestart session jitterDelay =>
      call (LogIceRestart jitterDelay);;
      c ← this;
      match _delayedIceFailed c with
      | Some h =>
          call (IceFailedHandling_start (sid session));;
          update (set_delayedIceFailed
                    (Some {| ifh_started := Some (sid session);
                             ifh_canceled := ifh_canceled h |}))
      | None => throw "TypeError: this._delayedIceFailed is undefined"
      end;;
      update (fun c => set_iceRestarts (S (_iceRestarts c)) c)
  | CbSessionInitiateTimeout =>
      update (set_sessionInitiateTimeout None);;
      call (SendAnalytics "ACTION_JINGLE_SI_TIMEOUT")
  end.

(** Whether the timer with this handle is still pending. *)
Definition pending (h : positive) (w : World) : bool :=
  is_set (find (fun t => Pos.eqb (fst t) h) (timers w)).

(** The event loop fires the timer with handle [h]: nothing happens when it
    is not pending (it was cleared, or fired before). *)
Definition fire (h : positive) : M unit :=
  fun w =>
    match find (fun t => Pos.eqb (fst t) h) (timers w) with
    | Some (_, cb) =>
        run_callback cb
          (set_timers (List.filter (fun t => negb (Pos.eqb (fst t) h)) (timers w))
             (next_handle w) w)
    | None => Ok tt w []
    end.

(** ** Incoming session-initiate *)

(** The Jingle offer, as far as the conference inspects it: the [name]
    attribute of its first [content] element. *)
Record JingleOffer := { offer_contentName : option string }.

Record RejectOptions := {
  errorMsg : option string;
  reason : option string;
  reasonDescription : option string
}.

Definition _rejectIncomingCall (jingleSession : JingleSessionPC) (options : RejectOptions)
  : M unit :=
  match errorMsg options with
  | Some msg => call (Log WARN msg)
  | None => mret tt
  end;;
  call (SessionTerminate (sid jingleSession) (reason options) (reasonDescription options) true).

(** Accepting a P2P offer, up to the call of [acceptOffer]; its callbacks run
    in a later turn of the event loop. *)
Definition _acceptP2PIncomingCall (jingleSession : JingleSessionPC) : M unit :=
  update (set_isP2PConnectionInterrupted false);;
  update (set_p2pJingleSession (Some jingleSession));;
  call ConferenceJoinAnalytics;;
  call (SessionInitialize (sid jingleSession) "p2p");;
  c ← this;
  call (SessionAcceptOffer (sid jingleSession) (map tid (getLocalTracks c None))).

(** A call inside a [try] block whose [catch] logs the error and ends the
    method: [error] is what the call throws, and [rest] is what follows it
    in the block. *)
Definition try_call (e : Effect) (error : option string) (rest : M unit) : M unit :=
  call e;;
  match error with
  | Some error => call (Log ERROR error)
  | None => rest
  end.

(** Accepting the bridge offer, up to the return of [acceptOffer], whose
    callbacks run in a later turn of the event loop. What [initialize]
    throws is caught and logged, and the method returns; so is what
    [acceptOffer], [setDesktopSharingFrameRate] or [startRemoteStats]
    throws in the second [try] block. The connection times of the room are
    not part of the model. *)
Definition _acceptJvbIncomingCall (jingleSession : JingleSessionPC) : M unit :=
  update (set_jvbJingleSession (Some jingleSession));;
  c ← this;
  match room c with
  | None => throw "TypeError: this.room is null"
  | Some _ =>
      call ConferenceJoinAnalytics;;
      when (wasStopped c) (call (SendAnalytics "ACTION_JINGLE_RESTART"));;
      call (Emit SERVER_REGION_CHANGED);;
      _maybeClearSITimeout;;
      call (SendAnalytics "ACTION_JINGLE_SI_RECEIVED");;
      try_call (SessionInitialize (sid jingleSession) "jvb")
        (initialize_error jingleSession)
        (call (SetBridgeChannel (sid jingleSession));;
         c ← this;
         let localTracks := getLocalTracks c None in
         try_call (SessionAcceptOffer (sid jingleSession) (map tid localTracks))
           (acceptOffer_error jingleSession)
           (let startRemoteStats :=
              try_call (StartRemoteStats (sid jingleSession))
                (startRemoteStats_error jingleSession) (mret tt) in
            match _desktopSharingFrameRate c with
            | Some maxFps =>
                if negb (maxFps =? 0)%Z
                then try_call (SetDesktopSharingFrameRate (sid jingleSession) maxFps)
                       (setDesktopSharingFrameRate_error jingleSession) startRemoteStats
                else startRemoteStats
            | None => startRemoteStats
            end))
  end.

Definition peerUsesUnifiedPlan (jingleOffer : JingleOffer) : bool :=
  match offer_contentName jingleOffer with
  | Some contentName => String.eqb contentName "0" || String.eqb contentName "1"
  | None => false
  end.

Definition _onIncomingCallP2P (jingleSession : JingleSessionPC) (jingleOffer : JingleOffer)
  : M unit :=
  c ← this;
  rejectReason ←
    (if negb (peerUsesUnifiedPlan jingleOffer) then
       mret (Some {| errorMsg :=
                       Some "P2P across two endpoints in different SDP modes is disabled";
                     reason := Some "decline";
                     reasonDescription := Some "P2P disabled" |})
     else if (negb (isP2PEnabled c) && negb (isP2PTestModeEnabled c))
             || (browser_isFirefox && negb (_firefoxP2pEnabled c)) then
       mret (Some {| errorMsg :=
                       Some "P2P mode disabled in the configuration or browser unsupported";
                     reason := Some "decline";
                     reasonDescription := Some "P2P disabled" |})
     else if is_set (p2pJingleSession c) then
       mret (Some {| errorMsg := Some "Duplicated P2P session-initiate";
                     reason := Some "busy";
                     reasonDescription := Some "P2P already in progress" |})
     else if negb (_shouldBeInP2PMode c) then
       call (SendAnalytics "ACTION_P2P_DECLINED");;
       mret (Some {| errorMsg :=
                       Some "Received P2P session-initiate when should not be in P2P mode";
                     reason := Some "decline";
                     reasonDescription := Some "P2P requirements not met" |})
     else mret None);
  match rejectReason with
  | Some r => _rejectIncomingCall jingleSession r
  | None => _acceptP2PIncomingCall jingleSession
  end.

Definition onIncomingCall (jingleSession : JingleSessionPC) (jingleOffer : JingleOffer)
  : M unit :=
  if isP2P jingleSession then _onIncomingCallP2P jingleSession jingleOffer
  else
    c ← this;
    if negb (truthy (isFocus c (remoteJid jingleSession))) then
      let description := "Rejecting session-initiate from non-focus." in
      _rejectIncomingCall jingleSession
        {| errorMsg := Some description; reason := Some "security-error";
           reasonDescription := Some description |}
    else _acceptJvbIncomingCall jingleSession.

(** ** Presence *)

(** [ChatRoom.sendPresence()] without [fromJoin]: nothing is sent before the
    room is connected and joined. *)
Definition ChatRoom_sendPresence (r : ChatRoom) : M unit :=
  match presMap_to r with
  | Some to =>
      if negb (connection_connected r) || negb (joined r) then mret tt
      else call (SendPresenceStanza to)
  | None => mret tt
  end.

Definition _setTrackMuteStatus (localTrack : JitsiLocalTrack) (muted : bool) : M bool :=
  fun w =>
    let r := setTrackMuteStatus (getSourceName localTrack) muted (signaling w) in
    Ok (fst r) (set_signaling (snd r) w) [].

Definition _setNewVideoType (track : JitsiLocalTrack) : M bool :=
  fun w =>
    let r := setTrackVideoType (getSourceName track) (getVideoType track) (signaling w) in
    Ok (fst r) (set_signaling (snd r) w) [].

(** [a || b] on values that are [undefined] or booleans. *)
Definition js_or (a b : option bool) : option bool := if truthy a then a else b.

(** The loop over the local tracks of [_updateRoomPresence]; the two
    variables declared before the loop are carried along. *)
Fixpoint updateTracksPresence (localTracks : list JitsiLocalTrack)
    (presenceChanged videoTypeChanged : option bool) : M (option bool) :=
  match localTracks with
  | [] => mret presenceChanged
  | track :: rest =>
      muteStatusChanged ← _setTrackMuteStatus track (isMuted track);
      videoTypeChanged ←
        (if MediaType_eqb (getType track) VIDEO
         then changed ← _setNewVideoType track; mret (Some changed)
         else mret videoTypeChanged);
      updateTracksPresence rest
        (js_or (js_or presenceChanged (Some muteStatusChanged)) videoTypeChanged)
        videoTypeChanged
  end.

(** [ctx.skip] of the object behind a reference. *)
Definition ctx_skip (r : nat) (w : World) : bool :=
  match heap w !! r with
  | Some o => truthy (skip o)
  | None => false
  end.

Definition _updateRoomPresence (jingleSession : option JingleSessionPC) (ctx : option nat)
  : M unit :=
  match jingleSession with
  | None => mret tt
  | Some session =>
      skipped ←
        match ctx with
        | Some r =>
            fun w =>
              if ctx_skip r w then Ok true w []
              else Ok false (set_heap (<[r := {| skip := Some true |}]> (heap w)) w) []
        | None => mret false
        end;
      if skipped : bool then mret tt
      else
        presenceChanged ← updateTracksPresence (pc_getLocalTracks session) (Some false) None;
        if truthy presenceChanged then
          c ← this;
          match room c with
          | Some r => ChatRoom_sendPresence r
          | None => throw "TypeError: this.room is null"
          end
        else mret tt
  end.

(** ** Local tracks *)

(** The promise a method returns: settled at once, or waiting for the
    promises of the session operations started by the call, or another
    promise with a callback attached by [then]. The callbacks run in a later
    turn of the event loop. *)
Inductive ThenCallback := AfterAddTracks | AfterReplaceTrack | AfterAddTrack.

Inductive Promise :=
| Promise_resolve (track : option nat)
| Promise_reject (err : string)
| Promise_all (sessions : list nat)
| Promise_then (p : Promise) (k : ThenCallback).

Definition _doReplaceTrack (oldTrack newTrack : option JitsiLocalTrack) : M Promise :=
  c ← this;
  a ← match jvbJingleSession c with
      | Some s =>
          call (SessionReplaceTrack (sid s) (option_map tid oldTrack) (option_map tid newTrack));;
          mret [sid s]
      | None => mret []
      end;
  b ← match p2pJingleSession c with
      | Some s =>
          call (SessionReplaceTrack (sid s) (option_map tid oldTrack) (option_map tid newTrack));;
          mret [sid s]
      | None => mret []
      end;
  mret (Promise_all (a ++ b)).

Definition replaceTrack (oldTrack newTrack : option JitsiLocalTrack) : M Promise :=
  let oldVideoType := oldTrack ≫= getVideoType in
  let newVideoType := newTrack ≫= getVideoType in
  if is_set oldTrack && is_set newTrack && negb (optVideoType_eqb oldVideoType newVideoType)
  then throw "Replacing a track with a track of another videoType is not supported in this mode."
  else
    c ← this;
    match newTrack with
    | Some n =>
        let mediaType := match oldTrack with Some o => getType o | None => getType n end in
        let sourceName :=
          match oldTrack with
          | Some o => getSourceName o
          | None => Some (getSourceNameForJitsiTrack (myUserId c) mediaType
                            (length (getLocalTracks c (Some mediaType))))
          end in
        call (TrackSetSourceName (tid n) sourceName)
    | None => mret tt
    end;;
    let oldTrackBelongsToConference :=
      match oldTrack with Some o => belongsToConference o | None => false end in
    if oldTrackBelongsToConference
       && match oldTrack with Some o => disposed o | None => false end
    then mret (Promise_reject "TRACK_IS_DISPOSED")
    else if match newTrack with Some n => disposed n | None => false end
    then mret (Promise_reject "TRACK_IS_DISPOSED")
    else
      when (is_set oldTrack && negb oldTrackBelongsToConference)
        (call (Log WARN "JitsiConference.replaceTrack oldTrack does not belong to this conference"));;
      p ← _doReplaceTrack (if oldTrackBelongsToConference then oldTrack else None) newTrack;
      mret (Promise_then p AfterReplaceTrack).

Definition addTrack (track : option JitsiLocalTrack) : M Promise :=
  match track with
  | None => throw "addTrack - a track is required"
  | Some track =>
      c ← this;
      let mediaType := getType track in
      let localTracks := getLocalTracks c (Some mediaType) in
      match localTracks with
      | first :: _ =>
          if Nat.eqb (tid track) (tid first) then mret (Promise_resolve (Some (tid track)))
          else if cfg_allowMultipleTracks (config c)
                  || (MediaType_eqb mediaType VIDEO
                      && negb (is_set (find (fun t => optVideoType_eqb (getVideoType t)
                                                        (getVideoType track)) localTracks)))
          then
            let sourceName := getSourceNameForJitsiTrack (myUserId c) mediaType
                                (length (getLocalTracks c (Some mediaType))) in
            call (TrackSetSourceName (tid track) (Some sourceName));;
            a ← match p2pJingleSession c with
                | Some s => call (SessionAddTracks (sid s) [tid track]);; mret [sid s]
                | None => mret []
                end;
            b ← match jvbJingleSession c with
                | Some s => call (SessionAddTracks (sid s) [tid track]);; mret [sid s]
                | None => mret []
                end;
            mret (Promise_then (Promise_all (a ++ b)) AfterAddTracks)
          else mret (Promise_reject ("Cannot add second " ++ MediaType_toString mediaType
                                     ++ " track to the conference"))
      | [] =>
          p ← replaceTrack None (Some track);
          mret (Promise_then p AfterAddTrack)
      end
  end.

(** ** Leaving *)

(** [rtc.removeLocalTrack(track)] *)
Fixpoint removeLocalTrack (t : nat) (ts : list JitsiLocalTrack) : list JitsiLocalTrack :=
  match ts with
  | [] => []
  | x :: rest => if Nat.eqb (tid x) t then rest else x :: removeLocalTrack t rest
  end.

Definition onLocalTrackRemoved (track : JitsiLocalTrack) : M unit :=
  call (LocalTrackDetach (tid track));;
  update (fun c => set_rtc_localTracks (removeLocalTrack (tid track) (rtc_localTracks c)) c);;
  call (Emit (LOCAL_TRACK_REMOVED (tid track))).

(** [leave(reason)] up to [await room.leave(reason)], where the method
    yields to the event loop; the bookkeeping of a move between breakout
    rooms is left out. *)
Definition leave (reason : option string) : M unit :=
  c ← this;
  when (is_set (avgRtpStatsReporter c))
    (call DisposeAvgRtpStatsReporter;; update (set_avgRtpStatsReporter None));;
  when (is_set (e2eping c)) (call StopE2ePing;; update (set_e2eping None));;
  for_each (getLocalTracks c None) onLocalTrackRemoved;;
  call CloseBridgeChannel;;
  call ConferenceLeftAnalytics;;
  call DisposeStatistics;;
  cancel_delayedIceFailed;;
  _maybeClearSITimeout;;
  c ← this;
  match jvbJingleSession c with
  | Some s => call (SessionClose (sid s));; update (set_jvbJingleSession None)
  | None => mret tt
  end;;
  c ← this;
  match p2pJingleSession c with
  | Some s => call (SessionClose (sid s));; update (set_p2pJingleSession None)
  | None => mret tt
  end;;
  c ← this;
  match room c with
  | None => mret tt
  | Some _ =>
      call RemoveRoomListeners;;
      update (set_room None);;
      call (RoomLeave reason)
  end.

(** The constructor's [backToP2PDelay]: [parsed] is the result of
    [Number.parseInt(config.p2p?.backToP2PDelay, 10)], [None] for [NaN]. *)
Definition init_backToP2PDelay (parsed : option Z) : Z :=
  match parsed with
  | Some delay => delay
  | None => 5
  end.

End Conference.

Arguments Ok {_ _} a w calls.
Arguments Throw {_ _} msg w calls.

(** * ECMAScript built-ins the helpers rely on

    Strings are sequences of code units below 256. A number is [NaN], an
    infinity or an integer: the numbers the helpers meet are read by
    [parseInt] or compared with such numbers. *)

Module JS.

Inductive number := NaN | Int (z : Z) | Infinity (negative : bool).

(** [a === b] on numbers: [NaN] equals nothing. *)
Definition strict_eq (a b : number) : bool :=
  match a, b with
  | Int x, Int y => Z.eqb x y
  | Infinity x, Infinity y => Bool.eqb x y
  | _, _ => false
  end.

(** [a < b] and [a >= b] on numbers: [false] as soon as one side is [NaN]. *)
Definition lt (a b : number) : bool :=
  match a, b with
  | Int x, Int y => Z.ltb x y
  | Int _, Infinity negative => negb negative
  | Infinity negative, Int _ => negative
  | Infinity x, Infinity y => x && negb y
  | _, _ => false
  end.

Definition ge (a b : number) : bool :=
  match a, b with
  | Int x, Int y => Z.leb y x
  | Int _, Infinity negative => negative
  | Infinity negative, Int _ => negb negative
  | Infinity x, Infinity y => negb x || y
  | _, _ => false
  end.

(** [Number.isSafeInteger]: the integers from -(2^53 - 1) to 2^53 - 1, which
    a double holds exactly and [String] prints in plain decimal. *)
Definition isSafeInteger (z : Z) : bool := (Z.abs z <=? 9007199254740991)%Z.

(** What the engine does with an integer that is not safe: [parseInt] of
    its digits answers a double near it (every digit after the 20th may be
    read as 0) or an infinity, and [String] prints the shortest digits that
    read back as the same double, in exponent form from 1e21. *)
Class Engine := {
  parseInt_unsafe : Z -> number;
  toString_unsafe : Z -> string
}.

(** StrWhiteSpaceChar: TAB, LF, VT, FF, CR, SP and NBSP. *)
Definition isWhiteSpace (c : ascii) : bool :=
  let n := N_of_ascii c in
  ((9 <=? n) && (n <=? 13) || (n =? 32) || (n =? 160))%N.

Definition digit (c : ascii) : option Z :=
  let n := N_of_ascii c in
  if ((48 <=? n) && (n <=? 57))%N then Some (Z.of_N n - 48)%Z else None.

Fixpoint trimStart (s : string) : string :=
  match s with
  | String c rest => if isWhiteSpace c then trimStart rest else s
  | EmptyString => s
  end.

(** The value of the longest prefix of decimal digits, [acc] being the value
    of the digits read so far ([None]: none yet). *)
Fixpoint parseDigits (s : string) (acc : option Z) : option Z :=
  match s with
  | String c rest =>
      match digit c with
      | Some d => parseDigits rest (Some (10 * default 0%Z acc + d)%Z)
      | None => acc
      end
  | EmptyString => acc
  end.

Section WithEngine.

Context `{Engine}.

(** [parseInt(string, 10)]: leading white space is skipped, a sign is read,
    then the longest prefix of digits; [NaN] when there is no digit. *)
Definition parseInt_string (s : string) : number :=
  let s := trimStart s in
  let '(sign, s) :=
    match s with
    | String c rest =>
        if Ascii.eqb c "-" then ((-1)%Z, rest)
        else if Ascii.eqb c "+" then (1%Z, rest)
        else (1%Z, s)
    | EmptyString => (1%Z, s)
    end in
  match parseDigits s None with
  | Some n => if isSafeInteger (sign * n) then Int (sign * n) else parseInt_unsafe (sign * n)
  | None => NaN
  end.

(** [parseInt(value, 10)] where the value is a string or [undefined], which
    [ToString] turns into the text 'undefined'. *)
Definition parseInt (v : option string) : number :=
  match v with
  | Some s => parseInt_string s
  | None => parseInt_string "undefined"
  end.

(** [String(n)] and [`${n}`] for a number. *)
Definition toString (n : number) : string :=
  match n with
  | NaN => "NaN"
  | Int z => if isSafeInteger z then pretty z else toString_unsafe z
  | Infinity negative => if negative then "-Infinity" else "Infinity"
  end.

End WithEngine.

(** [s.split(sep)] for a separator of one code unit: never empty. *)
Fixpoint split (sep : ascii) (s : string) : list string :=
  match s with
  | EmptyString => [""]
  | String c rest =>
      if Ascii.eqb c sep then "" :: split sep rest
      else match split sep rest with
           | piece :: pieces => String c piece :: pieces
           | [] => [String c ""]
           end
  end.

(** [s.indexOf(sub) !== -1] *)
Fixpoint includes (sub s : string) : bool :=
  String.prefix sub s
  || match s with
     | String _ rest => includes sub rest
     | EmptyString => false
     end.

(** [array.indexOf(x)] on an array of numbers; [None] stands for [-1]. *)
Fixpoint indexOf (x : number) (l : list number) : option nat :=
  match l with
  | [] => None
  | y :: rest => if strict_eq y x then Some 0 else option_map S (indexOf x rest)
  end.

(** [array.filter((value, index, array) => f(value, index, array))] *)
Fixpoint filter_from {A} (f : A -> nat -> list A -> bool) (array : list A) (index : nat)
    (l : list A) : list A :=
  match l with
  | [] => []
  | value :: rest =>
      if f value index array then value :: filter_from f array (S index) rest
      else filter_from f array (S index) rest
  end.

Definition filter_indexed {A} (f : A -> nat -> list A -> bool) (array : list A) : list A :=
  filter_from f array 0 array.

(** [array.splice(start, 1)] where [start] is the result of [indexOf]: the
    element at [start] goes; [-1] counts from the end, so the last goes. *)
Definition splice1 {A} (start : option nat) (l : list A) : list A :=
  match start with
  | Some i => (firstn i l ++ skipn (S i) l)%list
  | None => removelast l
  end.

(** [s.toLowerCase()] on code units below 256: the letters A to Z and the
    Latin-1 capitals from 192 to 222, the multiplication sign apart, move
    to their small forms, 32 further on. *)
Definition toLowerCase_char (c : ascii) : ascii :=
  let n := N_of_ascii c in
  if ((65 <=? n) && (n <=? 90) || (192 <=? n) && (n <=? 222) && negb (n =? 215))%N
  then ascii_of_N (n + 32)
  else c.

Fixpoint toLowerCase (s : string) : string :=
  match s with
  | String c rest => String (toLowerCase_char c) (toLowerCase rest)
  | EmptyString => EmptyString
  end.

(** ** Plain objects used as maps

    An object literal [{}] inherits the properties of [Object.prototype]:
    reading one of these names from an object that has no own property of
    that name yields the inherited member, a function or, for [__proto__],
    the prototype itself. *)
Definition Object_prototype_properties : list string :=
  ["constructor"; "hasOwnProperty"; "isPrototypeOf"; "propertyIsEnumerable";
   "toLocaleString"; "toString"; "valueOf"; "__defineGetter__"; "__defineSetter__";
   "__lookupGetter__"; "__lookupSetter__"; "__proto__"].

Definition inherited (name : string) : bool :=
  existsb (String.eqb name) Object_prototype_properties.

(** What [object[name]] yields; an inherited member is truthy and has none
    of the methods of the values the object is filled with. *)
Inductive Property (V : Type) :=
| Own (v : V)
| Inherited
| Undefined.

Arguments Own {V} v.
Arguments Inherited {V}.
Arguments Undefined {V}.

(** [object[name]] *)
Definition get {V} (object : gmap string V) (name : string) : Property V :=
  match object !! name with
  | Some v => Own v
  | None => if inherited name then Inherited else Undefined
  end.

(** [name in object] *)
Definition has {V} (object : gmap string V) (name : string) : bool :=
  match get object name with
  | Undefined => false
  | _ => true
  end.

End JS.

(** * SdpTransformUtil ([src/modules/sdp/SdpTransformUtil.ts]) *)

(** The group semantics of [StandardVideoQualitySettings], a module outside
    the sources at hand. *)
Class StandardVideoQualitySettings := {
  SSRC_GROUP_SEMANTICS_FID : string;
  SSRC_GROUP_SEMANTICS_SIM : string
}.

Module SdpTransformUtil.

Record ISsrcGroups := {
  semantics : string;
  ssrcs : string
}.

Record ISsrcs := {
  attribute : string;
  id : JS.number;
  value : string
}.

(** A media description of 'sdp-transform'; an absent property is [None]. *)
Record IMLine := {
  direction : option string;
  ssrcGroups : option (list ISsrcGroups);
  mline_ssrcs : option (list ISsrcs);
  type : option string
}.

Section WithEngine.

Context `{JS.Engine}.

Definition parsePrimarySSRC (group : ISsrcGroups) : JS.number :=
  JS.parseInt (head (JS.split " "%char (ssrcs group))).

Definition parseSecondarySSRC (group : ISsrcGroups) : JS.number :=
  JS.parseInt (nth_error (JS.split " "%char (ssrcs group)) 1).

(** [array.indexOf(ssrc) === index] *)
Definition first_occurrence (ssrc : JS.number) (index : nat) (array : list JS.number) : bool :=
  match JS.indexOf ssrc array with
  | Some i => Nat.eqb i index
  | None => false
  end.

Definition _getSSRCCount (mLine : IMLine) : nat :=
  match mline_ssrcs mLine with
  | None => 0
  | Some l => length (JS.filter_indexed first_occurrence (map id l))
  end.

(** ** MLineWrap

    The wrapper holds a reference to the media description, so every method
    is a function of the description and gives back the description it
    leaves, next to its result; a method that may throw gives the message
    of the error instead. *)

(** [new MLineWrap(mLine)] *)
Definition MLineWrap (mLine : option IMLine) : string + IMLine :=
  match mLine with
  | None => inl "mLine is undefined"
  | Some m => inr m
  end.

Definition set_ssrcs (v : option (list ISsrcs)) (m : IMLine) : IMLine :=
  {| direction := direction m; ssrcGroups := ssrcGroups m; mline_ssrcs := v; type := type m |}.

Definition set_ssrcGroups (v : option (list ISsrcGroups)) (m : IMLine) : IMLine :=
  {| direction := direction m; ssrcGroups := v; mline_ssrcs := mline_ssrcs m; type := type m |}.

Definition set_direction (v : option string) (m : IMLine) : IMLine :=
  {| direction := v; ssrcGroups := ssrcGroups m; mline_ssrcs := mline_ssrcs m; type := type m |}.

(** The getter [ssrcs]: an undefined array is replaced by an empty one. *)
Definition get_ssrcs (m : IMLine) : list ISsrcs * IMLine :=
  match mline_ssrcs m with
  | Some l => (l, m)
  | None => ([], set_ssrcs (Some []) m)
  end.

(** The getter [ssrcGroups], likewise. *)
Definition get_ssrcGroups (m : IMLine) : list ISsrcGroups * IMLine :=
  match ssrcGroups m with
  | Some l => (l, m)
  | None => ([], set_ssrcGroups (Some []) m)
  end.

Definition getSSRCAttrValue (ssrcNumber : JS.number) (attrName : string) (m : IMLine)
  : option string * IMLine :=
  let '(l, m) := get_ssrcs m in
  (option_map value
     (find (fun ssrcObj => JS.strict_eq (id ssrcObj) ssrcNumber
                           && String.eqb (attribute ssrcObj) attrName) l),
   m).

Definition removeSSRC (ssrcNum : JS.number) (m : IMLine) : IMLine :=
  match mline_ssrcs m with
  | None | Some [] => m
  | Some l => set_ssrcs (Some (List.filter (fun ssrcObj => negb (JS.strict_eq (id ssrcObj) ssrcNum)) l)) m
  end.

Definition addSSRCAttribute (ssrcObj : ISsrcs) (m : IMLine) : IMLine :=
  let '(l, m) := get_ssrcs m in
  set_ssrcs (Some (l ++ [ssrcObj])%list) m.

(** [!ssrcs || ssrcs === group.ssrcs], the argument being optional. *)
Definition ssrcs_match (wanted : option string) (group : ISsrcGroups) : bool :=
  match wanted with
  | None | Some "" => true
  | Some s => String.eqb s (ssrcs group)
  end.

Definition findGroup (sem : string) (wanted : option string) (m : IMLine)
  : option ISsrcGroups * IMLine :=
  let '(l, m) := get_ssrcGroups m in
  (find (fun group => String.eqb (semantics group) sem && ssrcs_match wanted group) l, m).

Definition findGroups (sem : string) (m : IMLine) : list ISsrcGroups * IMLine :=
  let '(l, m) := get_ssrcGroups m in
  (List.filter (fun group => String.eqb (semantics group) sem) l, m).

Definition findGroupByPrimarySSRC (sem : string) (primarySSRC : JS.number) (m : IMLine)
  : option ISsrcGroups * IMLine :=
  let '(l, m) := get_ssrcGroups m in
  (find (fun group => String.eqb (semantics group) sem
                      && JS.strict_eq (parsePrimarySSRC group) primarySSRC) l,
   m).

Definition getSSRCCount (m : IMLine) : nat := _getSSRCCount m.

Definition containsAnySSRCGroups (m : IMLine) : bool :=
  match ssrcGroups m with
  | Some _ => true
  | None => false
  end.

Definition is_video (m : IMLine) : bool :=
  match type m with
  | Some t => String.eqb t "video"
  | None => false
  end.

Definition type_text (m : IMLine) : string := default "undefined" (type m).

Section WithSettings.

Context `{StandardVideoQualitySettings}.

(** The result is [None] for [undefined]. *)
Definition getPrimaryVideoSsrc (m : IMLine) : string + option JS.number * IMLine :=
  if negb (is_video m)
  then inl ("getPrimarySsrc doesn't work with '" ++ type_text m ++ "'")
  else
    let numSsrcs := _getSSRCCount m in
    match Nat.eqb numSsrcs 1, mline_ssrcs m with
    | true, Some (first :: _) => inr (Some (id first), m)
    | true, _ => inl "TypeError: this.mLine.ssrcs[0] is undefined"
    | false, _ =>
        match ssrcGroups m with
        | None => inr (None, m)
        | Some _ =>
            let '(simGroup, m) := findGroup SSRC_GROUP_SEMANTICS_SIM None m in
            match simGroup with
            | Some g => inr (Some (parsePrimarySSRC g), m)
            | None =>
                let '(fidGroup, m) := findGroup SSRC_GROUP_SEMANTICS_FID None m in
                match fidGroup with
                | Some g => inr (Some (parsePrimarySSRC g), m)
                | None =>
                    let '(fecGroup, m) := findGroup "FEC-FR" None m in
                    match fecGroup with
                    | Some g => inr (Some (parsePrimarySSRC g), m)
                    | None => inr (None, m)
                    end
                end
            end
        end
    end.

Definition getRtxSSRC (primarySsrc : JS.number) (m : IMLine) : option JS.number * IMLine :=
  let '(fidGroup, m) := findGroupByPrimarySSRC SSRC_GROUP_SEMANTICS_FID primarySsrc m in
  (option_map parseSecondarySSRC fidGroup, m).

Definition getSSRCs (m : IMLine) : list JS.number * IMLine :=
  let '(l, m) := get_ssrcs m in
  (JS.filter_indexed first_occurrence (map id l), m).

(** The body of the loop of [getPrimaryVideoSSRCs] over the groups. *)
Definition drop_secondary (videoSSRCs : list JS.number) (ssrcGroupInfo : ISsrcGroups)
  : list JS.number :=
  if String.eqb (semantics ssrcGroupInfo) SSRC_GROUP_SEMANTICS_FID
     || String.eqb (semantics ssrcGroupInfo) "FEC-FR"
  then
    let secondarySsrc := parseSecondarySSRC ssrcGroupInfo in
    JS.splice1 (JS.indexOf secondarySsrc videoSSRCs) videoSSRCs
  else videoSSRCs.

Definition getPrimaryVideoSSRCs (m : IMLine) : string + list JS.number * IMLine :=
  if negb (is_video m)
  then inl ("getPrimaryVideoSSRCs doesn't work with " ++ type_text m)
  else
    let '(videoSSRCs, m) := getSSRCs m in
    let '(groups, m) := get_ssrcGroups m in
    inr (fold_left drop_secondary groups videoSSRCs, m).

End WithSettings.

Definition removeGroupsWithSSRC (ssrc : JS.number) (m : IMLine) : IMLine :=
  match ssrcGroups m with
  | None => m
  | Some l =>
      set_ssrcGroups
        (Some (List.filter (fun groupInfo => negb (JS.includes (JS.toString ssrc) (ssrcs groupInfo)))
                 l)) m
  end.

Definition removeGroupsBySemantics (sem : string) (m : IMLine) : IMLine :=
  match ssrcGroups m with
  | None => m
  | Some l =>
      set_ssrcGroups
        (Some (List.filter (fun groupInfo => negb (String.eqb (semantics groupInfo) sem)) l)) m
  end.

Definition addSSRCGroup (group : ISsrcGroups) (m : IMLine) : IMLine :=
  let '(l, m) := get_ssrcGroups m in
  set_ssrcGroups (Some (l ++ [group])%list) m.

End WithEngine.

End SdpTransformUtil.

(** * ChatRoom: the presence map ([src/modules/xmpp/ChatRoom.js]) *)

Module Room.

#[local] Set Warnings "-register-all".

(** A node of the presence, as [packet2JSON] builds it and as the callers
    of [addOrReplaceInPresence] pass it: an absent property is [None]. *)
Inductive Node :=
  mkNode (tagName : option string) (value : option string)
    (attributes : option (gmap string string)) (children : option (list Node)).

Definition tagName (n : Node) : option string := let 'mkNode t _ _ _ := n in t.
Definition value (n : Node) : option string := let 'mkNode _ v _ _ := n in v.
Definition attributes (n : Node) : option (gmap string string) := let 'mkNode _ _ a _ := n in a.
Definition children (n : Node) : option (list Node) := let 'mkNode _ _ _ c := n in c.

(** [values.tagName = key] *)
Definition set_tagName (key : string) (n : Node) : Node :=
  mkNode (Some key) (value n) (attributes n) (children n).

(** [isEqual] of lodash on two nodes: deep equality, the order of the
    properties of an object being irrelevant. *)
Fixpoint isEqual (a b : Node) : bool :=
  let 'mkNode t1 v1 a1 c1 := a in
  let 'mkNode t2 v2 a2 c2 := b in
  bool_decide (t1 = t2) && bool_decide (v1 = v2) && bool_decide (a1 = a2)
  && match c1, c2 with
     | None, None => true
     | Some l1, Some l2 =>
         (fix all2 (l1 l2 : list Node) : bool :=
            match l1, l2 with
            | [], [] => true
            | x :: l1, y :: l2 => isEqual x y && all2 l1 l2
            | _, _ => false
            end) l1 l2
     | _, _ => false
     end.

(** [key === node.tagName] *)
Definition has_tag (key : string) (n : Node) : bool := bool_decide (tagName n = Some key).

(** [filterNodeFromPresenceJSON(pres, nodeName)]: the loop over [pres],
    pushing the matching nodes onto [res]. *)
Fixpoint push_matching (pres : list Node) (nodeName : string) (res : list Node) : list Node :=
  match pres with
  | [] => res
  | node :: rest => push_matching rest nodeName (if has_tag nodeName node then (res ++ [node])%list else res)
  end.

Definition filterNodeFromPresenceJSON (pres : list Node) (nodeName : string) : list Node :=
  push_matching pres nodeName [].

(** The part of a room the presence functions work on: [presMap.nodes],
    [presenceUpdateTime], the handlers of [presHandlers] by node name (a
    handler is a function, known by its identity) and [lastPresences]. *)
Record ChatRoom := {
  myroomjid : string;
  roomjid : string;
  presMap_to : option string;
  presMap_xns : option string;
  presMap_nodes : list Node;
  presenceUpdateTime : Z;
  presHandlers : gmap string (list nat);
  lastPresences : gmap string (list Node)
}.

Definition set_nodes (nodes : list Node) (now : Z) (r : ChatRoom) : ChatRoom :=
  {| myroomjid := myroomjid r; roomjid := roomjid r; presMap_to := presMap_to r;
     presMap_xns := presMap_xns r; presMap_nodes := nodes; presenceUpdateTime := now;
     presHandlers := presHandlers r; lastPresences := lastPresences r |}.

Definition set_presHandlers (h : gmap string (list nat)) (r : ChatRoom) : ChatRoom :=
  {| myroomjid := myroomjid r; roomjid := roomjid r; presMap_to := presMap_to r;
     presMap_xns := presMap_xns r; presMap_nodes := presMap_nodes r;
     presenceUpdateTime := presenceUpdateTime r;
     presHandlers := h; lastPresences := lastPresences r |}.

(** [initPresenceMap(options)]; [now] is what [Date.now()] returns. *)
Definition initPresenceMap (statsId : option string) (now : Z) (r : ChatRoom) : ChatRoom :=
  {| myroomjid := myroomjid r; roomjid := roomjid r; presMap_to := Some (myroomjid r);
     presMap_xns := Some "http://jabber.org/protocol/muc";
     presMap_nodes :=
       match statsId with
       | None | Some "" => []
       | Some id => [mkNode (Some "stats-id") (Some id) None None]
       end;
     presenceUpdateTime := now;
     presHandlers := presHandlers r; lastPresences := lastPresences r |}.

Definition removeFromPresence (key : string) (now : Z) (r : ChatRoom) : ChatRoom :=
  set_nodes (List.filter (fun node => negb (has_tag key node)) (presMap_nodes r)) now r.

(** The [values] object handed to [addOrReplaceInPresence]: an object that
    is none of the nodes of the presence map, as an object literal is, or
    the very node the map holds at a position, as [getFromPresence] returns
    it. *)
Inductive Values :=
| NewObject (values : Node)
| NodeAt (index : nat).

(** [values.tagName = key]: the object as it is after the assignment, and
    the nodes of the map, among which the object may be. An index beyond
    the map names no node. *)
Definition tag_values (key : string) (values : Values) (nodes : list Node)
  : option (Node * list Node) :=
  match values with
  | NewObject n => Some (set_tagName key n, nodes)
  | NodeAt index =>
      match nth_error nodes index with
      | Some n =>
          Some (set_tagName key n,
                (firstn index nodes ++ set_tagName key n :: skipn (S index) nodes)%list)
      | None => None
      end
  end.

(** The result is the boolean the method returns and the room it leaves;
    [now] is what [Date.now()] returns. A call whose [values] names no node
    is none the code can receive: the room is returned as it is. *)
Definition addOrReplaceInPresence (key : string) (values : Values) (now : Z) (r : ChatRoom)
  : bool * ChatRoom :=
  match tag_values key values (presMap_nodes r) with
  | None => (false, r)
  | Some (values, nodes) =>
      let r := set_nodes nodes (presenceUpdateTime r) r in
      let matchingNodes := List.filter (has_tag key) (presMap_nodes r) in
      match matchingNodes with
      | [only] =>
          if isEqual only values then (false, r)
          else
            let r := removeFromPresence key now r in
            (true, set_nodes (presMap_nodes r ++ [values])%list now r)
      | _ =>
          let r := removeFromPresence key now r in
          (true, set_nodes (presMap_nodes r ++ [values])%list now r)
      end
  end.

Definition addToPresence (key : string) (values : Values) (now : Z) (r : ChatRoom)
  : bool * ChatRoom :=
  addOrReplaceInPresence key values now r.

Definition getFromPresence (key : string) (r : ChatRoom) : option Node :=
  find (has_tag key) (presMap_nodes r).

(** What the handler functions write to the log, and what they throw: the
    error for a handler that is not a function, and the [TypeError] of
    calling [indexOf] on a member inherited from [Object.prototype]. *)
Inductive Warning :=
| SameHandlerTwice (name : string)
| HandlerNotRegistered (name : string).

Inductive Thrown :=
| HandlerIsNotAFunction
| IndexOfIsNotAFunction.

(** [addPresenceListener(name, handler)]; the handler is [None] when the
    argument is not a function. *)
Definition addPresenceListener (name : string) (handler : option nat) (r : ChatRoom)
  : Thrown + list Warning * ChatRoom :=
  match handler with
  | None => inl HandlerIsNotAFunction
  | Some f =>
      match JS.get (presHandlers r) name with
      | JS.Inherited => inl IndexOfIsNotAFunction
      | found =>
          let tagHandlers := match found with JS.Own l => l | _ => [] end in
          if existsb (Nat.eqb f) tagHandlers
          then inr ([SameHandlerTwice name],
                    set_presHandlers (<[name := tagHandlers]> (presHandlers r)) r)
          else inr ([],
                    set_presHandlers (<[name := (tagHandlers ++ [f])%list]> (presHandlers r)) r)
      end
  end.

(** [tagHandlers.splice(tagHandlers.indexOf(handler), 1)] *)
Fixpoint remove_first (f : nat) (l : list nat) : option (list nat) :=
  match l with
  | [] => None
  | x :: rest => if Nat.eqb x f then Some rest else option_map (cons x) (remove_first f rest)
  end.

Definition removePresenceListener (name : string) (handler : nat) (r : ChatRoom)
  : Thrown + list Warning * ChatRoom :=
  match JS.get (presHandlers r) name with
  | JS.Own tagHandlers =>
      match remove_first handler tagHandlers with
      | Some rest => inr ([], set_presHandlers (<[name := rest]> (presHandlers r)) r)
      | None => inr ([HandlerNotRegistered name], r)
      end
  | JS.Inherited => inl IndexOfIsNotAFunction
  | JS.Undefined => inr ([HandlerNotRegistered name], r)
  end.

(** The media type asked for: audio, video, or something else. *)
Inductive PresenceVideoType :=
| Default_CAMERA
| FromPresence (v : option string).

Record PeerMediaInfo := {
  muted : bool;
  videoType : option PresenceVideoType;
  codecType : option string
}.

(** [getMediaPresenceInfo(endpointId, mediaType)]; the media type is [None]
    when it is neither audio nor video. The result is [None] for [null];
    the boolean tells whether the error was logged. *)
Definition getMediaPresenceInfo (endpointId : string) (mediaType : option MediaType)
    (r : ChatRoom) : option PeerMediaInfo * bool :=
  match lastPresences r !! (roomjid r ++ "/" ++ endpointId) with
  | None => (None, false)
  | Some pres =>
      match mediaType with
      | Some AUDIO =>
          let mutedNode := filterNodeFromPresenceJSON pres "audiomuted" in
          (Some {| muted := match mutedNode with
                            | first :: _ => bool_decide (value first = Some "true")
                            | [] => true
                            end;
                   videoType := None; codecType := None |}, false)
      | Some VIDEO =>
          let mutedNode := filterNodeFromPresenceJSON pres "videomuted" in
          let codecTypeNode := filterNodeFromPresenceJSON pres "jitsi_participant_codecType" in
          let videoTypeNode := filterNodeFromPresenceJSON pres "videoType" in
          (Some {| muted := match mutedNode with
                            | first :: _ => bool_decide (value first = Some "true")
                            | [] => true
                            end;
                   videoType := match videoTypeNode with
                                | first :: _ => Some (FromPresence (value first))
                                | [] => Some Default_CAMERA
                                end;
                   codecType := match codecTypeNode with
                                | first :: _ => value first
                                | [] => None
                                end |}, false)
      | None => (None, true)
      end
  end.

End Room.

(** * BrowserCapabilities ([src/modules/browser/BrowserCapabilities.ts])

    What the class inherits from [BrowserDetection], a module outside the
    sources at hand: the detected engine, names and versions, and the
    version comparisons. A method returns the truthiness of what the source
    returns. *)
Class BrowserDetection := {
  isChromiumBased : bool;
  isWebKitBased : bool;
  isFirefox : bool;
  isSafari : bool;
  isReactNative : bool;
  getOS : option string;
  getOSVersion : option string;
  getVersion : option string;
  isVersionGreaterThan : Z -> bool;
  isVersionLessThan : Z -> bool;
  isEngineVersionGreaterThan : Z -> bool;
  isEngineVersionLessThan : Z -> bool
}.

(** What [isSupported] looks up in the global object: whether
    [RTCPeerConnection] is defined and the truthiness of
    [navigator?.mediaDevices?.enumerateDevices] and of
    [navigator?.mediaDevices?.getUserMedia]. *)
Record WebRTCGlobals := {
  RTCPeerConnection_defined : bool;
  mediaDevices_enumerateDevices : bool;
  mediaDevices_getUserMedia : bool
}.

Module BrowserCapabilities.

Definition MIN_REQUIRED_CHROME_VERSION : Z := 72.
Definition MIN_REQUIRED_FIREFOX_VERSION : Z := 91.
Definition MIN_REQUIRED_SAFARI_VERSION : Z := 14.
Definition MIN_REQUIRED_IOS_VERSION : Z := 14.
Definition FROZEN_MACOS_VERSION : string := "10.15.7".

Section WithDetection.

Context `{BrowserDetection} `{JS.Engine}.

Definition _getIOSVersion : JS.number :=
  if isWebKitBased then JS.parseInt getOSVersion else JS.Int (-1).

Definition _getSafariVersion : JS.number :=
  if isSafari then JS.parseInt getVersion else JS.Int (-1).

Definition doesVideoMuteByStreamRemove : bool :=
  isChromiumBased || isWebKitBased || isFirefox.

Definition isAndroidBrowser : bool :=
  negb isReactNative && bool_decide (getOS = Some "Android").

Definition isIosBrowser : bool :=
  negb isReactNative && bool_decide (getOS = Some "iOS").

Definition isMobileDevice : bool :=
  isAndroidBrowser || isIosBrowser || isReactNative.

Definition isSupported (g : WebRTCGlobals) : bool :=
  if negb (RTCPeerConnection_defined g) || negb (mediaDevices_enumerateDevices g)
     || negb (mediaDevices_getUserMedia g)
  then false
  else if isSafari && JS.lt _getSafariVersion (JS.Int MIN_REQUIRED_SAFARI_VERSION)
  then false
  else (isChromiumBased && isEngineVersionGreaterThan (MIN_REQUIRED_CHROME_VERSION - 1))
       || (isFirefox && isVersionGreaterThan (MIN_REQUIRED_FIREFOX_VERSION - 1))
       || isReactNative
       || isWebKitBased.

Definition isSupportedAndroidBrowser : bool := isChromiumBased || isFirefox.

Definition isSupportedIOSBrowser : bool :=
  if negb isSafari && isWebKitBased && bool_decide (getOSVersion = Some FROZEN_MACOS_VERSION)
  then true
  else JS.ge _getSafariVersion (JS.Int MIN_REQUIRED_IOS_VERSION)
       || JS.ge _getIOSVersion (JS.Int MIN_REQUIRED_IOS_VERSION).

Definition isUserInteractionRequiredForUnmute : bool := isFirefox && isVersionLessThan 68.

Definition supportsVideoMuteOnConnInterrupted : bool := isChromiumBased || isReactNative.

Definition supportsBandwidthStatistics : bool := negb isFirefox && negb isWebKitBased.

Definition supportsCodecSelectionAPI : bool :=
  isChromiumBased && isEngineVersionGreaterThan 125.

Definition supportsDDExtHeaders : bool := negb (isFirefox && isVersionLessThan 136).

Definition supportsRTTStatistics : bool := negb isFirefox.

Definition supportsScalabilityModeAPI : bool :=
  isChromiumBased && isEngineVersionGreaterThan 112.

Definition supportsTrackBasedStats : bool :=
  isChromiumBased && isEngineVersionLessThan 112.

Definition supportsVP9 : bool := negb (isWebKitBased || isFirefox).

Definition supportsSVC : bool := negb isFirefox.

Definition usesSdpMungingForSimulcast : bool :=
  isChromiumBased || isReactNative || isWebKitBased.

Definition usesRidsForSimulcast : bool := false.

Definition supportsVADDetection : bool := isChromiumBased.

Definition supportsRTX : bool := negb (isFirefox && isVersionLessThan 96).

End WithDetection.

End BrowserCapabilities.

(** * MucConnectionPlugin ([src/unnamed/part_001], [strophe.emuc])

    The plugin keeps the map [rooms] from room jids to [ChatRoom] instances,
    a plain object, and routes the stanzas of the connection to the room
    they come from. A name that [Object.prototype] has is in [rooms] from
    the start, and reading it yields the inherited member, which is truthy
    and has none of the methods of a room: calling one throws a
    [TypeError].
    [Strophe.getBareJidFromJid] belongs to strophe.js and is a parameter; it
    returns a string or [null]. *)
Class Strophe := {
  getBareJidFromJid : option string -> option string
}.

Module MucConnectionPlugin.

(** The key a JS object is indexed with: [null] is turned into the string
    ["null"]. *)
Definition property_key (v : option string) : string :=
  match v with
  | Some s => s
  | None => "null"
  end.

(** The first child [visitors] of the namespace [jitsi:visitors] and the
    first [promotion-response] element of an iq, with the attributes read
    of them; an absent attribute is [None]. *)
Record Visitors := {
  focusjid : option string
}.

Record PromotionResponse := {
  allow : option string;
  username : option string
}.

(** What the handlers read of a stanza: the attributes [from] and [type],
    whether it carries the MUC user status code 201, and the elements
    [onVisitors] looks for. *)
Record Stanza := {
  stanza_from : option string;
  stanza_type : option string;
  status_201 : bool;
  visitors : option Visitors;
  promotion_response : option PromotionResponse
}.

(** [String(value)] of an attribute: [undefined] gives the string
    ["undefined"]. *)
Definition String_of (value : option string) : string :=
  match value with
  | Some s => s
  | None => "undefined"
  end.

(** [this.xmpp.eventEmitter.emit(...)]. *)
Inductive XmppEmitted :=
| CONNECTION_REDIRECTED (vnode focusJid username : option string)
| VISITORS_REJECTION.

(** How a handler ends: it returns a boolean to Strophe, or a call on a
    value that has no such method throws. *)
Inductive Returned :=
| Returns (value : bool)
| ThrowsTypeError.

Section WithRooms.

(** [ChatRoom] instances and what their constructor takes besides the
    connection and the [xmpp] object of the plugin. *)
Variables (ChatRoom Options : Type).
Variable new_ChatRoom : string -> option string -> Options -> ChatRoom.

Context `{Strophe}.

Record Plugin := {
  rooms : gmap string ChatRoom
}.

(** [this.eventEmitter.emit(...)] of the plugin. *)
Inductive Emitted :=
| EMUC_ROOM_ADDED (room : ChatRoom)
| EMUC_ROOM_REMOVED (room : JS.Property ChatRoom).

(** The methods of a room the handlers call. *)
Inductive RoomCall :=
| createNonAnonymousRoom (room : ChatRoom)
| room_onPresence (room : ChatRoom) (pres : Stanza)
| room_onPresenceUnavailable (room : ChatRoom) (pres : Stanza) (from : option string)
| room_onPresenceError (room : ChatRoom) (pres : Stanza) (from : option string)
| room_onMessage (room : ChatRoom) (msg : Stanza) (from : option string)
| room_onMute (room : ChatRoom) (iq : Stanza)
| room_onMuteVideo (room : ChatRoom) (iq : Stanza)
| room_onMuteDesktop (room : ChatRoom) (iq : Stanza).

Definition constructor : Plugin := {| rooms := ∅ |}.

(** [roomJid in this.rooms] *)
Definition isRoomCreated (p : Plugin) (roomJid : option string) : bool :=
  JS.has (rooms p) (property_key roomJid).

(** [createRoom(jid, password, options)]: the message of the error thrown,
    or the room returned, the plugin and what was emitted. *)
Definition createRoom (p : Plugin) (jid : string) (password : option string)
    (options : Options) : string + (ChatRoom * Plugin * list Emitted) :=
  let roomJid := getBareJidFromJid (Some jid) in
  if isRoomCreated p roomJid then
    inl "You are already in the room!"
  else
    let room := new_ChatRoom jid password options in
    inr (room,
         {| rooms := <[property_key roomJid := room]> (rooms p) |},
         [EMUC_ROOM_ADDED room]).

Definition doLeave (p : Plugin) (jid : string) : Plugin * list Emitted :=
  ({| rooms := delete jid (rooms p) |}, [EMUC_ROOM_REMOVED (JS.get (rooms p) jid)]).

(** [this.rooms[Strophe.getBareJidFromJid(from)]] *)
Definition room_of (p : Plugin) (from : option string) : JS.Property ChatRoom :=
  JS.get (rooms p) (property_key (getBareJidFromJid from)).

Definition onPresence (p : Plugin) (pres : Stanza) : Returned * list RoomCall :=
  let from := stanza_from pres in
  match stanza_type pres with
  | Some (String _ _) => (Returns true, [])
  | _ =>
    match room_of p from with
    | JS.Undefined => (Returns true, [])
    | JS.Inherited => (ThrowsTypeError, [])
    | JS.Own room =>
      (Returns true,
       ((if status_201 pres then [createNonAnonymousRoom room] else [])
        ++ [room_onPresence room pres])%list)
    end
  end.

Definition onPresenceUnavailable (p : Plugin) (pres : Stanza) : Returned * list RoomCall :=
  let from := stanza_from pres in
  match room_of p from with
  | JS.Undefined => (Returns true, [])
  | JS.Inherited => (ThrowsTypeError, [])
  | JS.Own room => (Returns true, [room_onPresenceUnavailable room pres from])
  end.

Definition onPresenceError (p : Plugin) (pres : Stanza) : Returned * list RoomCall :=
  let from := stanza_from pres in
  match room_of p from with
  | JS.Undefined => (Returns true, [])
  | JS.Inherited => (ThrowsTypeError, [])
  | JS.Own room => (Returns true, [room_onPresenceError room pres from])
  end.

Definition onMessage (p : Plugin) (msg : Stanza) : Returned * list RoomCall :=
  let from := stanza_from msg in
  match room_of p from with
  | JS.Undefined => (Returns true, [])
  | JS.Inherited => (ThrowsTypeError, [])
  | JS.Own room => (Returns true, [room_onMessage room msg from])
  end.

Definition onMute (p : Plugin) (iq : Stanza) : Returned * list RoomCall :=
  let from := stanza_from iq in
  match room_of p from with
  | JS.Undefined => (Returns true, [])
  | JS.Inherited => (ThrowsTypeError, [])
  | JS.Own room => (Returns true, [room_onMute room iq])
  end.

Definition onMuteVideo (p : Plugin) (iq : Stanza) : Returned * list RoomCall :=
  let from := stanza_from iq in
  match room_of p from with
  | JS.Undefined => (Returns true, [])
  | JS.Inherited => (ThrowsTypeError, [])
  | JS.Own room => (Returns true, [room_onMuteVideo room iq])
  end.

Definition onMuteDesktop (p : Plugin) (iq : Stanza) : Returned * list RoomCall :=
  let from := stanza_from iq in
  match room_of p from with
  | JS.Undefined => (Returns true, [])
  | JS.Inherited => (ThrowsTypeError, [])
  | JS.Own room => (Returns true, [room_onMuteDesktop room iq])
  end.

(** [onVisitors] calls no method of the room: it only tests that there is
    one, which an inherited member passes. *)
Definition onVisitors (p : Plugin) (iq : Stanza) : Returned * list XmppEmitted :=
  let from := stanza_from iq in
  match room_of p from with
  | JS.Undefined => (Returns true, [])
  | _ =>
    match visitors iq, promotion_response iq with
    | Some visitors, Some response =>
        if String.eqb (JS.toLowerCase (String_of (allow response))) "true"
        then (Returns true,
              [CONNECTION_REDIRECTED None (focusjid visitors) (username response)])
        else (Returns true, [VISITORS_REJECTION])
    | _, _ => (Returns true, [])
    end
  end.

End WithRooms.

Arguments rooms {ChatRoom} _.
Arguments EMUC_ROOM_ADDED {ChatRoom} _.
Arguments EMUC_ROOM_REMOVED {ChatRoom} _.
Arguments createNonAnonymousRoom {ChatRoom} _.
Arguments room_onPresence {ChatRoom} _ _.
Arguments room_onPresenceUnavailable {ChatRoom} _ _ _.
Arguments room_onPresenceError {ChatRoom} _ _ _.
Arguments room_onMessage {ChatRoom} _ _ _.
Arguments room_onMute {ChatRoom} _ _.
Arguments room_onMuteVideo {ChatRoom} _ _.
Arguments room_onMuteDesktop {ChatRoom} _ _.
Arguments constructor {ChatRoom}.
Arguments isRoomCreated {ChatRoom} _ _.
Arguments createRoom {ChatRoom Options} new_ChatRoom {_} _ _ _ _.
Arguments doLeave {ChatRoom} _ _.
Arguments room_of {ChatRoom _} _ _.
Arguments onPresence {ChatRoom _} _ _.
Arguments onPresenceUnavailable {ChatRoom _} _ _.
Arguments onPresenceError {ChatRoom _} _ _.
Arguments onMessage {ChatRoom _} _ _.
Arguments onMute {ChatRoom _} _ _.
Arguments onMuteVideo {ChatRoom _} _ _.
Arguments onMuteDesktop {ChatRoom _} _ _.
Arguments onVisitors {ChatRoom _} _ _.

End MucConnectionPlugin.

(** ** A sample environment and sample conferences

    Used to run the model on concrete inputs. *)

(** [Strophe.getResourceFromJid]: what follows the first slash. *)
Fixpoint sample_getResourceFromJid (jid : string) : option string :=
  match jid with
  | EmptyString => None
  | String c rest => if Ascii.eqb c "/" then Some rest else sample_getResourceFromJid rest
  end.

(** A signaling layer that remembers, per source name, the mute status and
    video type it last put into the presence. *)
Definition sample_setTrackMuteStatus (sourceName : option string) (muted : bool)
    (s : gmap string (option bool * option VideoType))
  : bool * gmap string (option bool * option VideoType) :=
  let k := default "" sourceName in
  let old := default (None, None) (s !! k) in
  (negb (bool_decide (fst old = Some muted)), <[k := (Some muted, snd old)]> s).

Definition sample_setTrackVideoType (sourceName : option string) (v : option VideoType)
    (s : gmap string (option bool * option VideoType))
  : bool * gmap string (option bool * option VideoType) :=
  let k := default "" sourceName in
  let old := default (None, None) (s !! k) in
  (negb (optVideoType_eqb (snd old) v), <[k := (fst old, v)]> s).

Definition sample : Collaborators :=
  {| MAX_CONNECTION_RETRIES := 3;
     jitter := fun base => (base / 4)%Z;
     initialize_error := fun _ => None;
     acceptOffer_error := fun _ => None;
     setDesktopSharingFrameRate_error := fun _ => None;
     startRemoteStats_error := fun _ => None;
     getResourceFromJid := sample_getResourceFromJid;
     FEATURE_JIGASI := "http://jitsi.org/protocol/jigasi";
     getSourceNameForJitsiTrack := fun id m idx =>
       default "" id ++ "-" ++ (match m with AUDIO => "a" | VIDEO => "v" end)
       ++ (match idx with 0 => "0" | 1 => "1" | _ => "2" end);
     browser_isFirefox := false;
     ToNumber_negative := fun _ => false;
     SignalingLayer := gmap string (option bool * option VideoType);
     setTrackMuteStatus := sample_setTrackMuteStatus;
     setTrackVideoType := sample_setTrackVideoType |}.

Definition sample_config : Config :=
  {| cfg_p2p := Some true; cfg_p2pTestMode := false; cfg_forceInitiator := false;
     cfg_forceResponder := false; cfg_allowMultipleTracks := false |}.

Definition sample_room (me : string) : ChatRoom :=
  {| myroomjid := Some ("room@conference.example.com/" ++ me); joined := true;
     members := {[ "room@conference.example.com/focus" := true ]};
     connection_connected := true;
     presMap_to := Some ("room@conference.example.com/" ++ me) |}.

Definition sample_participant (id : string) (tracks : list JitsiRemoteTrack)
  : string * JitsiParticipant :=
  (id, {| getId := id; getJid := "room@conference.example.com/" ++ id;
          getBotType := None; _features := ∅; participant_isHidden := false;
          _tracks := tracks |}).

(** A joined conference of the local endpoint [me] with the given roster and
    no media session yet. *)
Definition sample_conference (me : string) (roster : list (string * JitsiParticipant))
  : JitsiConference :=
  {| config := sample_config; room := Some (sample_room me); participants := roster;
     rtc_localTracks := []; jvbJingleSession := None; p2pJingleSession := None;
     p2p := false; deferredStartP2PTask := None; backToP2PDelay := init_backToP2PDelay None;
     isP2PConnectionInterrupted := false; isJvbConnectionInterrupted := false;
     _iceRestarts := 0; _delayedIceFailed := None; _sessionInitiateTimeout := None;
     _hasVisitors := None; _transcribingEnabled := None; _firefoxP2pEnabled := true;
     e2eeEnabled := false; lastN := (-1)%Z; dtmfManager := None;
     p2pEstablishmentDuration := None; jvbEstablishmentDuration := None;
     avgRtpStatsReporter := Some tt; e2eping := None;
     wasStopped := false; _desktopSharingFrameRate := None |}.

Definition sample_world (c : JitsiConference) : @World sample :=
  @Build_World sample c [] 1%positive 100 ∅ (∅ : gmap string (option bool * option VideoType)).

(** Two endpoints facing each other. *)
Definition world_aaa : @World sample :=
  sample_world (sample_conference "aaa1111" [sample_participant "bbb2222" []]).

Definition world_bbb : @World sample :=
  sample_world (sample_conference "bbb2222" [sample_participant "aaa1111" []]).

(** A bridge session and a P2P session with one remote track each, both
    tracks owned by the peer. *)
Definition bridge_track : JitsiRemoteTrack :=
  {| rtid := 11; ownerEndpointId := "bbb2222"; track_isP2P := false; remote_getType := VIDEO |}.

Definition p2p_track : JitsiRemoteTrack :=
  {| rtid := 12; ownerEndpointId := "bbb2222"; track_isP2P := true; remote_getType := VIDEO |}.

Definition camera : JitsiLocalTrack :=
  {| tid := 21; getType := VIDEO; getVideoType := Some CAMERA; isMuted := false;
     getSourceName := Some "aaa1111-v0"; disposed := false; belongsToConference := true |}.

Definition bridge_session : JingleSessionPC :=
  {| sid := 1; isP2P := false; isInitiator := false;
     remoteJid := "room@conference.example.com/focus";
     pc_getRemoteTracks := [bridge_track]; pc_getLocalTracks := [camera];
     establishmentDuration := Some 120%Z |}.

Definition p2p_session : JingleSessionPC :=
  {| sid := 2; isP2P := true; isInitiator := true;
     remoteJid := "room@conference.example.com/bbb2222";
     pc_getRemoteTracks := [p2p_track]; pc_getLocalTracks := [camera];
     establishmentDuration := Some 80%Z |}.

(** The local endpoint in an established P2P session next to the bridge
    session. *)
Definition conference_in_p2p : JitsiConference :=
  set_p2p true
    (set_p2pJingleSession (Some p2p_session)
       (set_jvbJingleSession (Some bridge_session)
          (set_rtc_localTracks [camera]
             (sample_conference "aaa1111" [sample_participant "bbb2222" [p2p_track]])))).

Definition world_in_p2p : @World sample := sample_world conference_in_p2p.

(** The same conference right after a third participant joined. *)
Definition world_third_joined : @World sample :=
  sample_world
    (set_participants [sample_participant "bbb2222" [p2p_track]; sample_participant "ccc3333" []]
       conference_in_p2p).

(** The local endpoint on the bridge, its P2P session negotiated but ICE not
    yet established. *)
Definition world_p2p_pending : @World sample :=
  sample_world
    (set_p2p false
       (set_participants [sample_participant "bbb2222" [bridge_track]] conference_in_p2p)).

(** The local endpoint on the bridge only. *)
Definition world_on_bridge : @World sample :=
  sample_world
    (set_jvbJingleSession (Some bridge_session)
       (set_rtc_localTracks [camera]
          (sample_conference "aaa1111" [sample_participant "bbb2222" [bridge_track]]))).

(** Three participants and a deferred start of P2P still pending. *)
Definition world_deferred_third : @World sample :=
  @Build_World sample
    (set_deferredStartP2PTask (Some 1%positive)
       (sample_conference "aaa1111"
          [sample_participant "bbb2222" []; sample_participant "ccc3333" []]))
    [(1%positive, CbStartP2PSession "room@conference.example.com/bbb2222")]
    2%positive 100 ∅ (∅ : gmap string (option bool * option VideoType)).

(** A P2P offer of an endpoint that does not use unified plan. *)
Definition incoming_p2p_session : JingleSessionPC :=
  {| sid := 3; isP2P := true; isInitiator := false;
     remoteJid := "room@conference.example.com/bbb2222";
     pc_getRemoteTracks := []; pc_getLocalTracks := []; establishmentDuration := None |}.

Definition plan_b_offer : JingleOffer := {| offer_contentName := Some "audio" |}.

(** Two participants, no session: the deferred start of P2P and the
    session-initiate timeout are both pending. *)
Definition world_two_timers : @World sample :=
  @Build_World sample
    (set_sessionInitiateTimeout (Some 2%positive)
       (set_deferredStartP2PTask (Some 1%positive)
          (sample_conference "aaa1111" [sample_participant "bbb2222" []])))
    [(1%positive, CbStartP2PSession "room@conference.example.com/bbb2222");
     (2%positive, CbSessionInitiateTimeout)]
    3%positive 100 ∅ (∅ : gmap string (option bool * option VideoType)).

(** A P2P offer of an endpoint that uses unified plan. *)
Definition unified_plan_offer : JingleOffer := {| offer_contentName := Some "0" |}.

(** The group semantics of [StandardVideoQualitySettings]. *)
Definition sample_semantics : StandardVideoQualitySettings :=
  {| SSRC_GROUP_SEMANTICS_FID := "FID"; SSRC_GROUP_SEMANTICS_SIM := "SIM" |}.

(** A video media line with a camera SSRC and its RTX SSRC. *)
Definition sample_video_mline : SdpTransformUtil.IMLine :=
  {| SdpTransformUtil.direction := Some "sendrecv";
     SdpTransformUtil.ssrcGroups :=
       Some [{| SdpTransformUtil.semantics := "FID"; SdpTransformUtil.ssrcs := "4004 4005" |}];
     SdpTransformUtil.mline_ssrcs :=
       Some [{| SdpTransformUtil.attribute := "cname"; SdpTransformUtil.id := JS.Int 4004;
                SdpTransformUtil.value := "peDGrDD6WsxUOki/" |};
             {| SdpTransformUtil.attribute := "msid"; SdpTransformUtil.id := JS.Int 4004;
                SdpTransformUtil.value := "7C0035E5-2DA1-4AEA-804A-9E75BF9B3768" |};
             {| SdpTransformUtil.attribute := "cname"; SdpTransformUtil.id := JS.Int 4005;
                SdpTransformUtil.value := "peDGrDD6WsxUOki/" |};
             {| SdpTransformUtil.attribute := "msid"; SdpTransformUtil.id := JS.Int 4005;
                SdpTransformUtil.value := "7C0035E5-2DA1-4AEA-804A-9E75BF9B3768" |}];
     SdpTransformUtil.type := Some "video" |}.

(** The same line with a FID group whose RTX SSRC the line does not list. *)
Definition sample_video_mline_stale_group : SdpTransformUtil.IMLine :=
  {| SdpTransformUtil.direction := Some "sendrecv";
     SdpTransformUtil.ssrcGroups :=
       Some [{| SdpTransformUtil.semantics := "FID"; SdpTransformUtil.ssrcs := "4004 4009" |}];
     SdpTransformUtil.mline_ssrcs := SdpTransformUtil.mline_ssrcs sample_video_mline;
     SdpTransformUtil.type := Some "video" |}.

(** [Strophe.getBareJidFromJid]: what precedes the first slash, [null] for
    an empty jid or none. *)
Definition sample_strophe : Strophe :=
  {| getBareJidFromJid := fun jid =>
       match jid with
       | Some (String c rest) => head (JS.split "/" (String c rest))
       | _ => None
       end |}.

(** Rooms that only remember the jid they were created with. *)
Definition sample_new_ChatRoom (jid : string) (password : option string) (options : unit)
  : string := jid.

(** A screen share of the local endpoint. *)
Definition desktop : JitsiLocalTrack :=
  {| tid := 22; getType := VIDEO; getVideoType := Some DESKTOP; isMuted := false;
     getSourceName := Some "aaa1111-v1"; disposed := false; belongsToConference := true |}.

(** The local endpoint on the bridge, sharing its screen next to the
    camera. *)
Definition world_sharing_screen : @World sample :=
  sample_world (set_rtc_localTracks [camera; desktop] (conf world_on_bridge)).

(** The same conference with [testing.allowMultipleTracks] set. *)
Definition world_sharing_screen_multiple_tracks : @World sample :=
  let c := conf world_sharing_screen in
  sample_world
    {| config := {| cfg_p2p := Some true; cfg_p2pTestMode := false;
                    cfg_forceInitiator := false; cfg_forceResponder := false;
                    cfg_allowMultipleTracks := true |};
       room := room c; participants := participants c;
       rtc_localTracks := rtc_localTracks c; jvbJingleSession := jvbJingleSession c;
       p2pJingleSession := p2pJingleSession c; p2p := p2p c;
       deferredStartP2PTask := deferredStartP2PTask c; backToP2PDelay := backToP2PDelay c;
       isP2PConnectionInterrupted := isP2PConnectionInterrupted c;
       isJvbConnectionInterrupted := isJvbConnectionInterrupted c;
       _iceRestarts := _iceRestarts c; _delayedIceFailed := _delayedIceFailed c;
       _sessionInitiateTimeout := _sessionInitiateTimeout c;
       _hasVisitors := _hasVisitors c; _transcribingEnabled := _transcribingEnabled c;
       _firefoxP2pEnabled := _firefoxP2pEnabled c; e2eeEnabled := e2eeEnabled c;
       lastN := lastN c; dtmfManager := dtmfManager c;
       p2pEstablishmentDuration := p2pEstablishmentDuration c;
       jvbEstablishmentDuration := jvbEstablishmentDuration c;
       avgRtpStatsReporter := avgRtpStatsReporter c; e2eping := e2eping c;
       wasStopped := wasStopped c;
       _desktopSharingFrameRate := _desktopSharingFrameRate c |}.

(** Two endpoints facing each other, end-to-end encryption enabled. *)
Definition world_e2ee : @World sample :=
  let c := conf world_aaa in
  sample_world
    {| config := config c; room := room c; participants := participants c;
       rtc_localTracks := rtc_localTracks c; jvbJingleSession := jvbJingleSession c;
       p2pJingleSession := p2pJingleSession c; p2p := p2p c;
       deferredStartP2PTask := deferredStartP2PTask c; backToP2PDelay := backToP2PDelay c;
       isP2PConnectionInterrupted := isP2PConnectionInterrupted c;
       isJvbConnectionInterrupted := isJvbConnectionInterrupted c;
       _iceRestarts := _iceRestarts c; _delayedIceFailed := _delayedIceFailed c;
       _sessionInitiateTimeout := _sessionInitiateTimeout c;
       _hasVisitors := _hasVisitors c; _transcribingEnabled := _transcribingEnabled c;
       _firefoxP2pEnabled := _firefoxP2pEnabled c; e2eeEnabled := true;
       lastN := lastN c; dtmfManager := dtmfManager c;
       p2pEstablishmentDuration := p2pEstablishmentDuration c;
       jvbEstablishmentDuration := jvbEstablishmentDuration c;
       avgRtpStatsReporter := avgRtpStatsReporter c; e2eping := e2eping c;
       wasStopped := wasStopped c;
       _desktopSharingFrameRate := _desktopSharingFrameRate c |}.

(** The local endpoint on the bridge after an ICE failure of the bridge
    session: the ICE restart is scheduled. *)
Definition world_restart_scheduled : @World sample :=
  world_of (@_onIceConnectionFailed sample bridge_session world_on_bridge).

(** An engine for the samples. Beyond the safe integers a number is a double:
    [parseInt] rounds the integer it has read to the nearest double, ties to
    even, and [String] prints a double with the fewest digits that read back
    as that double, in exponent form from 1e21 on. *)
Definition sample_round_to_double (z : Z) : JS.number :=
  let a := Z.abs z in
  let e := (Z.log2 a - 52)%Z in
  if (e <=? 0)%Z then JS.Int z
  else
    let q := Z.shiftr a e in
    let r := Z.land a (Z.ones e) in
    let half := Z.shiftl 1 (e - 1) in
    let q' := if ((half <? r) || ((r =? half) && Z.odd q))%Z then (q + 1)%Z else q in
    let m := Z.shiftl q' e in
    if (2 ^ 1024 <=? m)%Z then JS.Infinity (z <? 0)%Z else JS.Int (Z.sgn z * m).

(** The decimal of [digits] significant digits nearest to [a]. *)
Definition sample_rounded_decimal (a : Z) (digits : nat) : Z :=
  let n := String.length (pretty a) in
  let p := (10 ^ Z.of_nat (n - digits))%Z in
  ((a + p / 2) / p * p)%Z.

Definition sample_shortest_decimal (a : Z) : Z :=
  match find (fun digits =>
                match sample_round_to_double (sample_rounded_decimal a digits) with
                | JS.Int m => (m =? a)%Z
                | _ => false
                end) (seq 1 17) with
  | Some digits => sample_rounded_decimal a digits
  | None => a
  end.

Fixpoint sample_strip_zeros (reversed : list ascii) : list ascii :=
  match reversed with
  | "0"%char :: rest => sample_strip_zeros rest
  | _ => reversed
  end.

Definition sample_toString_unsafe (z : Z) : string :=
  let s := pretty (sample_shortest_decimal (Z.abs z)) in
  let sign := if (z <? 0)%Z then "-" else "" in
  if (String.length s <=? 21)%nat then sign ++ s
  else
    match rev (sample_strip_zeros (rev (list_ascii_of_string s))) with
    | [] => sign ++ s
    | [d] => sign ++ String d ("e+" ++ pretty (String.length s - 1)%nat)
    | d :: fraction =>
        sign ++ String d ("." ++ string_of_list_ascii fraction
                          ++ "e+" ++ pretty (String.length s - 1)%nat)
    end.

Definition sample_engine : JS.Engine :=
  {| JS.parseInt_unsafe := sample_round_to_double;
     JS.toString_unsafe := sample_toString_unsafe |}.

(** A room whose presence map holds the statistics id only. *)
Definition sample_presence_room : Room.ChatRoom :=
  Room.initPresenceMap (Some "stats-1") 0
    {| Room.myroomjid := "room@conference.example.com/aaa1111";
       Room.roomjid := "room@conference.example.com";
       Room.presMap_to := None; Room.presMap_xns := None; Room.presMap_nodes := [];
       Room.presenceUpdateTime := 0; Room.presHandlers := ∅; Room.lastPresences := ∅ |}.

(** * Vocabulary of the helpers' properties *)

(** The code unit [c] does not occur in [s]. *)
Fixpoint no_char (c : ascii) (s : string) : bool :=
  match s with
  | String a rest => negb (Ascii.eqb a c) && no_char c rest
  | EmptyString => true
  end.

(** An array property that may be undefined, read as empty then. *)
Definition or_empty {A} (o : option (list A)) : list A :=
  match o with
  | Some l => l
  | None => []
  end.

Section SdpVocabulary.

Context `{StandardVideoQualitySettings} `{JS.Engine}.

(** The groups [getPrimaryVideoSSRCs] reads: those of FID or FEC-FR
    semantics, and their secondary SSRCs. *)
Definition pairs_a_secondary (g : SdpTransformUtil.ISsrcGroups) : bool :=
  String.eqb (SdpTransformUtil.semantics g) SSRC_GROUP_SEMANTICS_FID
  || String.eqb (SdpTransformUtil.semantics g) "FEC-FR".

Definition secondary_ssrcs (groups : list SdpTransformUtil.ISsrcGroups) : list JS.number :=
  map SdpTransformUtil.parseSecondarySSRC (List.filter pairs_a_secondary groups).

(** The group [getPrimaryVideoSsrc] takes the primary SSRC from when the
    media line has not exactly one SSRC: the first SIM group, else the first
    FID group, else the first FEC-FR group. *)
Definition primary_group (m : SdpTransformUtil.IMLine) : option SdpTransformUtil.ISsrcGroups :=
  match fst (SdpTransformUtil.findGroup SSRC_GROUP_SEMANTICS_SIM None m) with
  | Some g => Some g
  | None =>
      match fst (SdpTransformUtil.findGroup SSRC_GROUP_SEMANTICS_FID None m) with
      | Some g => Some g
      | None => fst (SdpTransformUtil.findGroup "FEC-FR" None m)
      end
  end.

End SdpVocabulary.

(** The handlers registered for a node name. *)
Definition handlers_of (name : string) (r : Room.ChatRoom) : list nat :=
  default [] (Room.presHandlers r !! name).

(** The presence map holds at most one node per tag name. *)
Definition one_node_per_tag (r : Room.ChatRoom) : Prop :=
  List.NoDup (map Room.tagName (Room.presMap_nodes r)).

(** The name of the presence node that carries the mute state of a media
    type. *)
Definition muted_node_name (m : MediaType) : string :=
  match m with
  | AUDIO => "audiomuted"
  | VIDEO => "videomuted"
  end.

(** * Properties *)

Section Properties.

Context `{Collaborators}.

Local Open Scope list_scope.

(** ** Vocabulary of the statements *)

(** A new P2P session could start: automatic P2P is not disabled, there is
    no P2P session, the conference should be in P2P mode and neither test
    flag forces a side. *)
Definition could_start_P2P (c : JitsiConference) : Prop :=
  autoP2PDisabled c = false
  /\ p2pJingleSession c = None
  /\ _shouldBeInP2PMode c = true
  /\ cfg_forceInitiator (config c) = false
  /\ cfg_forceResponder (config c) = false.

(** The invitation of a session is sent. *)
Definition sends_invite (e : Effect) : bool :=
  match e with
  | SessionInvite _ _ => true
  | _ => false
  end.

(** The endpoint invites the peer with the jid [jid]: among the calls, a P2P
    session towards that jid is created and the invitation of that session
    is sent with the local tracks [tracks]. *)
Definition invites (jid : string) (tracks : list nat) (es : list Effect) : Prop :=
  exists s me, In (NewP2PJingleSession s me jid) es /\ In (SessionInvite s tracks) es.

(** The roster after the search loop of [onRemoteTrackRemoved] for the track
    with identity [i], and the events the loop emits. *)
Definition detach (i : nat) (p : JitsiParticipant) : JitsiParticipant :=
  match splice_first i (_tracks p) with
  | Some ts => set_tracks ts p
  | None => p
  end.

Definition detach_all (i : nat) (ps : list (string * JitsiParticipant))
  : list (string * JitsiParticipant) :=
  map (fun kp => (fst kp, detach i (snd kp))) ps.

Definition detach_emits (i : nat) (ps : list (string * JitsiParticipant)) : list Effect :=
  flat_map (fun kp => if is_set (splice_first i (_tracks (snd kp)))
                      then [Emit (TRACK_REMOVED i)] else []) ps.

Fixpoint detach_tracks (ts : list JitsiRemoteTrack) (ps : list (string * JitsiParticipant))
  : list (string * JitsiParticipant) :=
  match ts with
  | [] => ps
  | t :: rest => detach_tracks rest (detach_all (rtid t) ps)
  end.

Fixpoint detach_tracks_calls (ts : list JitsiRemoteTrack)
    (ps : list (string * JitsiParticipant)) : list Effect :=
  match ts with
  | [] => []
  | t :: rest => detach_emits (rtid t) ps ++ detach_tracks_calls rest (detach_all (rtid t) ps)
  end.

(** Whether [_addRemoteTracks] hands the track to a participant: its owner is
    in the roster and the track belongs to the active kind of session. *)
Definition attachable (active : bool) (t : JitsiRemoteTrack)
    (ps : list (string * JitsiParticipant)) : bool :=
  is_set (participants_get (ownerEndpointId t) ps) && Bool.eqb (track_isP2P t) active.

Definition attach (active : bool) (t : JitsiRemoteTrack)
    (ps : list (string * JitsiParticipant)) : list (string * JitsiParticipant) :=
  if attachable active t ps then push_track (ownerEndpointId t) t ps else ps.

Fixpoint attach_tracks (active : bool) (ts : list JitsiRemoteTrack)
    (ps : list (string * JitsiParticipant)) : list (string * JitsiParticipant) :=
  match ts with
  | [] => ps
  | t :: rest => attach_tracks active rest (attach active t ps)
  end.

Fixpoint attach_tracks_calls (active : bool) (ts : list JitsiRemoteTrack)
    (ps : list (string * JitsiParticipant)) : list Effect :=
  match ts with
  | [] => []
  | t :: rest =>
      (if attachable active t ps
       then [RemoteTrackAddListeners (rtid t); Emit (TRACK_ADDED (rtid t))] else [])
      ++ attach_tracks_calls active rest (attach active t ps)
  end.

(** Some participant of the roster holds a track with identity [i]. *)
Definition holds (ps : list (string * JitsiParticipant)) (i : nat) : Prop :=
  exists kp, In kp ps /\ In i (map rtid (_tracks (snd kp))).

(** The participant stored under [id] holds the track [t]. *)
Definition holds_track (ps : list (string * JitsiParticipant)) (id : string)
    (t : JitsiRemoteTrack) : Prop :=
  exists p, participants_get id ps = Some p /\ In t (_tracks p).

(** No participant holds the same track object twice. *)
Definition tracks_distinct (ps : list (string * JitsiParticipant)) : Prop :=
  forall kp, In kp ps -> List.NoDup (map rtid (_tracks (snd kp))).

(** Calls that end a session: [terminate] or [close]. *)
Definition ends_session (s : nat) (e : Effect) : bool :=
  match e with
  | SessionTerminate s' _ _ _ => Nat.eqb s' s
  | SessionClose s' => Nat.eqb s' s
  | _ => false
  end.

(** Calls that restart ICE: scheduling the restart, or starting the handling
    of the failure. *)
Definition restarts_ice (e : Effect) : bool :=
  match e with
  | SetTimeout _ (CbIceRestart _ _) _ => true
  | IceFailedHandling_start _ => true
  | _ => false
  end.

(** Calls that hand a task to the event loop for later. *)
Definition schedules_timer (e : Effect) : bool :=
  match e with
  | SetTimeout _ _ _ => true
  | _ => false
  end.

(** The conference-fatal signal. *)
Definition emits_conference_failed (e : Effect) : bool :=
  match e with
  | Emit (CONFERENCE_FAILED _) => true
  | _ => false
  end.

(** The test by which [_onIncomingCallP2P] finds P2P disabled. *)
Definition p2p_disabled (c : JitsiConference) : bool :=
  (negb (isP2PEnabled c) && negb (isP2PTestModeEnabled c))
  || (browser_isFirefox && negb (_firefoxP2pEnabled c)).

(** The signaling layer after the loop of [_updateRoomPresence] went over
    the tracks [ts], starting from the state [sg]. *)
Fixpoint signaling_after (ts : list JitsiLocalTrack) (sg : SignalingLayer) : SignalingLayer :=
  match ts with
  | [] => sg
  | t :: rest =>
      let sg1 := snd (setTrackMuteStatus (getSourceName t) (isMuted t) sg) in
      signaling_after rest
        (if MediaType_eqb (getType t) VIDEO
         then snd (setTrackVideoType (getSourceName t) (getVideoType t) sg1)
         else sg1)
  end.

(** Advertising the track in the state [sg] of the signaling layer changes
    the presence: the signaling layer reports that the mute status it was
    given changed or, for a video track, that the video type it was given
    next changed. *)
Definition change_advertised (t : JitsiLocalTrack) (sg : SignalingLayer) : bool :=
  fst (setTrackMuteStatus (getSourceName t) (isMuted t) sg)
  || (MediaType_eqb (getType t) VIDEO
      && fst (setTrackVideoType (getSourceName t) (getVideoType t)
                (snd (setTrackMuteStatus (getSourceName t) (isMuted t) sg)))).

(** In a pass over the tracks [ts] that starts from the state [sg], the
    advertised mute status or video type of some track changes. *)
Fixpoint pass_changes (ts : list JitsiLocalTrack) (sg : SignalingLayer) : bool :=
  match ts with
  | [] => false
  | t :: rest => change_advertised t sg || pass_changes rest (signaling_after [t] sg)
  end.

(** A presence packet goes out. *)
Definition sends_presence (e : Effect) : bool :=
  match e with
  | SendPresenceStanza _ => true
  | _ => false
  end.

(** The local tracks left after [onLocalTrackRemoved] ran for each track of
    a list, and the calls made on the way. *)
Fixpoint detach_local (ts ls : list JitsiLocalTrack) : list JitsiLocalTrack :=
  match ts with
  | [] => ls
  | t :: rest => detach_local rest (removeLocalTrack (tid t) ls)
  end.

Definition detach_local_calls (ts : list JitsiLocalTrack) : list Effect :=
  flat_map (fun t => [LocalTrackDetach (tid t); Emit (LOCAL_TRACK_REMOVED (tid t))]) ts.

(** What it would mean for a call to defer the switch away from the P2P
    session [s]: the call does not end the session and schedules a task. *)
Definition switch_is_deferred {A} (o : Outcome A) (s : nat) : Prop :=
  existsb (ends_session s) (calls_of o) = false
  /\ existsb schedules_timer (calls_of o) = true.

(** Calls coming from the attach and detach loops. *)
Definition is_track_call (e : Effect) : bool :=
  match e with
  | Emit (TRACK_ADDED _) | Emit (TRACK_REMOVED _) | RemoteTrackAddListeners _ => true
  | _ => false
  end.

(** ** Tactics and lemmas on the monad *)

(** The offer of the session is accepted. *)
Definition accepts_offer (s : nat) (e : Effect) : bool :=
  match e with
  | SessionAcceptOffer s' _ => Nat.eqb s' s
  | _ => false
  end.

(** A media session is asked to replace a track. *)
Definition replaces_track (e : Effect) : bool :=
  match e with
  | SessionReplaceTrack _ _ _ => true
  | _ => false
  end.

(** The interruption flag of the kind of session: P2P or bridge. *)
Definition interrupted_flag (p2pKind : bool) (c : JitsiConference) : bool :=
  if p2pKind then isP2PConnectionInterrupted c else isJvbConnectionInterrupted c.

(** The tests of [replaceTrack]: the two tracks differ in video type; the
    old track belongs to this conference; a track that would be handed to
    the sessions is disposed. *)
Definition videoType_mismatch (oldTrack newTrack : option JitsiLocalTrack) : bool :=
  is_set oldTrack && is_set newTrack
  && negb (optVideoType_eqb (oldTrack ≫= getVideoType) (newTrack ≫= getVideoType)).

Definition of_this_conference (oldTrack : option JitsiLocalTrack) : bool :=
  match oldTrack with
  | Some o => belongsToConference o
  | None => false
  end.

Definition hands_over_disposed (oldTrack newTrack : option JitsiLocalTrack) : bool :=
  (of_this_conference oldTrack && match oldTrack with Some o => disposed o | None => false end)
  || match newTrack with Some n => disposed n | None => false end.




Ltac mstep :=
  unfold mbind, M_bind, mret, M_ret, this, update, call, when, throw; cbn.

Lemma bind_eq {A B} (m : M A) (f : A -> M B) (w : World) :
  (m ≫= f) w
  = match m w with
    | Ok a w' es => after_calls es (f a w')
    | Throw msg w' es => Throw msg w' es
    end.
Proof. reflexivity. Qed.

Ltac mred :=
  repeat (rewrite ?bind_eq;
          cbn [call mret M_ret this update throw when after_calls app
               calls_of world_of returned is_set]).

(** Projections of a world or a conference out of an assignment. *)
Ltac wred :=
  cbn [conf timers next_handle next_sid heap signaling set_conf set_timers set_next_sid
       set_heap set_signaling config room participants rtc_localTracks jvbJingleSession
       p2pJingleSession p2p deferredStartP2PTask backToP2PDelay
       isP2PConnectionInterrupted isJvbConnectionInterrupted _iceRestarts
       _delayedIceFailed _sessionInitiateTimeout _hasVisitors _transcribingEnabled
       _firefoxP2pEnabled e2eeEnabled lastN dtmfManager p2pEstablishmentDuration
       jvbEstablishmentDuration avgRtpStatsReporter e2eping wasStopped
       _desktopSharingFrameRate set_room set_participants
       set_jvbJingleSession set_p2pJingleSession set_p2p set_deferredStartP2PTask
       set_isP2PConnectionInterrupted set_isJvbConnectionInterrupted set_iceRestarts
       set_delayedIceFailed set_sessionInitiateTimeout set_transcribingEnabled
       set_dtmfManager set_p2pEstablishmentDuration set_jvbEstablishmentDuration
       set_avgRtpStatsReporter set_e2eping set_rtc_localTracks].

Ltac mdone := mred; rewrite ?app_nil_r, <- ?app_assoc; reflexivity.

Ltac in_calls :=
  solve [repeat (first [now left | apply in_or_app; right | right])].

Lemma after_calls_nil {A} (o : Outcome A) : after_calls [] o = o.
Proof. destruct o; reflexivity. Qed.

Lemma calls_after_calls {A} es (o : Outcome A) :
  calls_of (after_calls es o) = es ++ calls_of o.
Proof. destruct o; reflexivity. Qed.

Lemma world_after_calls {A} es (o : Outcome A) :
  world_of (after_calls es o) = world_of o.
Proof. destruct o; reflexivity. Qed.

Lemma returned_after_calls {A} es (o : Outcome A) :
  returned (after_calls es o) = returned o.
Proof. destruct o; reflexivity. Qed.

Lemma after_calls_app {A} es es' (o : Outcome A) :
  after_calls es (after_calls es' o) = after_calls (es ++ es') o.
Proof. destruct o; cbn; rewrite app_assoc; reflexivity. Qed.

Lemma set_conf_id (w : World) : set_conf (conf w) w = w.
Proof. destruct w; reflexivity. Qed.

(** ** Strings *)

Lemma ltb_irrefl (s : string) : String.ltb s s = false.
Proof.
  unfold String.ltb. destruct (String.compare s s) eqn:E; try reflexivity.
  pose proof (String.compare_antisym s s) as Ha. rewrite E in Ha. discriminate.
Qed.

Lemma ltb_asym (s t : string) : String.ltb s t = true -> String.ltb t s = false.
Proof.
  unfold String.ltb. rewrite (String.compare_antisym t s).
  destruct (String.compare s t); cbn; congruence.
Qed.

Lemma ltb_total (s t : string) : s <> t -> String.ltb s t = negb (String.ltb t s).
Proof.
  intros Hne. unfold String.ltb. rewrite (String.compare_antisym t s).
  destruct (String.compare s t) eqn:E; cbn; try reflexivity.
  apply String.compare_eq_iff in E. congruence.
Qed.

(** ** The P2P mode test *)

Lemma find_not_set {A} (f : A -> bool) (l : list A) :
  is_set (find f l) = false <-> (forall x, In x l -> f x = false).
Proof.
  induction l as [|a l IH]; cbn.
  - split; [intros _ x [] | reflexivity].
  - destruct (f a) eqn:Ea; cbn.
    + split; [discriminate | intros Hall; rewrite <- Ea; apply Hall; now left].
    + rewrite IH. split.
      * intros Hall x [<- | Hin]; [assumption | now apply Hall].
      * intros Hall x Hin. apply Hall. now right.
Qed.

(** C2. [_shouldBeInP2PMode] answers [true] exactly when the roster holds one
    other participant, no participant is a poltergeist bot or a jigasi
    (gateway) participant, the conference has no visitors and transcribing
    is not enabled; in every other state it answers [false]. *)
Theorem shouldBeInP2PMode_iff (c : JitsiConference) :
  _shouldBeInP2PMode c = true <->
    length (getParticipants c) = 1
    /\ (forall p, In p (getParticipants c) ->
          getBotType p <> Some "poltergeist" /\ FEATURE_JIGASI ∉ _features p)
    /\ truthy (_hasVisitors c) = false
    /\ truthy (_transcribingEnabled c) = false.
Proof.
  unfold _shouldBeInP2PMode.
  rewrite !andb_true_iff, !negb_true_iff, Nat.eqb_eq, find_not_set.
  split.
  - intros [[[[Hlen Hbot] Hv] _] Ht].
    split; [assumption | split; [| split; assumption]].
    intros p Hin. specialize (Hbot p Hin).
    apply orb_false_iff in Hbot as [Hb Hf]. split.
    + intros Hp. rewrite Hp in Hb. discriminate.
    + unfold hasFeature in Hf. now apply bool_decide_eq_false in Hf.
  - intros (Hlen & Hbot & Hv & Ht). repeat split; try assumption.
    intros p Hin. destruct (Hbot p Hin) as [Hb Hf].
    apply orb_false_iff. split.
    + destruct (getBotType p) as [b|]; [|reflexivity].
      destruct (String.eqb_spec b "poltergeist"); [congruence | reflexivity].
    + unfold hasFeature. now apply bool_decide_eq_false.
Qed.

(** ** Starting a P2P session *)

(** What [_startP2PSession] does when there is a room and no P2P session:
    it clears the deferred start if one is pending, creates the session and
    sends the invitation. *)
Lemma startP2PSession_invites (w : World) (jid : string) (r : ChatRoom) :
  p2pJingleSession (conf w) = None ->
  room (conf w) = Some r ->
  let o := _startP2PSession jid w in
  returned o = Some tt
  /\ calls_of o =
       match deferredStartP2PTask (conf w) with
       | Some h => [ClearTimeout h]
       | None => []
       end
       ++ [NewP2PJingleSession (next_sid w) (myroomjid r) jid;
           ConferenceJoinAnalytics;
           SessionInitialize (next_sid w) "p2p";
           SessionInvite (next_sid w) (map tid (rtc_localTracks (conf w)))]
  /\ option_map remoteJid (p2pJingleSession (conf (world_of o))) = Some jid
  /\ option_map isInitiator (p2pJingleSession (conf (world_of o))) = Some true
  /\ deferredStartP2PTask (conf (world_of o)) = None.
Proof.
  intros Hs Hr. unfold _startP2PSession, _maybeClearDeferredStartP2P.
  mstep. destruct (deferredStartP2PTask (conf w)) as [h|] eqn:Hd.
  - mstep. unfold clearTimeout. cbn. rewrite Hs. cbn. rewrite Hr. cbn.
    repeat split; reflexivity.
  - mstep. rewrite Hs. cbn. rewrite Hr. cbn. rewrite Hd.
    repeat split; reflexivity.
Qed.

(** ** Leader election *)

(** The decision of [_maybeStartOrStopP2P] when a P2P session could start
    and the roster holds the single peer [peer]. *)
Lemma election_decision (w : World) (userLeftEvent : bool) (me : string)
    (peer : JitsiParticipant) :
  could_start_P2P (conf w) ->
  myUserId (conf w) = Some me ->
  getParticipants (conf w) = [peer] ->
  _maybeStartOrStopP2P userLeftEvent w =
    if String.ltb (getId peer) me then Ok tt w []
    else if String.eqb me (getId peer) then Ok tt w [Log ERROR "The same IDs ? "]
    else if userLeftEvent then
      match deferredStartP2PTask (conf w) with
      | Some _ => Ok tt w [Log ERROR "Deferred start P2P task's been set already!"]
      | None =>
          Ok tt
            (set_conf (set_deferredStartP2PTask (Some (next_handle w)) (conf w))
               (set_timers (timers w ++ [(next_handle w, CbStartP2PSession (getJid peer))])
                  (Pos.succ (next_handle w)) w))
            [SetTimeout (next_handle w) (CbStartP2PSession (getJid peer))
               (backToP2PDelay (conf w) * 1000)]
      end
    else _startP2PSession (getJid peer) w.
Proof.
  intros (Hg & Hs & Hp & Hfi & Hfr) Hme Hpeers.
  unfold _maybeStartOrStopP2P. mstep.
  rewrite Hg, Hp. cbn. rewrite Hs, Hpeers, Hfi, Hfr, Hme. cbn.
  destruct (String.ltb (getId peer) me); [reflexivity|].
  destruct (String.eqb me (getId peer)); [reflexivity|].
  destruct userLeftEvent.
  - destruct (deferredStartP2PTask (conf w)); reflexivity.
  - rewrite !after_calls_nil. reflexivity.
Qed.

Lemma find_last {A} (f : A -> bool) (l : list A) (x : A) :
  is_set (find f l) = false -> f x = true -> find f (l ++ [x]) = Some x.
Proof.
  intros Hn Hx. induction l as [|a l IH]; cbn in *.
  - now rewrite Hx.
  - destruct (f a); [discriminate | now apply IH].
Qed.

Lemma startP2PSession_sends_invite (w : World) (jid : string) (r : ChatRoom) :
  p2pJingleSession (conf w) = None ->
  room (conf w) = Some r ->
  existsb sends_invite (calls_of (_startP2PSession jid w)) = true
  /\ invites jid (map tid (rtc_localTracks (conf w))) (calls_of (_startP2PSession jid w)).
Proof.
  intros Hs Hr. destruct (startP2PSession_invites w jid r Hs Hr) as (_ & Hcalls & _).
  rewrite Hcalls. split.
  - rewrite existsb_app. cbn. apply orb_true_r.
  - exists (next_sid w), (myroomjid r). split; in_calls.
Qed.

(** C1, as amended. When a P2P session could start (automatic P2P is not
    disabled, there is no P2P session, the conference should be in P2P mode
    and no test flag forces a side), a re-evaluation that does not come from
    a user-left event makes the endpoint invite its single peer, in that
    call, if and only if its own id is lexicographically smaller than the
    id of the peer. Hence of two endpoints facing each other exactly one
    invites when their ids differ, and neither when the ids are equal: the
    tie is logged as an error and nothing else happens. After a user-left
    event no invitation is sent in the call: the endpoint with the smaller
    id schedules the invitation after [backToP2PDelay] seconds, and sends it
    when that timer fires, unless a deferred start is scheduled already,
    which is only logged as an error; an endpoint whose id is not the
    smaller one schedules nothing. *)
Theorem leader_election (wA wB : World) (a b : string) (peerOfA peerOfB : JitsiParticipant) :
  could_start_P2P (conf wA) -> myUserId (conf wA) = Some a ->
  getParticipants (conf wA) = [peerOfA] -> getId peerOfA = b ->
  could_start_P2P (conf wB) -> myUserId (conf wB) = Some b ->
  getParticipants (conf wB) = [peerOfB] -> getId peerOfB = a ->
  let oA := _maybeStartOrStopP2P false wA in
  let oB := _maybeStartOrStopP2P false wB in
  let dA := _maybeStartOrStopP2P true wA in
  let tracksA := map tid (rtc_localTracks (conf wA)) in
  let tracksB := map tid (rtc_localTracks (conf wB)) in
  existsb sends_invite (calls_of oA) = String.ltb a b
  /\ existsb sends_invite (calls_of oB) = String.ltb b a
  /\ (String.ltb a b = true -> invites (getJid peerOfA) tracksA (calls_of oA))
  /\ (String.ltb b a = true -> invites (getJid peerOfB) tracksB (calls_of oB))
  /\ (a <> b ->
      existsb sends_invite (calls_of oA) = negb (existsb sends_invite (calls_of oB)))
  /\ (a = b ->
      oA = Ok tt wA [Log ERROR "The same IDs ? "]
      /\ oB = Ok tt wB [Log ERROR "The same IDs ? "])
  /\ existsb sends_invite (calls_of dA) = false
  /\ (String.ltb a b = false -> existsb schedules_timer (calls_of dA) = false)
  /\ (String.ltb a b = true ->
      match deferredStartP2PTask (conf wA) with
      | Some _ => dA = Ok tt wA [Log ERROR "Deferred start P2P task's been set already!"]
      | None =>
          calls_of dA
          = [SetTimeout (next_handle wA) (CbStartP2PSession (getJid peerOfA))
               (backToP2PDelay (conf wA) * 1000)]
          /\ (pending (next_handle wA) wA = false ->
              invites (getJid peerOfA) tracksA
                (calls_of (fire (next_handle wA) (world_of dA))))
      end).
Proof.
  intros HcA HmeA HpA HidA HcB HmeB HpB HidB oA oB dA tracksA tracksB.
  assert (exists rA, room (conf wA) = Some rA) as [rA HrA].
  { unfold myUserId in HmeA. destruct (room (conf wA)); [eauto | discriminate]. }
  assert (exists rB, room (conf wB) = Some rB) as [rB HrB].
  { unfold myUserId in HmeB. destruct (room (conf wB)); [eauto | discriminate]. }
  assert (HsA : p2pJingleSession (conf wA) = None) by apply HcA.
  assert (HsB : p2pJingleSession (conf wB) = None) by apply HcB.
  destruct (startP2PSession_sends_invite wA (getJid peerOfA) rA HsA HrA) as [HiA HvA].
  destruct (startP2PSession_sends_invite wB (getJid peerOfB) rB HsB HrB) as [HiB HvB].
  assert (HoA : oA = if String.ltb b a then Ok tt wA []
                     else if String.eqb a b then Ok tt wA [Log ERROR "The same IDs ? "]
                     else _startP2PSession (getJid peerOfA) wA).
  { subst oA. rewrite (election_decision _ _ _ _ HcA HmeA HpA), HidA. reflexivity. }
  assert (HoB : oB = if String.ltb a b then Ok tt wB []
                     else if String.eqb b a then Ok tt wB [Log ERROR "The same IDs ? "]
                     else _startP2PSession (getJid peerOfB) wB).
  { subst oB. rewrite (election_decision _ _ _ _ HcB HmeB HpB), HidB. reflexivity. }
  assert (HdA : dA = _maybeStartOrStopP2P true wA) by reflexivity.
  rewrite (election_decision _ _ _ _ HcA HmeA HpA), HidA in HdA.
  clearbody oA oB dA. clear HidA HidB.
  destruct (String.eqb_spec a b) as [Heq|Hne].
  - subst b. rewrite ltb_irrefl in *. rewrite String.eqb_refl in *. subst oA oB dA.
    repeat split; try reflexivity; try discriminate. congruence.
  - assert (Hba : String.eqb b a = false) by (apply String.eqb_neq; congruence).
    rewrite Hba in HoB. pose proof (ltb_total _ _ Hne) as Htot.
    destruct (String.ltb b a) eqn:Hgt.
    + assert (Hlt : String.ltb a b = false) by now apply ltb_asym.
      rewrite Hlt in *. subst oA oB dA. cbn [calls_of existsb].
      split; [reflexivity|]. split; [exact HiB|]. split; [discriminate|].
      split; [intros _; exact HvB|]. split; [intros _; rewrite HiB; reflexivity|].
      split; [congruence|]. split; [reflexivity|]. split; [reflexivity | discriminate].
    + assert (Hlt : String.ltb a b = true) by (rewrite Htot; reflexivity).
      rewrite Hlt in *. subst oA oB. cbn [calls_of existsb].
      split; [exact HiA|]. split; [reflexivity|]. split; [intros _; exact HvA|].
      split; [discriminate|]. split; [intros _; rewrite HiA; reflexivity|].
      split; [congruence|].
      destruct (deferredStartP2PTask (conf wA)) as [h|] eqn:Hd; subst dA.
      * repeat split; try reflexivity; discriminate.
      * cbn [calls_of existsb sends_invite orb world_of].
        split; [reflexivity|]. split; [discriminate|]. intros _. split; [reflexivity|].
        intros Hfresh. unfold fire. cbn [timers set_conf set_timers].
        unfold pending in Hfresh.
        rewrite (find_last _ _ (next_handle wA, CbStartP2PSession (getJid peerOfA)) Hfresh)
          by (cbn; apply Pos.eqb_refl).
        cbn [run_callback].
        match goal with |- invites _ _ (calls_of (_startP2PSession _ ?w1)) =>
          destruct (startP2PSession_sends_invite w1 (getJid peerOfA) rA) as [_ Hv] end;
          [exact HsA | exact HrA | exact Hv].
Qed.

(** ** Attaching and detaching remote tracks *)

Lemma set_participants_same (w : World) :
  set_conf (set_participants (participants (conf w)) (conf w)) w = w.
Proof. destruct w as [c ? ? ? ? ?]. destruct c. reflexivity. Qed.

Lemma forEach_detach (i : nat) (ps : list (string * JitsiParticipant)) (w : World) :
  forEach_participant ps (fun participant =>
      match splice_first i (_tracks participant) with
      | Some ts => call (Emit (TRACK_REMOVED i));; mret (set_tracks ts participant)
      | None => mret participant
      end) w
  = Ok (detach_all i ps) w (detach_emits i ps).
Proof.
  set (body := fun participant : JitsiParticipant => _).
  induction ps as [|[k p] ps IH]; [reflexivity|].
  cbn [forEach_participant]. rewrite bind_eq.
  unfold detach_all, detach_emits, detach in *. cbn [map flat_map fst snd].
  unfold body at 1.
  destruct (splice_first i (_tracks p)) as [ts|]; cbn [is_set].
  - mred. rewrite IH. mdone.
  - mred. rewrite IH. mdone.
Qed.

Lemma onRemoteTrackRemoved_eq (t : JitsiRemoteTrack) (w : World) :
  onRemoteTrackRemoved t w
  = Ok tt (set_conf (set_participants (detach_all (rtid t) (participants (conf w))) (conf w)) w)
      (detach_emits (rtid t) (participants (conf w))).
Proof.
  unfold onRemoteTrackRemoved. mred. rewrite forEach_detach. mdone.
Qed.

Lemma removeRemoteTracks_eq (ts : list JitsiRemoteTrack) (w : World) :
  _removeRemoteTracks ts w
  = Ok tt (set_conf (set_participants (detach_tracks ts (participants (conf w))) (conf w)) w)
      (detach_tracks_calls ts (participants (conf w))).
Proof.
  unfold _removeRemoteTracks. revert w.
  induction ts as [|t ts IH]; intros w.
  - cbn. rewrite set_participants_same. reflexivity.
  - cbn [for_each]. mred. rewrite onRemoteTrackRemoved_eq. mred.
    rewrite IH. mdone.
Qed.

Lemma onRemoteTrackAdded_eq (t : JitsiRemoteTrack) (w : World) :
  onRemoteTrackAdded t w
  = if Bool.eqb (track_isP2P t) (p2p (conf w)) then
      Ok tt (set_conf (set_participants
                         (push_track (ownerEndpointId t) t (participants (conf w))) (conf w)) w)
        [RemoteTrackAddListeners (rtid t); Emit (TRACK_ADDED (rtid t))]
    else Ok tt w [].
Proof.
  unfold onRemoteTrackAdded, isP2PActive, getParticipantId. mstep.
  destruct (track_isP2P t), (p2p (conf w)); reflexivity.
Qed.

Lemma addRemoteTracks_eq (ts : list JitsiRemoteTrack) (w : World) :
  _addRemoteTracks ts w
  = Ok tt (set_conf (set_participants
                       (attach_tracks (p2p (conf w)) ts (participants (conf w))) (conf w)) w)
      (attach_tracks_calls (p2p (conf w)) ts (participants (conf w))).
Proof.
  unfold _addRemoteTracks. revert w.
  induction ts as [|t ts IH]; intros w.
  - cbn. rewrite set_participants_same. reflexivity.
  - cbn [for_each attach_tracks attach_tracks_calls]. mred.
    unfold attach, attachable.
    destruct (is_set (participants_get (ownerEndpointId t) (participants (conf w)))); cbn [andb].
    + rewrite onRemoteTrackAdded_eq.
      destruct (Bool.eqb (track_isP2P t) (p2p (conf w))); mred; rewrite IH; mdone.
    + mred. rewrite IH. mdone.
Qed.

(** *** The roster under the two loops *)

Lemma splice_first_some (i : nat) (ts ts' : list JitsiRemoteTrack) :
  splice_first i ts = Some ts' ->
  In i (map rtid ts)
  /\ (forall j, In j (map rtid ts') -> In j (map rtid ts))
  /\ (forall j, j <> i -> In j (map rtid ts) -> In j (map rtid ts'))
  /\ (List.NoDup (map rtid ts) -> List.NoDup (map rtid ts') /\ ~ In i (map rtid ts')).
Proof.
  revert ts'. induction ts as [|x ts IH]; intros ts' Hs; [discriminate|].
  cbn in Hs. destruct (Nat.eqb_spec (rtid x) i) as [Hx|Hx].
  - injection Hs as <-. cbn.
    split; [now left|]. split; [intros j Hj; now right|].
    split; [intros j Hne [Hj|Hj]; [congruence | assumption]|].
    intros Hnd. inversion Hnd as [|? ? Hni Hnd']; subst. split; assumption.
  - destruct (splice_first i ts) as [r|] eqn:Hr; [|discriminate].
    injection Hs as <-. destruct (IH r eq_refl) as (Hin & Hsub & Hkeep & Hnd).
    cbn.
    split; [now right|].
    split; [intros j [Hj|Hj]; [now left | right; now apply Hsub]|].
    split; [intros j Hne [Hj|Hj]; [now left | right; now apply Hkeep]|].
    intros Hnd0. inversion Hnd0 as [|? ? Hni Hnd']; subst.
    destruct (Hnd Hnd') as [Hr1 Hr2]. split.
    + constructor; [intros Hc; apply Hni; now apply Hsub | assumption].
    + intros [Hc|Hc]; [congruence | contradiction].
Qed.

Lemma splice_first_none (i : nat) (ts : list JitsiRemoteTrack) :
  splice_first i ts = None <-> ~ In i (map rtid ts).
Proof.
  induction ts as [|x ts IH]; cbn.
  - split; [intros _ [] | reflexivity].
  - destruct (Nat.eqb_spec (rtid x) i) as [Hx|Hx].
    + split; [discriminate | intros Hn; exfalso; apply Hn; now left].
    + destruct (splice_first i ts) as [r|]; cbn.
      * split; [discriminate|]. intros Hn. exfalso.
        destruct IH as [_ IH]. assert (Hni : ~ In i (map rtid ts)) by tauto.
        specialize (IH Hni). discriminate.
      * split; [|reflexivity]. intros _ [Hc|Hc]; [congruence|].
        destruct IH as [IH _]. now apply IH.
Qed.

Lemma detach_tracks_of (i : nat) (p : JitsiParticipant) :
  (forall j, In j (map rtid (_tracks (detach i p))) -> In j (map rtid (_tracks p)))
  /\ (forall j, j <> i -> In j (map rtid (_tracks p)) -> In j (map rtid (_tracks (detach i p))))
  /\ (List.NoDup (map rtid (_tracks p)) ->
      List.NoDup (map rtid (_tracks (detach i p))) /\ ~ In i (map rtid (_tracks (detach i p)))).
Proof.
  unfold detach. destruct (splice_first i (_tracks p)) as [ts|] eqn:Hs.
  - destruct (splice_first_some _ _ _ Hs) as (_ & Hsub & Hkeep & Hnd). cbn. auto.
  - apply splice_first_none in Hs. auto.
Qed.

Lemma keys_detach_all (i : nat) (ps : list (string * JitsiParticipant)) :
  map fst (detach_all i ps) = map fst ps.
Proof. unfold detach_all. rewrite map_map. reflexivity. Qed.

Lemma keys_push_track (id : string) (t : JitsiRemoteTrack) (ps : list (string * JitsiParticipant)) :
  map fst (push_track id t ps) = map fst ps.
Proof.
  induction ps as [|[k p] ps IH]; [reflexivity|]. cbn.
  destruct (String.eqb k id); cbn; [reflexivity | now rewrite IH].
Qed.

Lemma keys_detach_tracks (ts : list JitsiRemoteTrack) (ps : list (string * JitsiParticipant)) :
  map fst (detach_tracks ts ps) = map fst ps.
Proof.
  revert ps. induction ts as [|t ts IH]; intros ps; [reflexivity|].
  cbn. now rewrite IH, keys_detach_all.
Qed.

Lemma keys_attach (active : bool) (t : JitsiRemoteTrack) (ps : list (string * JitsiParticipant)) :
  map fst (attach active t ps) = map fst ps.
Proof. unfold attach. destruct (attachable active t ps); [apply keys_push_track | reflexivity]. Qed.

Lemma keys_attach_tracks (active : bool) (ts : list JitsiRemoteTrack)
    (ps : list (string * JitsiParticipant)) :
  map fst (attach_tracks active ts ps) = map fst ps.
Proof.
  revert ps. induction ts as [|t ts IH]; intros ps; [reflexivity|].
  cbn. now rewrite IH, keys_attach.
Qed.

Lemma in_roster_keys (id : string) (ps ps' : list (string * JitsiParticipant)) :
  map fst ps = map fst ps' ->
  is_set (participants_get id ps) = is_set (participants_get id ps').
Proof.
  unfold participants_get. revert ps'.
  induction ps as [|[k p] ps IH]; intros [|[k' p'] ps'] Hk; try discriminate; [reflexivity|].
  cbn in Hk. injection Hk as -> Hk. cbn.
  destruct (String.eqb k' id); [reflexivity | now apply IH].
Qed.

Lemma holds_detach_all (i j : nat) (ps : list (string * JitsiParticipant)) :
  holds (detach_all i ps) j -> holds ps j.
Proof.
  intros [kp [Hin Hj]]. unfold detach_all in Hin. apply in_map_iff in Hin as [kp0 [<- Hin0]].
  exists kp0. split; [assumption|]. cbn in Hj. now apply (detach_tracks_of i (snd kp0)).
Qed.

Lemma holds_detach_all_other (i j : nat) (ps : list (string * JitsiParticipant)) :
  j <> i -> holds ps j -> holds (detach_all i ps) j.
Proof.
  intros Hne [kp [Hin Hj]]. exists (fst kp, detach i (snd kp)). split.
  - unfold detach_all. apply in_map_iff. now exists kp.
  - cbn. now apply (detach_tracks_of i (snd kp)).
Qed.

Lemma distinct_detach_all (i : nat) (ps : list (string * JitsiParticipant)) :
  tracks_distinct ps -> tracks_distinct (detach_all i ps) /\ ~ holds (detach_all i ps) i.
Proof.
  intros Hd. split.
  - intros kp Hin. unfold detach_all in Hin. apply in_map_iff in Hin as [kp0 [<- Hin0]].
    cbn. now apply (detach_tracks_of i (snd kp0)), Hd.
  - intros [kp [Hin Hi]]. unfold detach_all in Hin.
    apply in_map_iff in Hin as [kp0 [<- Hin0]]. cbn in Hi.
    now apply (detach_tracks_of i (snd kp0)) in Hi; [|apply Hd].
Qed.

Lemma holds_detach_tracks (ts : list JitsiRemoteTrack) (j : nat)
    (ps : list (string * JitsiParticipant)) :
  holds (detach_tracks ts ps) j -> holds ps j.
Proof.
  revert ps. induction ts as [|t ts IH]; intros ps Hh; [assumption|].
  cbn in Hh. eapply holds_detach_all, IH, Hh.
Qed.

(** After the detach loop no participant holds any of the tracks. *)
Lemma detach_tracks_gone (ts : list JitsiRemoteTrack) (ps : list (string * JitsiParticipant)) :
  tracks_distinct ps ->
  forall t, In t ts -> ~ holds (detach_tracks ts ps) (rtid t).
Proof.
  revert ps. induction ts as [|x ts IH]; intros ps Hd t Hin; [destruct Hin|].
  destruct (distinct_detach_all (rtid x) ps Hd) as [Hd' Hgone].
  cbn. destruct (Nat.eq_dec (rtid t) (rtid x)) as [He|Hne].
  - rewrite He. intros Hh. now apply holds_detach_tracks in Hh.
  - destruct Hin as [-> | Hin]; [congruence|]. now apply IH.
Qed.

Lemma detach_emits_in (i : nat) (ps : list (string * JitsiParticipant)) :
  holds ps i -> In (Emit (TRACK_REMOVED i)) (detach_emits i ps).
Proof.
  intros [kp [Hin Hi]]. unfold detach_emits. apply in_flat_map. exists kp. split; [assumption|].
  destruct (splice_first i (_tracks (snd kp))) eqn:Hs; [now left|].
  now apply splice_first_none in Hs.
Qed.

(** Every track of the list that some participant holds is announced as
    removed. *)
Lemma detach_tracks_emits (ts : list JitsiRemoteTrack) (ps : list (string * JitsiParticipant)) :
  forall t, In t ts -> holds ps (rtid t) ->
  In (Emit (TRACK_REMOVED (rtid t))) (detach_tracks_calls ts ps).
Proof.
  revert ps. induction ts as [|x ts IH]; intros ps t Hin Hh; [destruct Hin|].
  cbn. apply in_or_app. destruct (Nat.eq_dec (rtid t) (rtid x)) as [He|Hne].
  - left. rewrite <- He. now apply detach_emits_in.
  - right. destruct Hin as [-> | Hin]; [congruence|].
    apply IH; [assumption | now apply holds_detach_all_other].
Qed.

Lemma push_track_get_same (id : string) (t : JitsiRemoteTrack)
    (ps : list (string * JitsiParticipant)) (p : JitsiParticipant) :
  participants_get id ps = Some p ->
  participants_get id (push_track id t ps) = Some (set_tracks (_tracks p ++ [t]) p).
Proof.
  unfold participants_get. induction ps as [|[k q] ps IH]; [discriminate|]. cbn.
  destruct (String.eqb k id) eqn:Hk; cbn; rewrite Hk; cbn.
  - intros Heq. injection Heq as ->. reflexivity.
  - assumption.
Qed.

Lemma push_track_get_other (id id' : string) (t : JitsiRemoteTrack)
    (ps : list (string * JitsiParticipant)) :
  id' <> id -> participants_get id' (push_track id t ps) = participants_get id' ps.
Proof.
  intros Hne. unfold participants_get. induction ps as [|[k q] ps IH]; [reflexivity|]. cbn.
  destruct (String.eqb_spec k id) as [-> | Hk]; cbn.
  - destruct (String.eqb_spec id id'); [congruence | reflexivity].
  - destruct (String.eqb k id'); [reflexivity | assumption].
Qed.

Lemma holds_track_push (id id' : string) (t t' : JitsiRemoteTrack)
    (ps : list (string * JitsiParticipant)) :
  holds_track ps id t -> holds_track (push_track id' t' ps) id t.
Proof.
  intros [p [Hget Hin]]. destruct (String.eqb_spec id id') as [-> | Hne].
  - exists (set_tracks (_tracks p ++ [t']) p). split.
    + now apply push_track_get_same.
    + cbn. apply in_or_app. now left.
  - exists p. split; [|assumption]. now rewrite push_track_get_other.
Qed.

Lemma holds_track_attach (active : bool) (id : string) (t t' : JitsiRemoteTrack)
    (ps : list (string * JitsiParticipant)) :
  holds_track ps id t -> holds_track (attach active t' ps) id t.
Proof.
  unfold attach. destruct (attachable active t' ps); [apply holds_track_push | trivial].
Qed.

Lemma holds_track_attach_tracks (active : bool) (ts : list JitsiRemoteTrack) (id : string)
    (t : JitsiRemoteTrack) (ps : list (string * JitsiParticipant)) :
  holds_track ps id t -> holds_track (attach_tracks active ts ps) id t.
Proof.
  revert ps. induction ts as [|x ts IH]; intros ps Hh; [assumption|].
  cbn. now apply IH, holds_track_attach.
Qed.

(** Every track of the list whose owner is in the roster and which belongs
    to the active kind of session is announced as added and handed to its
    owner. *)
Lemma attach_tracks_added (active : bool) (ts : list JitsiRemoteTrack)
    (ps : list (string * JitsiParticipant)) :
  forall t, In t ts ->
  is_set (participants_get (ownerEndpointId t) ps) = true ->
  track_isP2P t = active ->
  In (Emit (TRACK_ADDED (rtid t))) (attach_tracks_calls active ts ps)
  /\ holds_track (attach_tracks active ts ps) (ownerEndpointId t) t.
Proof.
  revert ps. induction ts as [|x ts IH]; intros ps t Hin Hown Hflag; [destruct Hin|].
  cbn. destruct Hin as [-> | Hin].
  - assert (Ha : attachable active t ps = true).
    { unfold attachable. rewrite Hown, Hflag. now destruct active. }
    unfold attach. rewrite Ha. split.
    + apply in_or_app. left. right. now left.
    + apply holds_track_attach_tracks.
      destruct (participants_get (ownerEndpointId t) ps) as [p|] eqn:Hp; [|discriminate].
      exists (set_tracks (_tracks p ++ [t]) p). split.
      * now apply push_track_get_same.
      * cbn. apply in_or_app. right. now left.
  - destruct (IH (attach active x ps) t Hin) as [Hc Hh]; [|assumption|].
    + rewrite <- Hown. apply in_roster_keys, keys_attach.
    + split; [apply in_or_app; now right | assumption].
Qed.

Lemma holds_push_track (id : string) (t : JitsiRemoteTrack) (j : nat)
    (ps : list (string * JitsiParticipant)) :
  holds (push_track id t ps) j -> holds ps j \/ j = rtid t.
Proof.
  induction ps as [|[k p] ps IH]; cbn; [intros [kp [[] _]]|].
  destruct (String.eqb k id).
  - intros [kp [[<-|Hin] Hj]].
    + cbn in Hj. rewrite map_app in Hj. apply in_app_or in Hj as [Hj|[Hj|[]]].
      * left. exists (k, p). split; [now left | assumption].
      * now right.
    + left. exists kp. split; [now right | assumption].
  - intros [kp [[<-|Hin] Hj]].
    + left. exists (k, p). split; [now left | assumption].
    + destruct IH as [[kp' [Hin' Hj']]|He]; [now exists kp | | now right].
      left. exists kp'. split; [now right | assumption].
Qed.

Lemma holds_attach_tracks (active : bool) (ts : list JitsiRemoteTrack) (j : nat)
    (ps : list (string * JitsiParticipant)) :
  holds (attach_tracks active ts ps) j -> holds ps j \/ In j (map rtid ts).
Proof.
  revert ps. induction ts as [|x ts IH]; intros ps Hh; [now left|].
  cbn in Hh. apply IH in Hh as [Hh|Hh]; [|right; now right].
  unfold attach in Hh. destruct (attachable active x ps); [|now left].
  apply holds_push_track in Hh as [Hh | ->]; [now left | right; now left].
Qed.

Lemma detach_tracks_calls_tracks (ts : list JitsiRemoteTrack)
    (ps : list (string * JitsiParticipant)) :
  forallb is_track_call (detach_tracks_calls ts ps) = true.
Proof.
  revert ps. induction ts as [|x ts IH]; intros ps; [reflexivity|].
  cbn. rewrite forallb_app, IH, andb_true_r.
  unfold detach_emits. induction ps as [|kp ps IHps]; [reflexivity|].
  cbn. rewrite forallb_app, IHps, andb_true_r.
  now destruct (splice_first (rtid x) (_tracks (snd kp))).
Qed.

Lemma attach_tracks_calls_tracks (active : bool) (ts : list JitsiRemoteTrack)
    (ps : list (string * JitsiParticipant)) :
  forallb is_track_call (attach_tracks_calls active ts ps) = true.
Proof.
  revert ps. induction ts as [|x ts IH]; intros ps; [reflexivity|].
  cbn. rewrite forallb_app, IH, andb_true_r.
  now destruct (attachable active x ps).
Qed.

Lemma track_calls_existsb (f : Effect -> bool) (es : list Effect) :
  (forall e, is_track_call e = true -> f e = false) ->
  forallb is_track_call es = true -> existsb f es = false.
Proof.
  intros Hf. induction es as [|e es IH]; [reflexivity|]. cbn.
  intros [He Hes]%andb_true_iff. now rewrite (Hf e He), IH.
Qed.

Lemma track_calls_not_in (e : Effect) (es : list Effect) :
  is_track_call e = false -> forallb is_track_call es = true -> ~ In e es.
Proof.
  intros He Hall Hin. rewrite forallb_forall in Hall. specialize (Hall e Hin). congruence.
Qed.

(** ** Switching the active session *)

Lemma setP2PStatus_same (b : bool) (w : World) :
  p2p (conf w) = b -> _setP2PStatus b w = Ok tt w [].
Proof.
  intros Hp. unfold _setP2PStatus. mred. rewrite Hp, eqb_reflx. reflexivity.
Qed.

Lemma setP2PStatus_off (w : World) :
  p2p (conf w) = true ->
  _setP2PStatus false w
  = Ok tt (set_conf (set_dtmfManager None (set_p2p false (conf w))) w)
      [Emit (P2P_STATUS false);
       Emit (_MEDIA_SESSION_ACTIVE_CHANGED (option_map sid (jvbJingleSession (conf w))));
       Emit (if isJvbConnectionInterrupted (conf w) then CONNECTION_INTERRUPTED
             else CONNECTION_RESTORED)].
Proof.
  intros Hp. unfold _setP2PStatus. mred. rewrite Hp. cbn. mdone.
Qed.

Lemma setP2PStatus_on (w : World) (s : JingleSessionPC) :
  p2p (conf w) = false ->
  p2pJingleSession (conf w) = Some s ->
  _setP2PStatus true w
  = Ok tt (set_conf (set_dtmfManager None (set_p2p true (conf w))) w)
      [AddPermanentProperty "p2pFailed" false;
       SessionSetP2pVideoTransferActive (sid s) (negb (Z.eqb (lastN (conf w)) 0));
       Emit (P2P_STATUS true);
       Emit (_MEDIA_SESSION_ACTIVE_CHANGED (Some (sid s)));
       Emit (if isP2PConnectionInterrupted (conf w) then CONNECTION_INTERRUPTED
             else CONNECTION_RESTORED)].
Proof.
  intros Hp Hs. unfold _setP2PStatus. mred. rewrite Hp. cbn. mred.
  rewrite Hs. mred. cbn. rewrite Hs. mdone.
Qed.

(** Stopping a P2P session that was never established. *)
Lemma stopP2PSession_pending (options : StopOptions) (w : World) (s : JingleSessionPC) :
  p2pJingleSession (conf w) = Some s ->
  p2p (conf w) = false ->
  _stopP2PSession options w
  = Ok tt (set_conf (set_p2pJingleSession None (conf w)) w)
      [StopRemoteStats (sid s);
       SessionTerminate (sid s)
         (Some (default "success"%string (opt_reason options)))
         (Some (default "Turning off P2P session"%string (opt_reasonDescription options)))
         (is_set (room (conf w))
          && is_set (getParticipantById (conf w) (getResourceFromJid (remoteJid s))))].
Proof.
  intros Hs Hp. unfold _stopP2PSession. mred. rewrite Hs. unfold isP2PActive. rewrite Hp.
  mred. rewrite setP2PStatus_same by assumption. mdone.
Qed.

(** Stopping an established P2P session next to a bridge session, not for a
    restart: the bridge takes over. *)
Lemma stopP2PSession_fallback (options : StopOptions) (w : World) (s j : JingleSessionPC) :
  p2pJingleSession (conf w) = Some s ->
  p2p (conf w) = true ->
  jvbJingleSession (conf w) = Some j ->
  default false (opt_requestRestart options) = false ->
  let ps1 := detach_tracks (pc_getRemoteTracks s) (participants (conf w)) in
  _stopP2PSession options w
  = Ok tt
      (set_conf
         (set_participants (attach_tracks false (pc_getRemoteTracks j) ps1)
            (set_dtmfManager None (set_p2p false (set_p2pJingleSession None (conf w))))) w)
      (SessionSetMediaTransferActive (sid j) true
       :: detach_tracks_calls (pc_getRemoteTracks s) (participants (conf w))
       ++ [StopRemoteStats (sid s);
           SessionTerminate (sid s)
             (Some (default "success"%string (opt_reason options)))
             (Some (default "Turning off P2P session"%string (opt_reasonDescription options)))
             (is_set (room (conf w))
              && is_set (getParticipantById
                           (set_participants ps1 (conf w))
                           (getResourceFromJid (remoteJid s))));
           Emit (P2P_STATUS false);
           Emit (_MEDIA_SESSION_ACTIVE_CHANGED (Some (sid j)));
           Emit (if isJvbConnectionInterrupted (conf w) then CONNECTION_INTERRUPTED
                 else CONNECTION_RESTORED)]
       ++ attach_tracks_calls false (pc_getRemoteTracks j) ps1).
Proof.
  intros Hs Hp Hj Hrr ps1. unfold _stopP2PSession. mred.
  rewrite Hs. unfold isP2PActive. rewrite Hp, Hj, Hrr. cbn [is_set negb andb].
  mred. unfold _resumeMediaTransferForJvbConnection. mred. rewrite Hj. mred.
  unfold _removeRemoteP2PTracks. mred. rewrite Hs. rewrite removeRemoteTracks_eq. mred.
  rewrite setP2PStatus_off by exact Hp. mred. cbn. rewrite Hj. cbn [is_set andb].
  unfold _addRemoteJVBTracks. mred. cbn. rewrite Hj. rewrite addRemoteTracks_eq. cbn.
  fold ps1. rewrite <- ?app_assoc. cbn. rewrite ?app_nil_r. reflexivity.
Qed.

(** Stopping an established P2P session without a bridge to fall back to. *)
Lemma stopP2PSession_alone (options : StopOptions) (w : World) (s : JingleSessionPC) :
  p2pJingleSession (conf w) = Some s ->
  p2p (conf w) = true ->
  is_set (jvbJingleSession (conf w)) && negb (default false (opt_requestRestart options))
    = false ->
  let ps1 := detach_tracks (pc_getRemoteTracks s) (participants (conf w)) in
  _stopP2PSession options w
  = Ok tt
      (set_conf
         (set_participants ps1
            (set_dtmfManager None (set_p2p false (set_p2pJingleSession None (conf w))))) w)
      (detach_tracks_calls (pc_getRemoteTracks s) (participants (conf w))
       ++ [StopRemoteStats (sid s);
           SessionTerminate (sid s)
             (Some (default "success"%string (opt_reason options)))
             (Some (default "Turning off P2P session"%string (opt_reasonDescription options)))
             (is_set (room (conf w))
              && is_set (getParticipantById
                           (set_participants ps1 (conf w))
                           (getResourceFromJid (remoteJid s))));
           Emit (P2P_STATUS false);
           Emit (_MEDIA_SESSION_ACTIVE_CHANGED (option_map sid (jvbJingleSession (conf w))));
           Emit (if isJvbConnectionInterrupted (conf w) then CONNECTION_INTERRUPTED
                 else CONNECTION_RESTORED)]).
Proof.
  intros Hs Hp Hf ps1. unfold _stopP2PSession. mred.
  rewrite Hs. unfold isP2PActive. rewrite Hp, Hf. mred.
  unfold _removeRemoteP2PTracks. mred. rewrite Hs. rewrite removeRemoteTracks_eq. mred.
  rewrite setP2PStatus_off by exact Hp. mred. cbn. rewrite Hf.
  fold ps1. mred. rewrite <- ?app_assoc. cbn. rewrite ?app_nil_r. reflexivity.
Qed.

(** ** ICE failure of the P2P session *)

Lemma onIceConnectionFailed_p2p (session : JingleSessionPC) (w : World) :
  isP2P session = true ->
  _onIceConnectionFailed session w
  = after_calls
      (AddPermanentProperty "p2pFailed" true
       :: if is_set (p2pJingleSession (conf w)) then [SendAnalytics "ACTION_P2P_FAILED"] else [])
      (_stopP2PSession {| opt_reason := Some "connectivity-error"%string;
                          opt_reasonDescription := Some "ICE FAILED"%string;
                          opt_requestRestart := None |} w).
Proof.
  intros Hp. unfold _onIceConnectionFailed. mred. rewrite Hp. mred.
  destruct (is_set (p2pJingleSession (conf w))); mred;
    destruct (_stopP2PSession _ w); reflexivity.
Qed.

Lemma restarts_ice_track_calls (es : list Effect) :
  forallb is_track_call es = true -> existsb restarts_ice es = false.
Proof.
  apply track_calls_existsb. intros [] He; try discriminate; try reflexivity.
Qed.

(** C3. An ICE failure reported for the current P2P session is never
    answered by an ICE restart: within the same call the P2P session is
    terminated with the Jingle reason 'connectivity-error' and forgotten,
    and when that session had been established while a bridge session
    exists, the media transfer of the bridge session is resumed and the
    remote tracks of the bridge are handed back to their owners. *)
Theorem p2p_ice_failure_falls_back (w : World) (session s : JingleSessionPC) :
  isP2P session = true ->
  p2pJingleSession (conf w) = Some s ->
  same_session s session = true ->
  let o := _onIceConnectionFailed session w in
  returned o = Some tt
  /\ existsb restarts_ice (calls_of o) = false
  /\ timers (world_of o) = timers w
  /\ _delayedIceFailed (conf (world_of o)) = _delayedIceFailed (conf w)
  /\ _iceRestarts (conf (world_of o)) = _iceRestarts (conf w)
  /\ (exists sendSessionTerminate,
        In (SessionTerminate (sid s) (Some "connectivity-error"%string)
              (Some "ICE FAILED"%string) sendSessionTerminate) (calls_of o))
  /\ p2pJingleSession (conf (world_of o)) = None
  /\ isP2PActive (conf (world_of o)) = false
  /\ (forall j, isP2PActive (conf w) = true -> jvbJingleSession (conf w) = Some j ->
        In (SessionSetMediaTransferActive (sid j) true) (calls_of o)
        /\ jvbJingleSession (conf (world_of o)) = Some j
        /\ forall t, In t (pc_getRemoteTracks j) -> track_isP2P t = false ->
             is_set (participants_get (ownerEndpointId t) (participants (conf w))) = true ->
             In (Emit (TRACK_ADDED (rtid t))) (calls_of o)
             /\ holds_track (participants (conf (world_of o))) (ownerEndpointId t) t).
Proof.
  intros Hp Hs _ o. subst o. rewrite (onIceConnectionFailed_p2p _ _ Hp), Hs.
  cbn [is_set]. unfold isP2PActive.
  destruct (p2p (conf w)) eqn:Hact.
  - destruct (jvbJingleSession (conf w)) as [j|] eqn:Hj.
    + erewrite stopP2PSession_fallback;
        [| exact Hs | exact Hact | exact Hj | reflexivity].
      cbn [after_calls returned calls_of world_of default opt_reason opt_reasonDescription].
      set (ps1 := detach_tracks (pc_getRemoteTracks s) (participants (conf w))).
      split; [reflexivity|]. split.
      { cbn. rewrite !existsb_app. cbn.
        rewrite !restarts_ice_track_calls;
          [reflexivity | apply attach_tracks_calls_tracks | apply detach_tracks_calls_tracks]. }
      split; [reflexivity|]. split; [reflexivity|]. split; [reflexivity|]. split.
      { eexists. cbn. do 3 right. apply in_or_app. right. right. left. reflexivity. }
      split; [reflexivity|]. split; [reflexivity|].
      intros j' _ Hj'. injection Hj' as <-. split; [cbn; do 2 right; now left|].
      split; [exact Hj|]. intros t Hin Hflag Hown.
      destruct (attach_tracks_added false (pc_getRemoteTracks j) ps1 t Hin) as [Hc Hh].
      * rewrite <- Hown. apply in_roster_keys. unfold ps1. apply keys_detach_tracks.
      * exact Hflag.
      * split; [|exact Hh]. cbn. do 3 right. apply in_or_app. right.
        do 5 right. exact Hc.
    + erewrite stopP2PSession_alone; [| exact Hs | exact Hact | now rewrite Hj].
      cbn [after_calls returned calls_of world_of default opt_reason opt_reasonDescription].
      split; [reflexivity|]. split.
      { cbn. rewrite !existsb_app. cbn.
        rewrite restarts_ice_track_calls; [reflexivity | apply detach_tracks_calls_tracks]. }
      split; [reflexivity|]. split; [reflexivity|]. split; [reflexivity|]. split.
      { eexists. cbn. do 2 right. apply in_or_app. right. right. left. reflexivity. }
      split; [reflexivity|]. split; [reflexivity|].
      intros j' _ Hj'. discriminate.
  - erewrite stopP2PSession_pending; [| exact Hs | exact Hact].
    cbn [after_calls returned calls_of world_of default opt_reason opt_reasonDescription].
    split; [reflexivity|]. split; [reflexivity|].
    split; [reflexivity|]. split; [reflexivity|]. split; [reflexivity|]. split.
    { eexists. cbn. do 3 right. left. reflexivity. }
    split; [reflexivity|]. split; [exact Hact|].
    intros j' Hc. discriminate.
Qed.

(** ** ICE failure of the bridge session *)

(** What [_onIceConnectionFailed] does for the current bridge session. *)
Lemma onIceConnectionFailed_bridge (w : World) (session j : JingleSessionPC) :
  isP2P session = false ->
  jvbJingleSession (conf w) = Some j ->
  same_session j session = true ->
  _onIceConnectionFailed session w
  = if (_iceRestarts (conf w) <? MAX_CONNECTION_RETRIES)%nat then
      let delay := getJitterDelay (_iceRestarts (conf w)) 1000 in
      Ok tt
        (set_timers (timers w ++ [(next_handle w, CbIceRestart session delay)])
           (Pos.succ (next_handle w))
           (set_conf (set_delayedIceFailed (Some new_IceFailedHandling) (conf w)) w))
        [SetTimeout (next_handle w) (CbIceRestart session delay) delay]
    else
      Ok tt w
        [Log WARN
           "ICE failed, force reloading the conference after failed attempts to re-establish ICE";
         SendAnalytics "ACTION_JVB_ICE_FAILED";
         Emit (CONFERENCE_FAILED ICE_FAILED)].
Proof.
  intros Hp Hj Hsame.
  unfold _onIceConnectionFailed. mred. rewrite Hp, Hj. cbn [field_is_session]. rewrite Hsame.
  cbn [andb]. destruct (_iceRestarts (conf w) <? MAX_CONNECTION_RETRIES)%nat.
  - mred. unfold setTimeout. reflexivity.
  - mred. reflexivity.
Qed.

(** C4, as amended. An ICE failure reported for the current bridge session
    while fewer than [MAX_CONNECTION_RETRIES] restarts were performed
    schedules one delayed ICE restart and emits no failure. The delay is
    jittered and grows with the restarts performed: it is the base delay of
    one second doubled once per restart performed so far, plus the jitter
    drawn for it, so that with a jitter between nothing and the base delay
    itself the delay is at least a second and the delay after the next
    restart is no shorter. The event leaves the restart counter as it is; the counter
    is incremented when the scheduled task runs and starts the restart, and
    a failure after that restart is answered with twice the base delay or,
    when the counter has reached the maximum, with the fatal signal. Once the
    counter has reached the maximum nothing is scheduled any more: the call
    emits the conference-failed event with the reason ICE_FAILED, once, and
    leaves the conference as it was. *)
Theorem bridge_ice_failure_retries (w : World) (session j : JingleSessionPC) :
  isP2P session = false ->
  jvbJingleSession (conf w) = Some j ->
  same_session j session = true ->
  pending (next_handle w) w = false ->
  let o := _onIceConnectionFailed session w in
  let h := next_handle w in
  let n := _iceRestarts (conf w) in
  let base := (1000 * 2 ^ Z.of_nat n)%Z in
  let delay := (base + jitter base)%Z in
  let fatal :=
    [Log WARN
       "ICE failed, force reloading the conference after failed attempts to re-establish ICE";
     SendAnalytics "ACTION_JVB_ICE_FAILED";
     Emit (CONFERENCE_FAILED ICE_FAILED)] in
  ((0 <= jitter base <= base)%Z -> (0 <= jitter (2 * base))%Z ->
   (1000 <= delay <= 2 * base + jitter (2 * base))%Z)
  /\ returned o = Some tt
  /\ if (n <? MAX_CONNECTION_RETRIES)%nat then
       calls_of o = [SetTimeout h (CbIceRestart session delay) delay]
       /\ timers (world_of o) = timers w ++ [(h, CbIceRestart session delay)]
       /\ _iceRestarts (conf (world_of o)) = n
       /\ let o' := fire h (world_of o) in
          returned o' = Some tt
          /\ calls_of o' = [LogIceRestart delay; IceFailedHandling_start (sid session)]
          /\ _iceRestarts (conf (world_of o')) = S n
          /\ pending h (world_of o') = false
          /\ calls_of (_onIceConnectionFailed session (world_of o'))
             = if (S n <? MAX_CONNECTION_RETRIES)%nat then
                 [SetTimeout (Pos.succ h)
                    (CbIceRestart session (2 * base + jitter (2 * base)))
                    (2 * base + jitter (2 * base))]
               else fatal
     else
       calls_of o = fatal
       /\ existsb schedules_timer (calls_of o) = false
       /\ world_of o = w.
Proof.
  intros Hp Hj Hsame Hfresh o h n base delay fatal.
  split.
  { assert (Hpow : (0 < 2 ^ Z.of_nat n)%Z) by (apply Z.pow_pos_nonneg; lia).
    subst delay base. lia. }
  subst o h n fatal.
  rewrite (onIceConnectionFailed_bridge w session j Hp Hj Hsame).
  change (getJitterDelay (_iceRestarts (conf w)) 1000) with delay.
  destruct (_iceRestarts (conf w) <? MAX_CONNECTION_RETRIES)%nat;
    [|split; [reflexivity|]; split; [reflexivity|]; split; reflexivity].
  cbn zeta. cbn [returned calls_of world_of].
  split; [reflexivity|]. split; [reflexivity|]. split; [reflexivity|]. split; [reflexivity|].
  set (w1 := set_timers _ _ _).
  assert (Hfire : fire (next_handle w) w1
                  = Ok tt
                      (set_conf
                         (set_iceRestarts (S (_iceRestarts (conf w)))
                            (set_delayedIceFailed
                               (Some {| ifh_started := Some (sid session);
                                        ifh_canceled := false |})
                               (conf w)))
                         (set_timers
                            (List.filter (fun t => negb (Pos.eqb (fst t) (next_handle w)))
                               (timers w1))
                            (next_handle w1) w1))
                      [LogIceRestart delay; IceFailedHandling_start (sid session)]).
  { unfold fire. subst w1. cbn [timers set_conf set_timers].
    unfold pending in Hfresh.
    rewrite (find_last _ _ (next_handle w, CbIceRestart session delay) Hfresh)
      by (cbn; apply Pos.eqb_refl).
    unfold run_callback. mred. cbn. mred. reflexivity. }
  rewrite Hfire. cbn [returned calls_of world_of].
  split; [reflexivity|]. split; [reflexivity|]. split; [reflexivity|]. split.
  - unfold pending. subst w1. cbn. rewrite List.filter_app. cbn. rewrite Pos.eqb_refl. cbn.
    rewrite app_nil_r.
    destruct (find _ (List.filter _ (timers w))) as [[h' cb]|] eqn:Hf; [|reflexivity].
    apply find_some in Hf as [Hin Heq]. apply filter_In in Hin as [_ Hne].
    cbn in *. rewrite Heq in Hne. discriminate.
  - rewrite (onIceConnectionFailed_bridge _ session j Hp); [|exact Hj|exact Hsame].
    cbn [conf set_conf set_timers _iceRestarts set_iceRestarts].
    destruct (S (_iceRestarts (conf w)) <? MAX_CONNECTION_RETRIES)%nat; [|reflexivity].
    cbn zeta. cbn [calls_of next_handle set_conf set_timers]. subst w1.
    cbn [next_handle set_conf set_timers]. unfold getJitterDelay.
    replace (1000 * 2 ^ Z.of_nat (S (_iceRestarts (conf w))))%Z with (2 * base)%Z;
      [reflexivity|].
    subst base. rewrite Nat2Z.inj_succ, Z.pow_succ_r by lia. lia.
Qed.


(** ** Stopping and the deferred start *)

Lemma schedules_timer_track_calls (es : list Effect) :
  forallb is_track_call es = true -> existsb schedules_timer es = false.
Proof.
  apply track_calls_existsb. intros [] He; try discriminate; try reflexivity.
Qed.

(** Whatever the state of the sessions, [_stopP2PSession] terminates the
    P2P session at once and schedules nothing. *)
Lemma stopP2PSession_now (options : StopOptions) (w : World) (s : JingleSessionPC) :
  p2pJingleSession (conf w) = Some s ->
  let o := _stopP2PSession options w in
  returned o = Some tt
  /\ (exists sendSessionTerminate,
        In (SessionTerminate (sid s)
              (Some (default "success"%string (opt_reason options)))
              (Some (default "Turning off P2P session"%string (opt_reasonDescription options)))
              sendSessionTerminate) (calls_of o))
  /\ existsb schedules_timer (calls_of o) = false
  /\ timers (world_of o) = timers w
  /\ deferredStartP2PTask (conf (world_of o)) = deferredStartP2PTask (conf w)
  /\ p2pJingleSession (conf (world_of o)) = None
  /\ isP2PActive (conf (world_of o)) = false.
Proof.
  intros Hs o. subst o. unfold isP2PActive.
  destruct (p2p (conf w)) eqn:Hact.
  - destruct (is_set (jvbJingleSession (conf w))
              && negb (default false (opt_requestRestart options))) eqn:Hf.
    + apply andb_true_iff in Hf as [Hj Hrr]. apply negb_true_iff in Hrr.
      destruct (jvbJingleSession (conf w)) as [j|] eqn:Hj'; [|discriminate].
      erewrite stopP2PSession_fallback; [| exact Hs | exact Hact | exact Hj' | exact Hrr].
      cbn [returned calls_of world_of].
      split; [reflexivity|]. split.
      { eexists. right. apply in_or_app. right. right. left. reflexivity. }
      split.
      { cbn. rewrite !existsb_app. cbn.
        rewrite !schedules_timer_track_calls;
          [reflexivity | apply attach_tracks_calls_tracks | apply detach_tracks_calls_tracks]. }
      repeat split; reflexivity.
    + erewrite stopP2PSession_alone; [| exact Hs | exact Hact | exact Hf].
      cbn [returned calls_of world_of].
      split; [reflexivity|]. split.
      { eexists. apply in_or_app. right. right. left. reflexivity. }
      split.
      { rewrite !existsb_app. cbn.
        rewrite schedules_timer_track_calls; [reflexivity | apply detach_tracks_calls_tracks]. }
      repeat split; reflexivity.
  - erewrite stopP2PSession_pending; [| exact Hs | exact Hact].
    cbn [returned calls_of world_of].
    split; [reflexivity|]. split; [eexists; right; left; reflexivity|].
    split; [reflexivity|]. split; [reflexivity|]. split; [reflexivity|].
    split; [reflexivity | exact Hact].
Qed.

(** The re-evaluation when a P2P session exists and the conference should
    not be in P2P mode: a pending deferred start is cleared and the session
    is stopped. *)
Lemma maybeStartOrStopP2P_stop (userLeftEvent : bool) (w : World) (s : JingleSessionPC) :
  autoP2PDisabled (conf w) = false ->
  p2pJingleSession (conf w) = Some s ->
  _shouldBeInP2PMode (conf w) = false ->
  _maybeStartOrStopP2P userLeftEvent w
  = after_calls
      (match deferredStartP2PTask (conf w) with Some h => [ClearTimeout h] | None => [] end
       ++ if isInitiator s && (1 <? length (getParticipants (conf w)))%nat
          then [SendAnalytics "ACTION_P2P_SWITCH_TO_JVB"] else [])
      (_stopP2PSession no_options
         match deferredStartP2PTask (conf w) with
         | Some h =>
             set_conf (set_deferredStartP2PTask None (conf w))
               (set_timers (List.filter (fun t => negb (Pos.eqb (fst t) h)) (timers w))
                  (next_handle w) w)
         | None => w
         end).
Proof.
  intros Hg Hs Hp. unfold _maybeStartOrStopP2P. mred. rewrite Hg, Hp. cbn [negb andb].
  destruct (deferredStartP2PTask (conf w)) as [h|] eqn:Hd; cbn [is_set]; mred.
  - unfold _maybeClearDeferredStartP2P. mred. rewrite Hd. mred. unfold clearTimeout. mred.
    wred. rewrite Hs.
    destruct (isInitiator s && (1 <? length (getParticipants (conf w)))%nat); mred;
      match goal with |- context [_stopP2PSession ?o ?w'] =>
        destruct (_stopP2PSession o w') end; reflexivity.
  - rewrite Hs.
    destruct (isInitiator s && (1 <? length (getParticipants (conf w)))%nat); mred;
      match goal with |- context [_stopP2PSession ?o ?w'] =>
        destruct (_stopP2PSession o w') end; reflexivity.
Qed.

(** C5, as amended. When the re-evaluation finds that the existing P2P
    session should no longer run, for instance because a third participant
    joined, the session is stopped within that very call and nothing is
    scheduled. What is deferred, by [backToP2PDelay] seconds (5 unless
    configured), is the start of a new P2P session when the re-evaluation
    comes from a user-left event and the local endpoint is the initiator;
    the deferred start is cancelled by a later re-evaluation that finds the
    conference should not be in P2P mode. *)
Theorem stop_is_immediate_start_is_deferred
    (wStop wStart wCancel : World) (s : JingleSessionPC) (me : string)
    (peer : JitsiParticipant) (h : positive) (leftStop leftCancel : bool) :
  (* a P2P session that should no longer run *)
  autoP2PDisabled (conf wStop) = false ->
  p2pJingleSession (conf wStop) = Some s ->
  _shouldBeInP2PMode (conf wStop) = false ->
  (* a P2P session that could start, after a user left *)
  could_start_P2P (conf wStart) ->
  myUserId (conf wStart) = Some me ->
  getParticipants (conf wStart) = [peer] ->
  String.ltb me (getId peer) = true ->
  deferredStartP2PTask (conf wStart) = None ->
  (* a pending deferred start while the conference should leave P2P mode *)
  autoP2PDisabled (conf wCancel) = false ->
  deferredStartP2PTask (conf wCancel) = Some h ->
  _shouldBeInP2PMode (conf wCancel) = false ->
  let oStop := _maybeStartOrStopP2P leftStop wStop in
  let oStart := _maybeStartOrStopP2P true wStart in
  let oCancel := _maybeStartOrStopP2P leftCancel wCancel in
  (returned oStop = Some tt
   /\ (exists sendSessionTerminate,
         In (SessionTerminate (sid s) (Some "success"%string)
               (Some "Turning off P2P session"%string) sendSessionTerminate)
            (calls_of oStop))
   /\ existsb schedules_timer (calls_of oStop) = false
   /\ (forall t, In t (timers (world_of oStop)) -> In t (timers wStop))
   /\ p2pJingleSession (conf (world_of oStop)) = None
   /\ isP2PActive (conf (world_of oStop)) = false)
  /\ (calls_of oStart
      = [SetTimeout (next_handle wStart) (CbStartP2PSession (getJid peer))
           (backToP2PDelay (conf wStart) * 1000)]
      /\ deferredStartP2PTask (conf (world_of oStart)) = Some (next_handle wStart)
      /\ timers (world_of oStart)
         = timers wStart ++ [(next_handle wStart, CbStartP2PSession (getJid peer))]
      /\ p2pJingleSession (conf (world_of oStart)) = None
      /\ init_backToP2PDelay None = 5%Z)
  /\ (In (ClearTimeout h) (calls_of oCancel)
      /\ deferredStartP2PTask (conf (world_of oCancel)) = None
      /\ pending h (world_of oCancel) = false).
Proof.
  intros HgS HsS HpS HcT HmeT HpeersT HltT HdT HgC HdC HpC oStop oStart oCancel.
  split; [|split].
  - subst oStop. rewrite (maybeStartOrStopP2P_stop _ _ _ HgS HsS HpS).
    rewrite returned_after_calls, calls_after_calls, world_after_calls.
    match goal with |- context [_stopP2PSession no_options ?w'] =>
      destruct (stopP2PSession_now no_options w' s) as (Hr & Ht & Hn & Htm & _ & Hnone & Hact)
    end.
    { destruct (deferredStartP2PTask (conf wStop)); [cbn|]; exact HsS. }
    split; [exact Hr|]. split.
    { destruct Ht as [b Ht]. exists b. apply in_or_app. now right. }
    split.
    { rewrite !existsb_app, Hn.
      destruct (deferredStartP2PTask (conf wStop));
        destruct (isInitiator s && _); reflexivity. }
    split.
    { rewrite Htm. intros t Hin. destruct (deferredStartP2PTask (conf wStop)); [|exact Hin].
      cbn in Hin. now apply filter_In in Hin as [Hin _]. }
    split; assumption.
  - subst oStart. rewrite (election_decision _ _ _ _ HcT HmeT HpeersT).
    rewrite (ltb_asym _ _ HltT).
    destruct (String.eqb_spec me (getId peer)) as [He|_].
    { rewrite He, ltb_irrefl in HltT. discriminate. }
    rewrite HdT. cbn. destruct HcT as (_ & Hs & _). repeat split; try reflexivity. exact Hs.
  - subst oCancel.
    assert (Hpend : forall ts, is_set (find (fun t : positive * TimerCallback => Pos.eqb (fst t) h)
                      (List.filter (fun t => negb (Pos.eqb (fst t) h)) ts)) = false).
    { intros ts. destruct (find _ _) as [[h' cb]|] eqn:Hf; [|reflexivity].
      apply find_some in Hf as [Hin Heq]. apply filter_In in Hin as [_ Hne].
      cbn in *. rewrite Heq in Hne. discriminate. }
    destruct (p2pJingleSession (conf wCancel)) as [s'|] eqn:Hs'.
    + rewrite (maybeStartOrStopP2P_stop _ _ _ HgC Hs' HpC), HdC.
      rewrite calls_after_calls, world_after_calls.
      match goal with |- context [_stopP2PSession no_options ?w'] =>
        destruct (stopP2PSession_now no_options w' s' Hs')
          as (_ & _ & _ & Htm & Hdef & _ & _)
      end.
      split; [now left|]. split; [exact Hdef|]. unfold pending. rewrite Htm. apply Hpend.
    + unfold _maybeStartOrStopP2P. mred. rewrite HgC, HpC, HdC. cbn [negb andb is_set].
      mred. unfold _maybeClearDeferredStartP2P. mred. rewrite HdC. mred.
      unfold clearTimeout. mred. wred. rewrite Hs'. mred.
      split; [now left|]. split; [reflexivity|]. unfold pending. wred. apply Hpend.
Qed.

(** ** ICE established on the P2P session *)

Lemma ends_session_track_calls (i : nat) (es : list Effect) :
  forallb is_track_call es = true -> existsb (ends_session i) es = false.
Proof.
  apply track_calls_existsb. intros [] He; try discriminate; try reflexivity.
Qed.

(** The whole effect of [_onIceConnectionEstablished] for the current P2P
    session. *)
Lemma onIceConnectionEstablished_p2p (w : World) (jingleSession s : JingleSessionPC) :
  isP2P jingleSession = true ->
  p2pJingleSession (conf w) = Some s ->
  same_session s jingleSession = true ->
  let c := conf w in
  let jvb := jvbJingleSession c in
  let c1 := match jvb with
            | Some j => set_jvbEstablishmentDuration (establishmentDuration j)
                          (set_p2pEstablishmentDuration (establishmentDuration s) c)
            | None => set_p2pEstablishmentDuration (establishmentDuration s) c
            end in
  let c2 := if p2p c then c1 else set_dtmfManager None (set_p2p true c1) in
  let ps1 := match jvb with
             | Some j => detach_tracks (pc_getRemoteTracks j) (participants c)
             | None => participants c
             end in
  _onIceConnectionEstablished jingleSession w
  = Ok tt
      (set_conf (set_participants (attach_tracks true (pc_getRemoteTracks s) ps1) c2) w)
      ((if is_set (establishmentDuration s) && is_set (jvbEstablishmentDuration c1)
        then [SendAnalytics "ICE_ESTABLISHMENT_DURATION_DIFF"] else [])
       ++ (if p2p c then [Emit CONNECTION_ESTABLISHED]
           else [AddPermanentProperty "p2pFailed" false;
                 SessionSetP2pVideoTransferActive (sid s) (negb (Z.eqb (lastN c) 0));
                 Emit (P2P_STATUS true);
                 Emit (_MEDIA_SESSION_ACTIVE_CHANGED (Some (sid s)));
                 Emit (if isP2PConnectionInterrupted c then CONNECTION_INTERRUPTED
                       else CONNECTION_RESTORED)])
       ++ match jvb with
          | Some j => detach_tracks_calls (pc_getRemoteTracks j) (participants c)
          | None => []
          end
       ++ attach_tracks_calls true (pc_getRemoteTracks s) ps1
       ++ match jvb with
          | Some j => [SessionSetMediaTransferActive (sid j) false]
          | None => []
          end
       ++ [StartRemoteStats (sid s); SendAnalytics "ACTION_P2P_ESTABLISHED"]).
Proof.
  intros Hp Hs Hsame c jvb c1 c2 ps1. subst c jvb c1 c2 ps1.
  unfold _onIceConnectionEstablished. mred. rewrite Hs. mred. rewrite Hp.
  cbn [negb field_is_session]. rewrite Hsame. cbn [negb].
  unfold isP2PActive.
  destruct (jvbJingleSession (conf w)) as [j|] eqn:Hj; mred; wred;
    destruct (p2p (conf w)) eqn:Hact; cbn [Bool.eqb is_set];
    destruct (is_set (establishmentDuration s) && _); mred.
  all: try (rewrite setP2PStatus_same by (wred; exact Hact)).
  all: try (erewrite setP2PStatus_on; [| wred; exact Hact | wred; exact Hs]).
  all: unfold _removeRemoteJVBTracks, _addRemoteP2PTracks,
         _suspendMediaTransferForJvbConnection.
  all: repeat (progress (mred; wred; rewrite ?Hj, ?Hs, ?Hact, ?removeRemoteTracks_eq,
                           ?addRemoteTracks_eq)).
  all: cbn [app]; rewrite <- ?app_assoc; cbn [app]; rewrite ?app_nil_r; reflexivity.
Qed.

(** C6. When ICE is established on the current P2P session the conference
    becomes P2P-active, so that [isP2PActive] answers [true]; the remote
    tracks of the bridge session are taken away from the participants, the
    remote tracks of the P2P session are handed to their owners, and the
    media transfer of the bridge session is suspended with
    [setMediaTransferActive(false)] while the bridge session itself is
    neither terminated nor closed and stays stored in the conference. *)
Theorem p2p_established_takes_over (w : World) (jingleSession s : JingleSessionPC) :
  isP2P jingleSession = true ->
  p2pJingleSession (conf w) = Some s ->
  same_session s jingleSession = true ->
  let o := _onIceConnectionEstablished jingleSession w in
  returned o = Some tt
  /\ isP2PActive (conf (world_of o)) = true
  /\ p2pJingleSession (conf (world_of o)) = Some s
  /\ (forall t, In t (pc_getRemoteTracks s) -> track_isP2P t = true ->
        is_set (participants_get (ownerEndpointId t) (participants (conf w))) = true ->
        In (Emit (TRACK_ADDED (rtid t))) (calls_of o)
        /\ holds_track (participants (conf (world_of o))) (ownerEndpointId t) t)
  /\ (forall j, jvbJingleSession (conf w) = Some j ->
        In (SessionSetMediaTransferActive (sid j) false) (calls_of o)
        /\ existsb (ends_session (sid j)) (calls_of o) = false
        /\ jvbJingleSession (conf (world_of o)) = Some j
        /\ (forall t, In t (pc_getRemoteTracks j) -> holds (participants (conf w)) (rtid t) ->
              In (Emit (TRACK_REMOVED (rtid t))) (calls_of o))
        /\ (tracks_distinct (participants (conf w)) ->
            (forall t t', In t (pc_getRemoteTracks j) -> In t' (pc_getRemoteTracks s) ->
                          rtid t <> rtid t') ->
            forall t, In t (pc_getRemoteTracks j) ->
                      ~ holds (participants (conf (world_of o))) (rtid t))).
Proof.
  intros Hp Hs Hsame o. subst o.
  rewrite (onIceConnectionEstablished_p2p w jingleSession s Hp Hs Hsame).
  cbn [returned world_of calls_of]. wred.
  split; [reflexivity|]. split.
  { unfold isP2PActive. destruct (p2p (conf w)) eqn:Hact;
      destruct (jvbJingleSession (conf w)); wred; auto. }
  split.
  { destruct (p2p (conf w)); destruct (jvbJingleSession (conf w)); wred; exact Hs. }
  split.
  { intros t Hin Hflag Hown.
    match goal with |- context [attach_tracks true (pc_getRemoteTracks s) ?ps] =>
      destruct (attach_tracks_added true (pc_getRemoteTracks s) ps t Hin) as [Hc Hh]
    end.
    - rewrite <- Hown. apply in_roster_keys.
      destruct (jvbJingleSession (conf w)); [apply keys_detach_tracks | reflexivity].
    - exact Hflag.
    - split; [|exact Hh].
      apply in_or_app; right. apply in_or_app; right. apply in_or_app; right.
      apply in_or_app; left. exact Hc. }
  intros j Hj. rewrite Hj. split.
  { apply in_or_app; right. apply in_or_app; right. apply in_or_app; right.
    apply in_or_app; right. now left. }
  split.
  { rewrite !existsb_app.
    rewrite (ends_session_track_calls (sid j) _ (detach_tracks_calls_tracks _ _)).
    rewrite (ends_session_track_calls (sid j) _ (attach_tracks_calls_tracks _ _ _)).
    destruct (is_set (establishmentDuration s) && _); destruct (p2p (conf w)); reflexivity. }
  split.
  { destruct (p2p (conf w)); wred; exact Hj. }
  split.
  { intros t Hin Hh. apply in_or_app; right. apply in_or_app; right. apply in_or_app; left.
    now apply detach_tracks_emits. }
  intros Hd Hdisj t Hin Hh.
  apply holds_attach_tracks in Hh as [Hh|Hh].
  - now apply (detach_tracks_gone (pc_getRemoteTracks j) _ Hd t Hin).
  - apply in_map_iff in Hh as [t' [Heq Hin']]. now apply (Hdisj t t' Hin Hin').
Qed.

(** ** Incoming session-initiate *)

(** C7. A session-initiate that violates the protocol is rejected locally:
    the offending session is terminated with a reason, the rejection is
    logged as a warning, the conference is left as it was and no
    conference-failed event is emitted. The reason is 'decline' for a P2P
    offer of an endpoint in another SDP mode, for a P2P offer while P2P is
    disabled and for a P2P offer while the conference should not be in P2P
    mode; it is 'busy' for a P2P offer while a P2P session exists; it is
    'security-error' for a bridge offer whose sender is not the focus. *)
Theorem protocol_violations_rejected (w : World) (jingleSession : JingleSessionPC)
    (jingleOffer : JingleOffer) :
  let c := conf w in
  let o := onIncomingCall jingleSession jingleOffer w in
  (isP2P jingleSession = true
   /\ (peerUsesUnifiedPlan jingleOffer = false
       \/ p2p_disabled c = true
       \/ is_set (p2pJingleSession c) = true
       \/ _shouldBeInP2PMode c = false))
  \/ (isP2P jingleSession = false /\ isFocus c (remoteJid jingleSession) <> Some true) ->
  exists (analytics : list Effect) (msg reason description : string),
    o = Ok tt w (analytics
                 ++ [Log WARN msg;
                     SessionTerminate (sid jingleSession) (Some reason) (Some description) true])
    /\ existsb emits_conference_failed (calls_of o) = false
    /\ (analytics = [] \/ analytics = [SendAnalytics "ACTION_P2P_DECLINED"])
    /\ (isP2P jingleSession = false -> reason = "security-error"%string)
    /\ (isP2P jingleSession = true ->
        (peerUsesUnifiedPlan jingleOffer = false \/ p2p_disabled c = true ->
         reason = "decline"%string)
        /\ (peerUsesUnifiedPlan jingleOffer = true -> p2p_disabled c = false ->
            is_set (p2pJingleSession c) = true -> reason = "busy"%string)
        /\ (is_set (p2pJingleSession c) = false -> reason = "decline"%string)).
Proof.
  intros c o Hv. subst c o. unfold onIncomingCall.
  destruct (isP2P jingleSession) eqn:Hp.
  - destruct Hv as [[_ Hv]|[Hc _]]; [|discriminate].
    unfold _onIncomingCallP2P, _rejectIncomingCall, p2p_disabled in *. mred.
    destruct (peerUsesUnifiedPlan jingleOffer) eqn:Hu; cbn [negb].
    + destruct ((negb (isP2PEnabled (conf w)) && negb (isP2PTestModeEnabled (conf w)))
                || (browser_isFirefox && negb (_firefoxP2pEnabled (conf w)))) eqn:Hd.
      * mred. cbn. exists []. do 3 eexists. split; [reflexivity|]. split; [reflexivity|].
        split; [now left|]. split; [discriminate|]. intros _.
        split; [reflexivity|]. split; [discriminate | reflexivity].
      * destruct (is_set (p2pJingleSession (conf w))) eqn:Hs.
        -- mred. cbn. exists []. do 3 eexists. split; [reflexivity|]. split; [reflexivity|].
           split; [now left|]. split; [discriminate|]. intros _.
           split; [intros [?|?]; discriminate|]. split; [reflexivity | discriminate].
        -- destruct (_shouldBeInP2PMode (conf w)) eqn:Hm.
           ++ destruct Hv as [?|[?|[?|?]]]; discriminate.
           ++ mred. cbn. exists [SendAnalytics "ACTION_P2P_DECLINED"]. do 3 eexists.
              split; [reflexivity|]. split; [reflexivity|].
              split; [now right|]. split; [discriminate|]. intros _.
              split; [reflexivity|]. split; [discriminate | reflexivity].
    + mred. cbn. exists []. do 3 eexists. split; [reflexivity|]. split; [reflexivity|].
      split; [now left|]. split; [discriminate|]. intros _.
      split; [reflexivity|]. split; [discriminate | reflexivity].
  - destruct Hv as [[Hc _]|[_ Hf]]; [discriminate|].
    unfold _rejectIncomingCall. mred.
    assert (Ht : truthy (isFocus (conf w) (remoteJid jingleSession)) = false).
    { destruct (isFocus (conf w) (remoteJid jingleSession)) as [[]|]; [congruence | |]; reflexivity. }
    rewrite Ht. mred. cbn. exists []. do 3 eexists. split; [reflexivity|]. split; [reflexivity|].
    split; [now left|]. split; [reflexivity | discriminate].
Qed.

(** ** Presence *)

Lemma set_signaling_same (w : World) : set_signaling (signaling w) w = w.
Proof. destruct w; reflexivity. Qed.

Lemma truthy_js_or (a b : option bool) : truthy (js_or a b) = truthy a || truthy b.
Proof. unfold js_or. destruct (truthy a) eqn:Ha; [rewrite Ha|]; reflexivity. Qed.

Lemma pass_changes_split (ts : list JitsiLocalTrack) (sg : SignalingLayer) :
  pass_changes ts sg = true <->
  exists before t after,
    ts = before ++ t :: after
    /\ change_advertised t (signaling_after before sg) = true.
Proof.
  revert sg. induction ts as [|t ts IH]; intros sg; cbn [pass_changes].
  - split; [discriminate | intros ([|? ?] & t & after & Heq & _); discriminate].
  - rewrite orb_true_iff, IH. split.
    + intros [Hc | (before & t' & after & -> & Hc)].
      * exists [], t, ts. split; [reflexivity | exact Hc].
      * exists (t :: before), t', after. split; [reflexivity | exact Hc].
    + intros ([|x before] & t' & after & Heq & Hc); injection Heq as <- ->.
      * left. exact Hc.
      * right. exists before, t', after. split; [reflexivity | exact Hc].
Qed.

(** The loop over the local tracks touches the signaling layer only and
    makes no call; it reports a change exactly when it was handed one or the
    signaling layer reported one for some track of the pass. *)
Lemma updateTracksPresence_spec (ts : list JitsiLocalTrack) :
  forall (presenceChanged videoTypeChanged : option bool) (w : World),
  exists b : option bool,
    updateTracksPresence ts presenceChanged videoTypeChanged w
    = Ok b (set_signaling (signaling_after ts (signaling w)) w) []
    /\ (truthy b = true ->
        truthy presenceChanged = true \/ truthy videoTypeChanged = true
        \/ pass_changes ts (signaling w) = true)
    /\ (truthy presenceChanged = true \/ pass_changes ts (signaling w) = true ->
        truthy b = true).
Proof.
  induction ts as [|t ts IH]; intros pc vc w.
  - exists pc. cbn [updateTracksPresence signaling_after pass_changes].
    rewrite set_signaling_same. split; [reflexivity|]. split; [now left|].
    intros [Hp|Hp]; [exact Hp | discriminate].
  - cbn [updateTracksPresence]. unfold _setTrackMuteStatus, _setNewVideoType. mred.
    cbn [pass_changes signaling_after]. unfold change_advertised.
    set (m := setTrackMuteStatus (getSourceName t) (isMuted t) (signaling w)).
    destruct (MediaType_eqb (getType t) VIDEO) eqn:Hv; mred; cbn [andb fst snd signaling set_signaling].
    + set (v := setTrackVideoType (getSourceName t) (getVideoType t) (snd m)).
      match goal with |- context [updateTracksPresence ts ?p ?q ?w'] =>
        destruct (IH p q w') as (b & Heq & Hb1 & Hb2); rewrite Heq end.
      exists b. cbn [signaling set_signaling] in *. split.
      * first [reflexivity | f_equal; destruct w; reflexivity].
      * rewrite !truthy_js_or in *. cbn [truthy] in *.
        destruct (fst m), (fst v), (truthy pc), (truthy vc), (truthy b),
          (pass_changes ts (snd v)); cbn in *; intuition congruence.
    + match goal with |- context [updateTracksPresence ts ?p ?q ?w'] =>
        destruct (IH p q w') as (b & Heq & Hb1 & Hb2); rewrite Heq end.
      exists b. cbn [signaling set_signaling] in *. split.
      * first [reflexivity | f_equal; destruct w; reflexivity].
      * rewrite !truthy_js_or in *. cbn [truthy] in *.
        destruct (fst m), (truthy pc), (truthy vc), (truthy b),
          (pass_changes ts (snd m)); cbn in *; intuition congruence.
Qed.

Lemma ChatRoom_sendPresence_calls (r : ChatRoom) (w : World) :
  exists es, ChatRoom_sendPresence r w = Ok tt w es
             /\ (es = [] \/ exists to, es = [SendPresenceStanza to]).
Proof.
  unfold ChatRoom_sendPresence. destruct (presMap_to r) as [to|]; [|exists []; now split; [|left]].
  destruct (negb (connection_connected r) || negb (joined r)).
  - exists []. split; [reflexivity | now left].
  - exists [SendPresenceStanza to]. split; [reflexivity | right; now exists to].
Qed.

(** What [_updateRoomPresence] does for a session when the context, if one
    is given, is not marked yet. *)
Lemma updateRoomPresence_pass (s : JingleSessionPC) (c : option nat) (w : World) :
  (forall x, c = Some x -> ctx_skip x w = false) ->
  let w1 := match c with
            | Some x => set_heap (<[x := {| skip := Some true |}]> (heap w)) w
            | None => w
            end in
  let w2 := set_signaling (signaling_after (pc_getLocalTracks s) (signaling w)) w1 in
  _updateRoomPresence (Some s) c w
  = if pass_changes (pc_getLocalTracks s) (signaling w) then
      match room (conf w) with
      | Some r => ChatRoom_sendPresence r w2
      | None => Throw "TypeError: this.room is null" w2 []
      end
    else Ok tt w2 [].
Proof.
  intros Hskip w1 w2. unfold _updateRoomPresence.
  destruct c as [x|]; [rewrite bind_eq; cbn beta; rewrite (Hskip x eq_refl)|]; mred.
  all: match goal with |- context [updateTracksPresence ?ts ?p ?q ?w'] =>
         destruct (updateTracksPresence_spec ts p q w') as (b & Heq & Hb1 & Hb2); rewrite Heq
       end.
  all: mred; cbn [signaling set_heap] in *; subst w2 w1.
  all: destruct (pass_changes (pc_getLocalTracks s) (signaling w)) eqn:Hp.
  all: try (rewrite Hb2 by now right); mred; wred.
  all: try (destruct (room (conf w)) as [r|]; mred;
            [destruct (ChatRoom_sendPresence r _); reflexivity | reflexivity]).
  all: destruct (truthy b) eqn:Hb; [|reflexivity].
  all: destruct (Hb1 eq_refl) as [Hx|[Hx|Hx]]; discriminate.
Qed.

(** C8. The pass that updates the room presence runs once per context
    object: the first call with a session marks the context as skipped, and
    any later call with that context returns at once, sends no presence and
    changes nothing. A presence packet is sent only when, in that very call,
    the signaling layer reported for some local track of the session that
    its advertised mute status or video type changed, the tracks being
    advertised in their order; a pass in which nothing changed makes no call
    at all, and a pass in which something changed sends one packet when the
    room is connected and joined. *)
Theorem updateRoomPresence_once_per_context (w : World) (session : JingleSessionPC)
    (ctx : nat) :
  let first := _updateRoomPresence (Some session) (Some ctx) w in
  ctx_skip ctx (world_of first) = true
  /\ (forall again : option JingleSessionPC,
        _updateRoomPresence again (Some ctx) (world_of first) = Ok tt (world_of first) [])
  /\ (forall (s : option JingleSessionPC) (c : option nat) (w0 : World),
        existsb sends_presence (calls_of (_updateRoomPresence s c w0)) = true ->
        exists s' before t after,
          s = Some s'
          /\ pc_getLocalTracks s' = before ++ t :: after
          /\ change_advertised t (signaling_after before (signaling w0)) = true)
  /\ (forall (s' : JingleSessionPC) (c : option nat) (w0 : World),
        pass_changes (pc_getLocalTracks s') (signaling w0) = false ->
        calls_of (_updateRoomPresence (Some s') c w0) = [])
  /\ (forall (s' : JingleSessionPC) (c : option nat) (w0 : World) (r : ChatRoom)
        (to : string),
        (forall x, c = Some x -> ctx_skip x w0 = false) ->
        pass_changes (pc_getLocalTracks s') (signaling w0) = true ->
        room (conf w0) = Some r -> presMap_to r = Some to ->
        connection_connected r = true -> joined r = true ->
        calls_of (_updateRoomPresence (Some s') c w0) = [SendPresenceStanza to]).
Proof.
  intros first.
  assert (Hskipped : forall (s : option JingleSessionPC) (x : nat) (w0 : World),
            ctx_skip x w0 = true -> _updateRoomPresence s (Some x) w0 = Ok tt w0 []).
  { intros [s|] x w0 Hx; [|reflexivity]. unfold _updateRoomPresence. mred. rewrite Hx.
    reflexivity. }
  assert (Hskip : ctx_skip ctx (world_of first) = true).
  { subst first. destruct (ctx_skip ctx w) eqn:Hc.
    - rewrite (Hskipped _ _ _ Hc). exact Hc.
    - rewrite (updateRoomPresence_pass session (Some ctx) w)
        by (intros x Hx; injection Hx as <-; exact Hc).
      cbn zeta.
      assert (Hnow : forall sg, ctx_skip ctx
                (set_signaling sg (set_heap (<[ctx:={| skip := Some true |}]> (heap w)) w))
                = true).
      { intros sg. unfold ctx_skip. cbn. now rewrite lookup_insert_eq. }
      destruct (pass_changes _ _); [|apply Hnow].
      destruct (room (conf w)) as [r|]; [|apply Hnow].
      match goal with |- context [ChatRoom_sendPresence r ?w1] =>
        destruct (ChatRoom_sendPresence_calls r w1) as (es & Heq' & _); rewrite Heq' end.
      apply Hnow. }
  split; [exact Hskip|]. split; [intros again; apply Hskipped; exact Hskip|].
  assert (Hquiet : forall (s' : JingleSessionPC) (c : option nat) (w0 : World),
            pass_changes (pc_getLocalTracks s') (signaling w0) = false ->
            calls_of (_updateRoomPresence (Some s') c w0) = []).
  { intros s' c w0 Hp.
    destruct c as [x|]; [destruct (ctx_skip x w0) eqn:Hx|].
    - rewrite (Hskipped _ _ _ Hx). reflexivity.
    - rewrite (updateRoomPresence_pass s' (Some x) w0)
        by (intros y Hy; injection Hy as <-; exact Hx).
      cbn zeta. rewrite Hp. reflexivity.
    - rewrite (updateRoomPresence_pass s' None w0) by discriminate.
      cbn zeta. rewrite Hp. reflexivity. }
  split; [|split; [exact Hquiet|]].
  - intros [s'|] c w0 Hsent; [|discriminate].
    destruct (pass_changes (pc_getLocalTracks s') (signaling w0)) eqn:Hp.
    + apply pass_changes_split in Hp as (before & t & after & Heq & Hc).
      exists s', before, t, after. repeat split; assumption.
    + rewrite (Hquiet s' c w0 Hp) in Hsent. discriminate.
  - intros s' c w0 r to Hc Hp Hr Hto Hcon Hj.
    rewrite (updateRoomPresence_pass s' c w0 Hc). cbn zeta. rewrite Hp, Hr.
    unfold ChatRoom_sendPresence. rewrite Hto, Hcon, Hj. reflexivity.
Qed.

(** ** Leaving *)

Lemma set_rtc_localTracks_same (w : World) :
  set_conf (set_rtc_localTracks (rtc_localTracks (conf w)) (conf w)) w = w.
Proof. destruct w as [c ? ? ? ? ?]. destruct c. reflexivity. Qed.

Lemma onLocalTrackRemoved_eq (t : JitsiLocalTrack) (w : World) :
  onLocalTrackRemoved t w
  = Ok tt (set_conf (set_rtc_localTracks (removeLocalTrack (tid t) (rtc_localTracks (conf w)))
                       (conf w)) w)
      [LocalTrackDetach (tid t); Emit (LOCAL_TRACK_REMOVED (tid t))].
Proof. unfold onLocalTrackRemoved. mdone. Qed.

Lemma forEach_onLocalTrackRemoved (ts : list JitsiLocalTrack) (w : World) :
  for_each ts onLocalTrackRemoved w
  = Ok tt (set_conf (set_rtc_localTracks (detach_local ts (rtc_localTracks (conf w))) (conf w)) w)
      (detach_local_calls ts).
Proof.
  revert w. induction ts as [|t ts IH]; intros w.
  - cbn. rewrite set_rtc_localTracks_same. reflexivity.
  - cbn [for_each]. rewrite bind_eq, onLocalTrackRemoved_eq. mred. rewrite IH. mdone.
Qed.

Lemma not_pending_after_clear (h : positive) (ts : list (positive * TimerCallback)) :
  is_set (find (fun t : positive * TimerCallback => Pos.eqb (fst t) h)
            (List.filter (fun t => negb (Pos.eqb (fst t) h)) ts)) = false.
Proof.
  destruct (find _ _) as [[h' cb]|] eqn:Hf; [|reflexivity].
  apply find_some in Hf as [Hin Heq]. apply filter_In in Hin as [_ Hne].
  cbn in *. rewrite Heq in Hne. discriminate.
Qed.

Lemma still_pending_after_clear (h : positive) (t : positive * TimerCallback)
    (ts : list (positive * TimerCallback)) :
  In t ts -> fst t <> h -> In t (List.filter (fun t => negb (Pos.eqb (fst t) h)) ts).
Proof.
  intros Hin Hne. apply filter_In. split; [exact Hin|].
  apply negb_true_iff. now apply Pos.eqb_neq.
Qed.

(** What [leave] does before it yields: it cancels the pending handling of
    an ICE failure, clears the session-initiate timeout when a bridge session
    exists or fewer than two participants are counted, closes the bridge and
    the P2P session, leaving both references [null], and forgets the room.
    It calls neither [_maybeClearDeferredStartP2P] nor [clearTimeout] for any
    other timer. *)
Lemma leave_closes_sessions (w : World) (reason : option string) :
  let o := leave reason w in
  let c := conf w in
  let c' := conf (world_of o) in
  returned o = Some tt
  /\ jvbJingleSession c' = None
  /\ p2pJingleSession c' = None
  /\ room c' = None
  /\ (forall s, jvbJingleSession c = Some s -> In (SessionClose (sid s)) (calls_of o))
  /\ (forall s, p2pJingleSession c = Some s -> In (SessionClose (sid s)) (calls_of o))
  /\ (forall i, _delayedIceFailed c = Some i ->
        In IceFailedHandling_cancel (calls_of o)
        /\ option_map ifh_canceled (_delayedIceFailed c') = Some true)
  /\ (forall h, _sessionInitiateTimeout c = Some h ->
        is_set (jvbJingleSession c) || (getParticipantCount c <? 2)%nat = true ->
        In (ClearTimeout h) (calls_of o) /\ pending h (world_of o) = false
        /\ _sessionInitiateTimeout c' = None)
  /\ deferredStartP2PTask c' = deferredStartP2PTask c
  /\ (forall t, In t (timers w) -> Some (fst t) <> _sessionInitiateTimeout c ->
        In t (timers (world_of o))).
Proof.
  intros o c c'. subst o c c'. unfold leave. mred.
  destruct (avgRtpStatsReporter (conf w)); destruct (e2eping (conf w)); mred.
  all: rewrite forEach_onLocalTrackRemoved; mred; wred.
  all: unfold cancel_delayedIceFailed; mred; wred.
  all: destruct (_delayedIceFailed (conf w)) as [i|] eqn:Hi; mred; wred.
  all: unfold _maybeClearSITimeout, getParticipantCount, getParticipants; mred; wred.
  all: destruct (_sessionInitiateTimeout (conf w)) as [h|] eqn:Hh; mred; wred.
  all: try (destruct (is_set (jvbJingleSession (conf w))
                      || (length (List.filter (fun p => negb (participant_isHidden p))
                                    (map snd (participants (conf w)))) + 1 <? 2)%nat) eqn:Hc;
            unfold clearTimeout; mred; wred).
  all: destruct (jvbJingleSession (conf w)) as [j|] eqn:Hj; mred; wred.
  all: destruct (p2pJingleSession (conf w)) as [s|] eqn:Hs; mred; wred.
  all: destruct (room (conf w)) as [r|] eqn:Hr; mred; wred.
  all: repeat match goal with
         | |- _ /\ _ => split
         | |- forall _, _ => intro
         end; try discriminate; try reflexivity; try assumption.
  all: try in_calls.
  all: try (unfold pending; wred; apply not_pending_after_clear).
  all: try match goal with
         | Heq : Some _ = Some _ |- _ => injection Heq as <-
         end; try in_calls.
  all: try (unfold pending; wred; apply not_pending_after_clear).
  all: try (apply still_pending_after_clear; [assumption | congruence]).
Qed.

(** ** Adding a local track *)

Lemma optVideoType_eqb_refl (v : option VideoType) : optVideoType_eqb v v = true.
Proof. destruct v as [[]|]; reflexivity. Qed.

(** [addTrack] recognises a track that was added before only when it is the
    first local track of its media type: for that track it returns a promise
    resolved with the track and calls nothing. A track that is among the
    local tracks of its type without being the first one reaches the
    add/reject logic: it is rejected as a second track or, when several
    tracks are allowed, added to the media sessions once more. *)
Lemma addTrack_existing_track (w : World) (track first : JitsiLocalTrack)
    (rest : list JitsiLocalTrack) :
  getLocalTracks (conf w) (Some (getType track)) = first :: rest ->
  (tid track = tid first ->
   addTrack (Some track) w = Ok (Promise_resolve (Some (tid track))) w [])
  /\ (tid track <> tid first -> In track rest ->
      if cfg_allowMultipleTracks (config (conf w)) then
        exists sessions calls,
          addTrack (Some track) w
          = Ok (Promise_then (Promise_all sessions) AfterAddTracks) w
              (TrackSetSourceName (tid track)
                 (Some (getSourceNameForJitsiTrack (myUserId (conf w)) (getType track)
                          (S (length rest))))
               :: calls)
          /\ (forall s, jvbJingleSession (conf w) = Some s ->
                In (SessionAddTracks (sid s) [tid track]) calls)
          /\ (forall s, p2pJingleSession (conf w) = Some s ->
                In (SessionAddTracks (sid s) [tid track]) calls)
      else
        addTrack (Some track) w
        = Ok (Promise_reject ("Cannot add second " ++ MediaType_toString (getType track)
                              ++ " track to the conference")%string) w []).
Proof.
  intros Hl. split.
  - intros Hsame. unfold addTrack. mred. rewrite Hl, Hsame, Nat.eqb_refl. reflexivity.
  - intros Hne Hin. unfold addTrack. mred. rewrite Hl.
    destruct (Nat.eqb_spec (tid track) (tid first)) as [He|_]; [contradiction|].
    destruct (cfg_allowMultipleTracks (config (conf w))); cbn [orb].
    + mred. cbn [length].
      destruct (p2pJingleSession (conf w)) as [p|];
        destruct (jvbJingleSession (conf w)) as [j|]; mred;
        eexists; eexists; (split; [reflexivity|]); split; intros s Hs;
        try discriminate; injection Hs as <-; in_calls.
    + assert (Hfound : is_set (find (fun t => optVideoType_eqb (getVideoType t)
                                               (getVideoType track)) (first :: rest)) = true).
      { destruct (find _ (first :: rest)) eqn:Hf; [reflexivity|].
        pose proof (find_none _ _ Hf track (or_intror Hin)) as Hno. cbn beta in Hno.
        rewrite optVideoType_eqb_refl in Hno. discriminate. }
      rewrite Hfound. cbn [negb andb]. rewrite andb_false_r. reflexivity.
Qed.

(** ** Further properties of the conference *)

(** A P2P offer is accepted exactly when it breaks none of the rules: the
    peer uses unified plan, P2P is not disabled, no P2P session exists and
    the conference should be in P2P mode. The session then becomes the P2P
    session of the conference and its offer is accepted with all local
    tracks, while the conference is not yet P2P-active; otherwise the
    session is terminated and the conference stays as it was. *)
Theorem p2p_offer_accepted_iff (w : World) (jingleSession : JingleSessionPC)
    (jingleOffer : JingleOffer) :
  isP2P jingleSession = true ->
  let c := conf w in
  let o := onIncomingCall jingleSession jingleOffer w in
  let welcome :=
    peerUsesUnifiedPlan jingleOffer && negb (p2p_disabled c)
    && negb (is_set (p2pJingleSession c)) && _shouldBeInP2PMode c in
  existsb (accepts_offer (sid jingleSession)) (calls_of o) = welcome
  /\ (welcome = true ->
      o = Ok tt
            (set_conf (set_p2pJingleSession (Some jingleSession)
                         (set_isP2PConnectionInterrupted false c)) w)
            [ConferenceJoinAnalytics;
             SessionInitialize (sid jingleSession) "p2p";
             SessionAcceptOffer (sid jingleSession) (map tid (rtc_localTracks c))])
  /\ (welcome = false ->
      world_of o = w
      /\ existsb (ends_session (sid jingleSession)) (calls_of o) = true).
Proof.
  intros Hp c o welcome. subst c o welcome.
  unfold onIncomingCall. rewrite Hp. unfold _onIncomingCallP2P, p2p_disabled. mred.
  destruct (peerUsesUnifiedPlan jingleOffer); cbn [negb andb].
  2: { unfold _rejectIncomingCall. mred. cbn. rewrite Nat.eqb_refl.
       repeat split; discriminate || reflexivity. }
  destruct ((negb (isP2PEnabled (conf w)) && negb (isP2PTestModeEnabled (conf w)))
            || (browser_isFirefox && negb (_firefoxP2pEnabled (conf w)))); cbn [negb andb].
  { unfold _rejectIncomingCall. mred. cbn. rewrite Nat.eqb_refl.
    repeat split; discriminate || reflexivity. }
  destruct (p2pJingleSession (conf w)) as [s|] eqn:Es; cbn [is_set negb andb].
  { unfold _rejectIncomingCall. mred. cbn. rewrite Nat.eqb_refl.
    repeat split; discriminate || reflexivity. }
  destruct (_shouldBeInP2PMode (conf w)); cbn [negb].
  - unfold _acceptP2PIncomingCall. mred. wred. cbn [existsb accepts_offer orb].
    rewrite Nat.eqb_refl. split; [reflexivity|]. split; [|discriminate].
    intros _. reflexivity.
  - unfold _rejectIncomingCall. mred. cbn. rewrite Nat.eqb_refl.
    repeat split; discriminate || reflexivity.
Qed.

Lemma maybeSetSITimeout_eq (w : World) :
  _maybeSetSITimeout w
  = if negb (is_set (jvbJingleSession (conf w))) && (2 <=? getParticipantCount (conf w))%nat
       && negb (is_set (_sessionInitiateTimeout (conf w)))
    then Ok tt
           (set_conf (set_sessionInitiateTimeout (Some (next_handle w)) (conf w))
              (set_timers (timers w ++ [(next_handle w, CbSessionInitiateTimeout)])
                 (Pos.succ (next_handle w)) w))
           [SetTimeout (next_handle w) CbSessionInitiateTimeout JINGLE_SI_TIMEOUT]
    else Ok tt w [].
Proof.
  unfold _maybeSetSITimeout. mred.
  destruct (negb (is_set (jvbJingleSession (conf w)))
            && (2 <=? getParticipantCount (conf w))%nat
            && negb (is_set (_sessionInitiateTimeout (conf w)))); [|reflexivity].
  unfold setTimeout. mred. reflexivity.
Qed.

Lemma maybeClearSITimeout_eq (w : World) :
  _maybeClearSITimeout w
  = match _sessionInitiateTimeout (conf w) with
    | Some h =>
        if is_set (jvbJingleSession (conf w)) || (getParticipantCount (conf w) <? 2)%nat
        then Ok tt
               (set_conf (set_sessionInitiateTimeout None (conf w))
                  (set_timers (List.filter (fun t => negb (Pos.eqb (fst t) h)) (timers w))
                     (next_handle w) w))
               [ClearTimeout h]
        else Ok tt w []
    | None => Ok tt w []
    end.
Proof.
  unfold _maybeClearSITimeout. mred.
  destruct (_sessionInitiateTimeout (conf w)) as [h|]; [|reflexivity].
  destruct (is_set (jvbJingleSession (conf w)) || (getParticipantCount (conf w) <? 2)%nat);
    [|reflexivity].
  unfold clearTimeout. mred. reflexivity.
Qed.

(** The session-initiate timeout is armed at most once: [_maybeSetSITimeout]
    schedules the timer only while there is no bridge session, at least two
    participants are counted and no timeout is armed, and a second call
    schedules nothing. An armed timeout is not touched by
    [_maybeClearSITimeout] as long as that situation lasts; when the timer
    fires the timeout is reported to the analytics and the field is
    cleared. *)
Theorem session_initiate_timeout_once (w : World) :
  pending (next_handle w) w = false ->
  let c := conf w in
  let h := next_handle w in
  let o := _maybeSetSITimeout w in
  let w' := world_of o in
  let due :=
    negb (is_set (jvbJingleSession c)) && (2 <=? getParticipantCount c)%nat
    && negb (is_set (_sessionInitiateTimeout c)) in
  returned o = Some tt
  /\ calls_of o
     = (if due then [SetTimeout h CbSessionInitiateTimeout JINGLE_SI_TIMEOUT] else [])
  /\ (due = false -> w' = w)
  /\ _maybeSetSITimeout w' = Ok tt w' []
  /\ (due = true ->
      _sessionInitiateTimeout (conf w') = Some h
      /\ pending h w' = true
      /\ _maybeClearSITimeout w' = Ok tt w' []
      /\ let o' := fire h w' in
         returned o' = Some tt
         /\ calls_of o' = [SendAnalytics "ACTION_JINGLE_SI_TIMEOUT"]
         /\ _sessionInitiateTimeout (conf (world_of o')) = None
         /\ pending h (world_of o') = false).
Proof.
  intros Hfresh c h o w' due. subst c h o w' due.
  rewrite (maybeSetSITimeout_eq w).
  destruct (negb (is_set (jvbJingleSession (conf w)))
            && (2 <=? getParticipantCount (conf w))%nat
            && negb (is_set (_sessionInitiateTimeout (conf w)))) eqn:Edue;
    cbn [returned calls_of world_of].
  - apply andb_true_iff in Edue as [Edue Et]. apply andb_true_iff in Edue as [Ej Ec].
    assert (Hcount : forall v,
               getParticipantCount (set_sessionInitiateTimeout v (conf w))
               = getParticipantCount (conf w)) by reflexivity.
    split; [reflexivity|]. split; [reflexivity|]. split; [discriminate|].
    split.
    { rewrite maybeSetSITimeout_eq. wred. cbn [is_set negb]. rewrite andb_false_r.
      reflexivity. }
    intros _. split; [reflexivity|].
    unfold pending in *. wred.
    rewrite (find_last _ _ (next_handle w, CbSessionInitiateTimeout) Hfresh)
      by (cbn; apply Pos.eqb_refl).
    split; [reflexivity|]. split.
    { rewrite maybeClearSITimeout_eq. wred. rewrite Hcount.
      apply negb_true_iff in Ej. rewrite Ej. cbn [orb].
      apply Nat.leb_le in Ec. destruct (Nat.ltb_spec (getParticipantCount (conf w)) 2); [lia|].
      reflexivity. }
    unfold fire. wred.
    rewrite (find_last _ _ (next_handle w, CbSessionInitiateTimeout) Hfresh)
      by (cbn; apply Pos.eqb_refl).
    unfold run_callback. mred. wred.
    split; [reflexivity|]. split; [reflexivity|]. split; [reflexivity|].
    apply not_pending_after_clear.
  - split; [reflexivity|]. split; [reflexivity|]. split; [reflexivity|].
    split; [|discriminate]. rewrite maybeSetSITimeout_eq, Edue. reflexivity.
Qed.

Lemma onIceConnectionInterrupted_eq (session : JingleSessionPC) (w : World) :
  _onIceConnectionInterrupted session w
  = Ok tt
      (set_conf (if isP2P session then set_isP2PConnectionInterrupted true (conf w)
                 else set_isJvbConnectionInterrupted true (conf w)) w)
      (if Bool.eqb (isP2P session) (p2p (conf w)) then [Emit CONNECTION_INTERRUPTED] else []).
Proof.
  unfold _onIceConnectionInterrupted, isP2PActive. destruct (isP2P session); mred; wred;
    destruct (p2p (conf w)); reflexivity.
Qed.

Lemma onIceConnectionRestored_eq (session : JingleSessionPC) (w : World) :
  _onIceConnectionRestored session w
  = Ok tt
      (set_conf
         (if isP2P session then set_isP2PConnectionInterrupted false (conf w)
          else match _delayedIceFailed (conf w) with
               | Some i =>
                   set_delayedIceFailed
                     (Some {| ifh_started := ifh_started i; ifh_canceled := true |})
                     (set_isJvbConnectionInterrupted false (conf w))
               | None => set_isJvbConnectionInterrupted false (conf w)
               end) w)
      ((if isP2P session then []
        else if is_set (_delayedIceFailed (conf w)) then [IceFailedHandling_cancel] else [])
       ++ if Bool.eqb (isP2P session) (p2p (conf w)) then [Emit CONNECTION_RESTORED] else []).
Proof.
  unfold _onIceConnectionRestored, isP2PActive, cancel_delayedIceFailed.
  destruct (isP2P session); mred; wred.
  - destruct (p2p (conf w)); reflexivity.
  - destruct (_delayedIceFailed (conf w)); mred; wred; destruct (p2p (conf w)); reflexivity.
Qed.

(** An interruption of the ICE connection is reported at once, with
    CONNECTION_INTERRUPTED, only when it hits the kind of session that is
    active; then [isConnectionInterrupted] answers true until the
    connection of that kind is restored, which is reported with
    CONNECTION_RESTORED. An interruption of the other session is only
    remembered: it changes neither the answer nor emits an event, and when
    the bridge was interrupted during P2P, the switch back to the bridge
    announces it. *)
Theorem connection_interruption_reported (w : World) (session : JingleSessionPC) :
  let active := Bool.eqb (isP2P session) (isP2PActive (conf w)) in
  let o1 := _onIceConnectionInterrupted session w in
  let o2 := _onIceConnectionRestored session (world_of o1) in
  returned o1 = Some tt
  /\ calls_of o1 = (if active then [Emit CONNECTION_INTERRUPTED] else [])
  /\ interrupted_flag (isP2P session) (conf (world_of o1)) = true
  /\ isConnectionInterrupted (conf (world_of o1))
     = (if active then true else isConnectionInterrupted (conf w))
  /\ returned o2 = Some tt
  /\ existsb (fun e => match e with Emit CONNECTION_RESTORED => true | _ => false end)
       (calls_of o2) = active
  /\ interrupted_flag (isP2P session) (conf (world_of o2)) = false
  /\ isConnectionInterrupted (conf (world_of o2))
     = (if active then false else isConnectionInterrupted (conf w))
  /\ (isP2P session = false -> isP2PActive (conf w) = true ->
      In (Emit CONNECTION_INTERRUPTED) (calls_of (_setP2PStatus false (world_of o1)))).
Proof.
  cbn zeta. rewrite onIceConnectionInterrupted_eq. cbn [world_of returned calls_of].
  rewrite onIceConnectionRestored_eq. cbn [world_of returned calls_of].
  unfold isP2PActive, isConnectionInterrupted, interrupted_flag, isP2PActive.
  destruct (isP2P session) eqn:Hp; wred;
    [|destruct (_delayedIceFailed (conf w)) eqn:Ed; wred];
    destruct (p2p (conf w)) eqn:Ha; wred; rewrite ?Ha;
    cbn [Bool.eqb existsb orb app is_set];
    repeat split; try reflexivity; try discriminate.
  all: rewrite setP2PStatus_off by (wred; exact Ha); wred; cbn; tauto.
Qed.

Lemma set_tracks_same (p : JitsiParticipant) : set_tracks (_tracks p) p = p.
Proof. destruct p. reflexivity. Qed.

Lemma splice_first_last (t : JitsiRemoteTrack) (ts : list JitsiRemoteTrack) :
  ~ In (rtid t) (map rtid ts) -> splice_first (rtid t) (ts ++ [t]) = Some ts.
Proof.
  induction ts as [|x ts IH]; cbn [app splice_first map In]; intros Hni.
  - rewrite Nat.eqb_refl. reflexivity.
  - destruct (Nat.eqb_spec (rtid x) (rtid t)) as [He|_]; [tauto|].
    rewrite IH by tauto. reflexivity.
Qed.

Lemma detach_not_held (i : nat) (ps : list (string * JitsiParticipant)) :
  ~ holds ps i -> detach_all i ps = ps /\ detach_emits i ps = [].
Proof.
  induction ps as [|[k p] ps IH]; intros Hni; [split; reflexivity|].
  assert (Hp : splice_first i (_tracks p) = None).
  { apply splice_first_none. intros Hin. apply Hni. exists (k, p). split; [now left | exact Hin]. }
  destruct IH as [IH1 IH2].
  { intros (kp & Hkp & Hin). apply Hni. exists kp. split; [now right | exact Hin]. }
  unfold detach_all, detach_emits in *. cbn [map flat_map fst snd]. unfold detach at 1.
  rewrite Hp, IH1, IH2. split; reflexivity.
Qed.

Lemma push_then_detach (t : JitsiRemoteTrack) (ps : list (string * JitsiParticipant)) :
  ~ holds ps (rtid t) ->
  is_set (participants_get (ownerEndpointId t) ps) = true ->
  detach_all (rtid t) (push_track (ownerEndpointId t) t ps) = ps
  /\ detach_emits (rtid t) (push_track (ownerEndpointId t) t ps) = [Emit (TRACK_REMOVED (rtid t))].
Proof.
  induction ps as [|[k p] ps IH]; intros Hni Hin; [discriminate|].
  assert (Hp : ~ In (rtid t) (map rtid (_tracks p))).
  { intros Hp. apply Hni. exists (k, p). split; [now left | exact Hp]. }
  assert (Hrest : ~ holds ps (rtid t)).
  { intros (kp & Hkp & Hh). apply Hni. exists kp. split; [now right | exact Hh]. }
  cbn [push_track]. unfold participants_get in Hin. cbn [find fst] in Hin.
  destruct (String.eqb k (ownerEndpointId t)) eqn:Ek.
  - destruct (detach_not_held _ _ Hrest) as [Hd He].
    unfold detach_all, detach_emits in *. cbn [map flat_map fst snd _tracks set_tracks].
    unfold detach at 1. cbn [_tracks set_tracks]. rewrite (splice_first_last _ _ Hp), Hd, He.
    cbn [is_set app]. split; [|reflexivity]. f_equal. f_equal.
    destruct p; reflexivity.
  - destruct (IH Hrest Hin) as [Hd He].
    unfold detach_all, detach_emits in *. cbn [map flat_map fst snd].
    unfold detach at 1. rewrite (proj2 (splice_first_none _ _) Hp), Hd, He. split; reflexivity.
Qed.

(** A remote track that is added and then removed leaves the roster as it
    was: for a track of the active kind of session whose owner is in the
    roster and that no participant holds yet, [onRemoteTrackAdded] hands it
    to its owner and emits TRACK_ADDED, and [onRemoteTrackRemoved] takes it
    back, emits TRACK_REMOVED once and restores the conference. *)
Theorem remote_track_added_then_removed (w : World) (track : JitsiRemoteTrack) :
  track_isP2P track = isP2PActive (conf w) ->
  is_set (participants_get (ownerEndpointId track) (participants (conf w))) = true ->
  ~ holds (participants (conf w)) (rtid track) ->
  let o1 := onRemoteTrackAdded track w in
  let o2 := onRemoteTrackRemoved track (world_of o1) in
  returned o1 = Some tt
  /\ calls_of o1 = [RemoteTrackAddListeners (rtid track); Emit (TRACK_ADDED (rtid track))]
  /\ holds_track (participants (conf (world_of o1))) (ownerEndpointId track) track
  /\ o2 = Ok tt w [Emit (TRACK_REMOVED (rtid track))].
Proof.
  intros Hkind Howner Hnew. cbn zeta. unfold isP2PActive in Hkind.
  rewrite onRemoteTrackAdded_eq, Hkind, eqb_reflx. cbn [returned calls_of world_of].
  split; [reflexivity|]. split; [reflexivity|]. split.
  - wred. destruct (participants_get (ownerEndpointId track) (participants (conf w)))
      as [p|] eqn:Ep; [|discriminate].
    exists (set_tracks (_tracks p ++ [track]) p). split.
    + apply push_track_get_same. exact Ep.
    + cbn. apply in_or_app. right. now left.
  - rewrite onRemoteTrackRemoved_eq. wred.
    destruct (push_then_detach track _ Hnew Howner) as [-> ->].
    f_equal. destruct w as [c ? ? ? ? ?]. destruct c. reflexivity.
Qed.

(** What [onRemoteTrackAdded] and [onRemoteTrackRemoved] let pass: a track
    of the kind of session that is not active is ignored; a track whose
    owner is not in the roster is announced with TRACK_ADDED although no
    participant gets it; and taking away a track that no participant holds
    changes nothing and emits nothing. *)
Theorem remote_track_edge_cases (w : World) (track : JitsiRemoteTrack) :
  (track_isP2P track <> isP2PActive (conf w) -> onRemoteTrackAdded track w = Ok tt w [])
  /\ (track_isP2P track = isP2PActive (conf w) ->
      participants_get (ownerEndpointId track) (participants (conf w)) = None ->
      onRemoteTrackAdded track w
      = Ok tt w [RemoteTrackAddListeners (rtid track); Emit (TRACK_ADDED (rtid track))])
  /\ (~ holds (participants (conf w)) (rtid track) ->
      onRemoteTrackRemoved track w = Ok tt w []).
Proof.
  unfold isP2PActive. split; [|split].
  - intros Hkind. rewrite onRemoteTrackAdded_eq.
    destruct (track_isP2P track), (p2p (conf w)); cbn; congruence.
  - intros Hkind Hnone. rewrite onRemoteTrackAdded_eq, Hkind, eqb_reflx. f_equal.
    assert (Hpush : forall ps, participants_get (ownerEndpointId track) ps = None ->
                               push_track (ownerEndpointId track) track ps = ps).
    { induction ps as [|[k p] ps IH]; [reflexivity|]. unfold participants_get. cbn.
      destruct (String.eqb k (ownerEndpointId track)); [discriminate|].
      intros Hn. rewrite IH; [reflexivity | exact Hn]. }
    rewrite Hpush by exact Hnone. apply set_participants_same.
  - intros Hni. rewrite onRemoteTrackRemoved_eq.
    destruct (detach_not_held _ _ Hni) as [-> ->]. f_equal. apply set_participants_same.
Qed.

Lemma doReplaceTrack_eq (oldTrack newTrack : option JitsiLocalTrack) (w : World) :
  _doReplaceTrack oldTrack newTrack w
  = Ok (Promise_all (map sid (getMediaSessions (conf w)))) w
      (map (fun s => SessionReplaceTrack (sid s) (option_map tid oldTrack)
                       (option_map tid newTrack))
         (getMediaSessions (conf w))).
Proof.
  unfold _doReplaceTrack, getMediaSessions. mred.
  destruct (jvbJingleSession (conf w)), (p2pJingleSession (conf w)); mred; reflexivity.
Qed.

(** [replaceTrack] never hands a disposed track to a media session. It
    throws when both tracks are given and differ in video type. Otherwise,
    when the old track of this conference or the new track is disposed, the
    promise is rejected with TRACK_IS_DISPOSED and no session is called;
    else every media session, the bridge session first, is asked to replace
    the old track, taken as [null] when it does not belong to this
    conference, by the new one. The conference itself is not changed by the
    call. *)
Theorem replaceTrack_guards (w : World) (oldTrack newTrack : option JitsiLocalTrack) :
  let o := replaceTrack oldTrack newTrack w in
  world_of o = w
  /\ (videoType_mismatch oldTrack newTrack = true -> returned o = None /\ calls_of o = [])
  /\ (videoType_mismatch oldTrack newTrack = false ->
      hands_over_disposed oldTrack newTrack = true ->
      returned o = Some (Promise_reject "TRACK_IS_DISPOSED")
      /\ existsb replaces_track (calls_of o) = false)
  /\ (videoType_mismatch oldTrack newTrack = false ->
      hands_over_disposed oldTrack newTrack = false ->
      returned o
      = Some (Promise_then (Promise_all (map sid (getMediaSessions (conf w)))) AfterReplaceTrack)
      /\ List.filter replaces_track (calls_of o)
         = map (fun s =>
                  SessionReplaceTrack (sid s)
                    (if of_this_conference oldTrack then option_map tid oldTrack else None)
                    (option_map tid newTrack))
             (getMediaSessions (conf w))).
Proof.
  cbn zeta. unfold replaceTrack, videoType_mismatch, hands_over_disposed, of_this_conference.
  destruct (is_set oldTrack && is_set newTrack
            && negb (optVideoType_eqb (oldTrack ≫= getVideoType) (newTrack ≫= getVideoType))).
  { cbn. repeat split; discriminate. }
  assert (Hfilter : forall l : list JingleSessionPC, forall a b,
             List.filter replaces_track (map (fun s => SessionReplaceTrack (sid s) a b) l)
             = map (fun s => SessionReplaceTrack (sid s) a b) l).
  { induction l as [|x l IH]; intros a b; [reflexivity|]. cbn. rewrite IH. reflexivity. }
  destruct oldTrack as [old|], newTrack as [new|]; mred;
    repeat match goal with
           | |- context [belongsToConference ?t] => destruct (belongsToConference t)
           | |- context [disposed ?t] => destruct (disposed t)
           end;
    cbn [andb orb is_set negb]; mred; rewrite ?doReplaceTrack_eq;
    cbn [after_calls world_of returned calls_of app List.filter replaces_track existsb orb];
    rewrite ?app_nil_r, ?Hfilter; cbn [option_map];
    repeat split; try reflexivity; try discriminate.
Qed.

(** When the deferred start of P2P fires, the P2P session is started then:
    the timer is no longer pending, the task is forgotten, and a fresh
    session is created, initialized and invites the peer with all local
    tracks, the local endpoint being the initiator. If a P2P session came
    into being in the meantime, the task only logs an error and leaves that
    session alone. *)
Theorem deferred_start_fires (w : World) (h : positive) (jid : string) (r : ChatRoom) :
  find (fun t => Pos.eqb (fst t) h) (timers w) = Some (h, CbStartP2PSession jid) ->
  deferredStartP2PTask (conf w) = Some h ->
  room (conf w) = Some r ->
  let o := fire h w in
  let c' := conf (world_of o) in
  returned o = Some tt
  /\ pending h (world_of o) = false
  /\ deferredStartP2PTask c' = None
  /\ match p2pJingleSession (conf w) with
     | None =>
         calls_of o
         = [ClearTimeout h;
            NewP2PJingleSession (next_sid w) (myroomjid r) jid;
            ConferenceJoinAnalytics;
            SessionInitialize (next_sid w) "p2p";
            SessionInvite (next_sid w) (map tid (rtc_localTracks (conf w)))]
         /\ option_map remoteJid (p2pJingleSession c') = Some jid
         /\ option_map isInitiator (p2pJingleSession c') = Some true
     | Some s =>
         calls_of o = [ClearTimeout h; Log ERROR "P2P session already started!"]
         /\ p2pJingleSession c' = Some s
     end.
Proof.
  intros Hfind Htask Hroom. cbn zeta. unfold fire. rewrite Hfind. cbn [run_callback].
  set (w1 := set_timers (List.filter (fun t => negb (Pos.eqb (fst t) h)) (timers w))
               (next_handle w) w).
  destruct (p2pJingleSession (conf w)) as [s|] eqn:Es.
  - unfold _startP2PSession, _maybeClearDeferredStartP2P. mred. subst w1. wred.
    rewrite Htask. unfold clearTimeout. mred. wred. rewrite Es. mred. wred.
    split; [reflexivity|]. split; [|split; [reflexivity|split; [reflexivity | exact Es]]].
    unfold pending. wred. apply not_pending_after_clear.
  - destruct (startP2PSession_invites w1 jid r Es Hroom) as (Hret & Hcalls & Hjid & Hinit & Hdef).
    split; [exact Hret|]. split.
    + unfold _startP2PSession, _maybeClearDeferredStartP2P. mred. subst w1. wred.
      rewrite Htask. unfold clearTimeout. mred. wred. rewrite Es. mred. wred.
      rewrite Hroom. unfold newP2PJingleSession. mred. wred.
      unfold pending. wred. apply not_pending_after_clear.
    + split; [exact Hdef|]. split; [|split; [exact Hjid | exact Hinit]].
      rewrite Hcalls. subst w1. wred. rewrite Htask. reflexivity.
Qed.


End Properties.

(** * Properties of the ECMAScript built-ins *)

Section BuiltIns.

Context `{JS.Engine}.

Lemma digit_pretty_N_char (d : N) :
  (d < 10)%N -> JS.digit (pretty_N_char d) = Some (Z.of_N d).
Proof.
  intros Hd. destruct d as [|p]; [reflexivity|].
  do 4 (destruct p as [p|p|]; try reflexivity; try (exfalso; lia)).
Qed.

Lemma pretty_N_char_not_space (d : N) : Ascii.eqb (pretty_N_char d) " " = false.
Proof.
  destruct d as [|p]; [reflexivity|].
  do 4 (destruct p as [p|p|]; try reflexivity).
Qed.

Lemma digit_not_white (c : ascii) (v : Z) :
  JS.digit c = Some v ->
  JS.isWhiteSpace c = false /\ Ascii.eqb c "-" = false /\ Ascii.eqb c "+" = false.
Proof.
  unfold JS.digit, JS.isWhiteSpace. intros Hd.
  destruct ((48 <=? N_of_ascii c) && (N_of_ascii c <=? 57))%N eqn:Hr; [|discriminate].
  apply andb_true_iff in Hr as [Hlo Hhi].
  apply N.leb_le in Hlo. apply N.leb_le in Hhi.
  split; [|split].
  - repeat (apply orb_false_iff; split); try (apply N.eqb_neq; lia).
    apply andb_false_iff. right. apply N.leb_gt. lia.
  - destruct (Ascii.eqb_spec c "-") as [->|]; [|reflexivity]. cbn in Hlo. lia.
  - destruct (Ascii.eqb_spec c "+") as [->|]; [|reflexivity]. cbn in Hlo. lia.
Qed.

Lemma parseDigits_pretty_N_go (x : N) :
  (0 < x)%N ->
  exists k : Z, forall (s : string) (acc : option Z),
    JS.parseDigits (pretty_N_go x s) acc
    = JS.parseDigits s (Some (k * default 0%Z acc + Z.of_N x)%Z).
Proof.
  induction x as [x IH] using (well_founded_induction N.lt_wf_0). intros Hx.
  assert (Hdm : x = (10 * (x / 10) + x mod 10)%N) by (apply N.div_mod; lia).
  assert (Hr : (x mod 10 < 10)%N) by (apply N.mod_lt; lia).
  destruct (N.eq_dec (x / 10)%N 0%N) as [Hq|Hq].
  - exists 10%Z. intros s acc.
    rewrite pretty_N_go_step, Hq, pretty_N_go_0 by exact Hx.
    cbn [JS.parseDigits]. rewrite digit_pretty_N_char by exact Hr.
    f_equal. f_equal. rewrite Hq in Hdm. lia.
  - destruct (IH (x / 10)%N) as [k Hk].
    + revert Hdm Hr. generalize (x / 10)%N (x mod 10)%N. intros q r ? ?. lia.
    + lia.
    + exists (10 * k)%Z. intros s acc.
      rewrite pretty_N_go_step, Hk by exact Hx.
      cbn [JS.parseDigits]. rewrite digit_pretty_N_char by exact Hr.
      f_equal. f_equal. cbn [default from_option]. unfold id.
      revert Hdm Hr. generalize (x / 10)%N (x mod 10)%N. intros q r ? ?. lia.
Qed.

Lemma pretty_N_go_head (x : N) (s : string) :
  (0 < x)%N ->
  exists d rest, (d < 10)%N /\ pretty_N_go x s = String (pretty_N_char d) rest.
Proof.
  revert s. induction x as [x IH] using (well_founded_induction N.lt_wf_0). intros s Hx.
  assert (Hdm : x = (10 * (x / 10) + x mod 10)%N) by (apply N.div_mod; lia).
  assert (Hr : (x mod 10 < 10)%N) by (apply N.mod_lt; lia).
  rewrite pretty_N_go_step by exact Hx.
  destruct (N.eq_dec (x / 10)%N 0%N) as [Hq|Hq].
  - rewrite Hq, pretty_N_go_0. eauto.
  - apply IH; [|lia].
    revert Hdm Hr. generalize (x / 10)%N (x mod 10)%N. intros q r ? ?. lia.
Qed.

Lemma pretty_N_go_no_space (x : N) (s : string) :
  no_char " " s = true -> no_char " " (pretty_N_go x s) = true.
Proof.
  revert s. induction x as [x IH] using (well_founded_induction N.lt_wf_0). intros s Hs.
  destruct (N.eq_dec x 0%N) as [->|Hx]; [rewrite pretty_N_go_0; exact Hs|].
  rewrite pretty_N_go_step by lia.
  apply IH.
  - assert (Hdm : x = (10 * (x / 10) + x mod 10)%N) by (apply N.div_mod; lia).
    assert (Hr : (x mod 10 < 10)%N) by (apply N.mod_lt; lia).
    revert Hdm Hr. generalize (x / 10)%N (x mod 10)%N. intros q r ? ?. lia.
  - cbn [no_char]. rewrite pretty_N_char_not_space. exact Hs.
Qed.

Lemma parseDigits_pretty_pos (p : positive) :
  JS.parseDigits (pretty_N_go (N.pos p) "") None = Some (Z.pos p).
Proof.
  destruct (parseDigits_pretty_N_go (N.pos p)) as [k Hk]; [lia|].
  rewrite Hk. cbn. f_equal. lia.
Qed.

Lemma pretty_no_space (z : Z) : no_char " " (pretty z) = true.
Proof.
  destruct z as [|p|p]; [reflexivity| |]; unfold pretty, pretty_Z.
  - apply pretty_N_go_no_space. reflexivity.
  - cbn. apply pretty_N_go_no_space. reflexivity.
Qed.

Lemma toString_safe (z : Z) :
  JS.isSafeInteger z = true -> JS.toString (JS.Int z) = pretty z.
Proof. intros Hz. cbn [JS.toString]. rewrite Hz. reflexivity. Qed.

Lemma toString_no_space (z : Z) :
  JS.isSafeInteger z = true -> no_char " " (JS.toString (JS.Int z)) = true.
Proof. intros Hz. rewrite (toString_safe z Hz). apply pretty_no_space. Qed.

(** [parseInt] reads back what [String] printed for a safe integer. *)
Lemma parseInt_toString (z : Z) :
  JS.isSafeInteger z = true -> JS.parseInt (Some (JS.toString (JS.Int z))) = JS.Int z.
Proof.
  intros Hz. rewrite (toString_safe z Hz).
  destruct z as [|p|p]; [reflexivity| |]; cbn [JS.parseInt];
    unfold pretty, pretty_Z, JS.parseInt_string.
  - change (pretty p) with (pretty_N_go (N.pos p) "").
    pose proof (parseDigits_pretty_pos p) as Hp.
    destruct (pretty_N_go_head (N.pos p) "") as (d & rest & Hd & Heq); [lia|].
    rewrite Heq in *. cbn [JS.trimStart].
    destruct (digit_not_white _ _ (digit_pretty_N_char d Hd)) as (-> & -> & ->).
    rewrite Hp. rewrite Z.mul_1_l, Hz. reflexivity.
  - change ("-" +:+ pretty p) with (String "-" (pretty_N_go (N.pos p) "")).
    cbn [JS.trimStart]. change (JS.isWhiteSpace "-") with false. cbn iota.
    change (Ascii.eqb "-" "-") with true. cbn iota.
    rewrite parseDigits_pretty_pos.
    change (-1 * Z.pos p)%Z with (Z.neg p). rewrite Hz. reflexivity.
Qed.

Lemma append_nil_l (s : string) : "" ++ s = s.
Proof. reflexivity. Qed.

Lemma append_cons (a : ascii) (s t : string) : String a s ++ t = String a (s ++ t).
Proof. reflexivity. Qed.

Lemma split_no_sep (c : ascii) (s : string) : no_char c s = true -> JS.split c s = [s].
Proof.
  induction s as [|a s IH]; [reflexivity|]. cbn [JS.split no_char]. intros Hs.
  apply andb_true_iff in Hs as [Ha Hs]. apply negb_true_iff in Ha. rewrite Ha, (IH Hs).
  reflexivity.
Qed.

Lemma split_app (c : ascii) (a b : string) :
  no_char c a = true -> JS.split c (a ++ String c b) = a :: JS.split c b.
Proof.
  induction a as [|x a IH]; rewrite ?append_nil_l, ?append_cons; cbn [JS.split no_char].
  - intros _. rewrite Ascii.eqb_refl. reflexivity.
  - intros Hs. apply andb_true_iff in Hs as [Ha Hs]. apply negb_true_iff in Ha.
    rewrite Ha, (IH Hs). reflexivity.
Qed.

Lemma prefix_app (a b : string) : String.prefix a (a ++ b) = true.
Proof.
  induction a as [|x a IH]; rewrite ?append_nil_l, ?append_cons; cbn [String.prefix];
    [destruct b; reflexivity|].
  destruct (ascii_dec x x); [exact IH | congruence].
Qed.

Lemma includes_app (pre sub post : string) : JS.includes sub (pre ++ sub ++ post) = true.
Proof.
  induction pre as [|x pre IH].
  - rewrite append_nil_l. destruct (sub ++ post) eqn:E; cbn [JS.includes];
      rewrite <- E, prefix_app; reflexivity.
  - rewrite append_cons. cbn [JS.includes]. rewrite IH. apply orb_true_r.
Qed.

Lemma split_head_prefix (c : ascii) (s p : string) (ps : list string) :
  JS.split c s = p :: ps -> exists post, s = p ++ post.
Proof.
  revert p ps. induction s as [|a s IH]; intros p ps; cbn [JS.split].
  - intros Heq. injection Heq as <- _. exists "". reflexivity.
  - destruct (Ascii.eqb a c).
    + intros Heq. injection Heq as <- _. exists (String a s). reflexivity.
    + destruct (JS.split c s) as [|q qs] eqn:E.
      * intros Heq. injection Heq as <- _. destruct s as [|b s]; [exists ""; reflexivity|].
        cbn in E. destruct (Ascii.eqb b c); [discriminate|].
        destruct (JS.split c s); discriminate.
      * intros Heq. injection Heq as <- _. destruct (IH q qs eq_refl) as [post ->].
        exists post. reflexivity.
Qed.

Lemma in_split_substring (c : ascii) (piece s : string) :
  In piece (JS.split c s) -> exists pre post, s = pre ++ piece ++ post.
Proof.
  revert piece. induction s as [|a s IH]; intros piece; cbn [JS.split].
  - intros [<-|[]]. exists "", "". reflexivity.
  - destruct (Ascii.eqb a c).
    + intros [<-|Hin].
      * exists "", (String a s). reflexivity.
      * destruct (IH _ Hin) as (pre & post & ->). exists (String a pre), post. reflexivity.
    + destruct (JS.split c s) as [|p ps] eqn:E.
      * intros [<-|[]]. destruct s as [|b s]; [exists "", ""; reflexivity|].
        cbn in E. destruct (Ascii.eqb b c); [discriminate|].
        destruct (JS.split c s); discriminate.
      * intros [<-|Hin].
        -- destruct (split_head_prefix _ _ _ _ E) as [post ->].
           exists "", post. reflexivity.
        -- destruct (IH _ (or_intror Hin)) as (pre & post & ->).
           exists (String a pre), post. reflexivity.
Qed.

End BuiltIns.

(** * Properties of SdpTransformUtil *)

Section SdpTransformUtilProperties.

Import SdpTransformUtil.

Context `{StandardVideoQualitySettings} `{JS.Engine}.

Local Open Scope list_scope.

Lemma number_eq_dec (a b : JS.number) : {a = b} + {a <> b}.
Proof. decide equality; [apply Z.eq_dec | apply Bool.bool_dec]. Qed.

Lemma strict_eq_true (a b : JS.number) :
  JS.strict_eq a b = true <-> a = b /\ a <> JS.NaN.
Proof.
  destruct a as [|x|x], b as [|y|y]; cbn;
    try (split; [discriminate | intros [? ?]; congruence]).
  - rewrite Z.eqb_eq. split.
    + intros ->. split; [reflexivity | discriminate].
    + intros [Heq _]. congruence.
  - rewrite Bool.eqb_true_iff. split.
    + intros ->. split; [reflexivity | discriminate].
    + intros [Heq _]. congruence.
Qed.

Lemma strict_eq_refl (z : Z) : JS.strict_eq (JS.Int z) (JS.Int z) = true.
Proof. cbn. apply Z.eqb_refl. Qed.

Lemma strict_eq_sym (a b : JS.number) : JS.strict_eq a b = JS.strict_eq b a.
Proof.
  destruct a as [|x|x], b as [|y|y]; cbn; try reflexivity; [apply Z.eqb_sym|].
  destruct x, y; reflexivity.
Qed.

Lemma indexOf_NaN (l : list JS.number) : JS.indexOf JS.NaN l = None.
Proof.
  induction l as [|y l IH]; [reflexivity|]. cbn. destruct y; cbn; rewrite IH; reflexivity.
Qed.

Lemma indexOf_none (x : JS.number) (l : list JS.number) :
  JS.indexOf x l = None <-> (x = JS.NaN \/ ~ In x l).
Proof.
  induction l as [|y l IH]; cbn [JS.indexOf].
  - split; [intros _; right; intros [] | reflexivity].
  - destruct (JS.strict_eq y x) eqn:E.
    + apply strict_eq_true in E as [-> Hn]. split; [discriminate|].
      intros [->|Hni]; [congruence|]. exfalso. apply Hni. now left.
    + destruct (JS.indexOf x l) eqn:Ei; cbn.
      * split; [discriminate|]. intros [Hx|Hni]; exfalso.
        -- assert (Hf : Some n = None) by (apply IH; now left). discriminate.
        -- assert (Hf : Some n = None)
             by (apply IH; right; intros Hin; apply Hni; now right).
           discriminate.
      * split; [|reflexivity]. intros _. destruct (proj1 IH eq_refl) as [Hx|Hni]; [now left|].
        destruct (number_eq_dec x JS.NaN) as [Hx|Hx]; [now left|]. right.
        intros [->|Hin]; [|tauto].
        assert (JS.strict_eq x x = true) by (apply strict_eq_true; tauto). congruence.
Qed.

Lemma strict_eq_same (v : JS.number) : v <> JS.NaN -> JS.strict_eq v v = true.
Proof. intros Hv. apply strict_eq_true. now split. Qed.

Lemma indexOf_app_fresh (pre rest : list JS.number) (v : JS.number) :
  v <> JS.NaN ->
  ~ In v pre ->
  JS.indexOf v (pre ++ v :: rest) = Some (length pre).
Proof.
  intros Hv.
  induction pre as [|y pre IH]; intros Hni; cbn [app JS.indexOf length].
  - rewrite strict_eq_same by exact Hv. reflexivity.
  - destruct (JS.strict_eq y v) eqn:E.
    + apply strict_eq_true in E as [-> _]. exfalso. apply Hni. now left.
    + rewrite IH; [reflexivity|]. intros Hin. apply Hni. now right.
Qed.

Lemma indexOf_app_seen (pre rest : list JS.number) (x : JS.number) :
  In x pre -> x <> JS.NaN ->
  exists i, JS.indexOf x (pre ++ rest) = Some i /\ i < length pre.
Proof.
  induction pre as [|y pre IH]; intros Hin Hx; [destruct Hin|]. cbn [app JS.indexOf length].
  destruct (JS.strict_eq y x) eqn:E.
  - exists 0. split; [reflexivity | lia].
  - destruct Hin as [->|Hin].
    + assert (JS.strict_eq x x = true) by (apply strict_eq_true; tauto). congruence.
    + destruct (IH Hin Hx) as (i & -> & Hi). exists (S i). split; [reflexivity | lia].
Qed.

Lemma first_occurrence_app (pre rest : list JS.number) (v : JS.number) :
  first_occurrence v (length pre) (pre ++ v :: rest) = true <-> v <> JS.NaN /\ ~ In v pre.
Proof.
  unfold first_occurrence.
  destruct (number_eq_dec v JS.NaN) as [->|Hv].
  - rewrite indexOf_NaN. split; [discriminate | tauto].
  - destruct (in_dec number_eq_dec v pre) as [Hpre|Hpre].
    + destruct (indexOf_app_seen pre (v :: rest) v Hpre Hv) as (i & -> & Hi).
      destruct (Nat.eqb_spec i (length pre)) as [->|_]; [lia|].
      split; [discriminate | tauto].
    + rewrite indexOf_app_fresh by assumption. rewrite Nat.eqb_refl. tauto.
Qed.

Lemma filter_from_first_occurrence (l pre : list JS.number) :
  let r := JS.filter_from first_occurrence (pre ++ l) (length pre) l in
  List.NoDup r /\ forall v, In v r <-> v <> JS.NaN /\ In v l /\ ~ In v pre.
Proof.
  revert pre. induction l as [|v0 rest IH]; intros pre; cbn zeta.
  - cbn. split; [constructor|]. intros v. tauto.
  - cbn [JS.filter_from].
    specialize (IH (pre ++ [v0])). cbn zeta in IH.
    rewrite <- app_assoc, length_app in IH. cbn [app length] in IH.
    rewrite Nat.add_1_r in IH. destruct IH as [Hnd Hin].
    pose proof (first_occurrence_app pre rest v0) as Hfo.
    destruct (first_occurrence v0 (length pre) (pre ++ v0 :: rest)).
    + destruct (proj1 Hfo eq_refl) as [Hv0 Hpre]. split.
      * constructor; [|exact Hnd]. intros Hv. apply Hin in Hv as (_ & _ & Hv).
        apply Hv. apply in_app_iff. right. now left.
      * intros v. cbn [In]. rewrite Hin, in_app_iff. cbn.
        destruct (number_eq_dec v0 v) as [<-|Hne]; intuition congruence.
    + split; [exact Hnd|]. intros v. rewrite Hin, in_app_iff. cbn.
      destruct (number_eq_dec v0 v) as [<-|Hne]; [|intuition congruence].
      split; [tauto|]. intros (Hv & _ & Hpre). exfalso.
      assert (false = true) by (apply Hfo; tauto). discriminate.
Qed.

Lemma getSSRCs_members (m : IMLine) :
  List.NoDup (fst (getSSRCs m))
  /\ (forall n, In n (fst (getSSRCs m)) <->
                n <> JS.NaN /\ exists o, In o (or_empty (mline_ssrcs m)) /\ id o = n).
Proof.
  unfold getSSRCs, get_ssrcs.
  destruct (mline_ssrcs m) as [l|] eqn:El; cbn [fst snd or_empty].
  - destruct (filter_from_first_occurrence (map id l) []) as [Hnd Hin].
    split; [exact Hnd|].
    intros n. unfold JS.filter_indexed. cbn [app length] in Hin. rewrite Hin, in_map_iff.
    split.
    + intros (Hn & (o & Ho & Hino) & _). split; [exact Hn|]. now exists o.
    + intros (Hn & o & Hino & Ho). split; [exact Hn|]. split; [now exists o | intros []].
  - cbn. split; [constructor|].
    intros n. split; [intros [] | intros (_ & o & [] & _)].
Qed.

(** [getSSRCs] lists every SSRC of the media line once: the result has no
    duplicates, holds exactly the ids of the SSRC attributes that are not
    [NaN], and [getSSRCCount] is its length; an undefined [ssrcs] array is
    left behind as an empty one. *)
Theorem getSSRCs_each_once (m : IMLine) :
  List.NoDup (fst (getSSRCs m))
  /\ (forall n, In n (fst (getSSRCs m)) <->
                n <> JS.NaN /\ exists o, In o (or_empty (mline_ssrcs m)) /\ id o = n)
  /\ getSSRCCount m = length (fst (getSSRCs m))
  /\ mline_ssrcs (snd (getSSRCs m)) = Some (or_empty (mline_ssrcs m)).
Proof.
  destruct (getSSRCs_members m) as [Hnd Hin].
  split; [exact Hnd|]. split; [exact Hin|].
  unfold getSSRCs, get_ssrcs, getSSRCCount, _getSSRCCount.
  destruct (mline_ssrcs m) as [l|] eqn:El; cbn [fst snd or_empty].
  - split; [reflexivity | exact El].
  - split; reflexivity.
Qed.

Lemma set_ssrcs_same (m : IMLine) (l : list ISsrcs) :
  mline_ssrcs m = Some l -> set_ssrcs (Some l) m = m.
Proof. destruct m. cbn. intros ->. reflexivity. Qed.

Lemma set_ssrcGroups_same (m : IMLine) (l : list ISsrcGroups) :
  ssrcGroups m = Some l -> set_ssrcGroups (Some l) m = m.
Proof. destruct m. cbn. intros ->. reflexivity. Qed.

Lemma getSSRCAttrValue_eq (n : JS.number) (a : string) (m : IMLine) :
  fst (getSSRCAttrValue n a m)
  = option_map value
      (find (fun ssrcObj => JS.strict_eq (id ssrcObj) n && String.eqb (attribute ssrcObj) a)
         (or_empty (mline_ssrcs m))).
Proof. unfold getSSRCAttrValue, get_ssrcs. destruct (mline_ssrcs m); reflexivity. Qed.

Lemma find_app {A} (f : A -> bool) (l l' : list A) :
  find f (l ++ l') = match find f l with Some x => Some x | None => find f l' end.
Proof. induction l as [|x l IH]; [reflexivity|]. cbn. destruct (f x); [reflexivity | exact IH]. Qed.

Lemma find_filter_none {A} (f g : A -> bool) (l : list A) :
  (forall x, f x = true -> g x = false) -> find f (List.filter g l) = None.
Proof.
  intros Hfg. induction l as [|x l IH]; [reflexivity|]. cbn.
  destruct (g x) eqn:Eg; [|exact IH]. cbn. destruct (f x) eqn:Ef; [|exact IH].
  rewrite (Hfg x Ef) in Eg. discriminate.
Qed.

Lemma find_filter_same {A} (f g : A -> bool) (l : list A) :
  (forall x, f x = true -> g x = true) -> find f (List.filter g l) = find f l.
Proof.
  intros Hfg. induction l as [|x l IH]; [reflexivity|]. cbn.
  destruct (f x) eqn:Ef.
  - rewrite (Hfg x Ef). cbn. rewrite Ef. reflexivity.
  - destruct (g x); [cbn; rewrite Ef|]; exact IH.
Qed.

Lemma filter_idem {A} (g : A -> bool) (l : list A) :
  List.filter g (List.filter g l) = List.filter g l.
Proof.
  induction l as [|x l IH]; [reflexivity|]. cbn. destruct (g x) eqn:Eg; [|exact IH].
  cbn. rewrite Eg, IH. reflexivity.
Qed.

(** An SSRC attribute that was added is found again, unless the media line
    already held an attribute of that SSRC and name, which then keeps
    answering; no other attribute is affected, and an attribute whose id
    is [NaN] is never found. *)
Theorem addSSRCAttribute_then_getSSRCAttrValue (m : IMLine) (ssrcObj : ISsrcs) :
  let m1 := addSSRCAttribute ssrcObj m in
  fst (getSSRCAttrValue (id ssrcObj) (attribute ssrcObj) m1)
  = match id ssrcObj with
    | JS.NaN => None
    | _ =>
        match fst (getSSRCAttrValue (id ssrcObj) (attribute ssrcObj) m) with
        | Some old => Some old
        | None => Some (value ssrcObj)
        end
    end
  /\ (forall n a,
        JS.strict_eq (id ssrcObj) n && String.eqb (attribute ssrcObj) a = false ->
        fst (getSSRCAttrValue n a m1) = fst (getSSRCAttrValue n a m))
  /\ mline_ssrcs m1 = Some (or_empty (mline_ssrcs m) ++ [ssrcObj]).
Proof.
  cbn zeta.
  assert (Hm1 : mline_ssrcs (addSSRCAttribute ssrcObj m)
                = Some (or_empty (mline_ssrcs m) ++ [ssrcObj])).
  { unfold addSSRCAttribute, get_ssrcs. destruct (mline_ssrcs m); reflexivity. }
  split; [|split; [|exact Hm1]].
  - rewrite !getSSRCAttrValue_eq, Hm1. cbn [or_empty]. rewrite find_app.
    destruct (find _ (or_empty (mline_ssrcs m))) as [old|] eqn:Eold.
    + apply find_some in Eold as [_ Hold]. apply andb_true_iff in Hold as [Hid _].
      apply strict_eq_true in Hid as [Heq Hid]. rewrite Heq in Hid. cbn.
      destruct (id ssrcObj); [congruence | reflexivity | reflexivity].
    + cbn [find]. destruct (id ssrcObj) as [|z|b] eqn:Eid; cbn.
      * reflexivity.
      * rewrite Z.eqb_refl, String.eqb_refl. reflexivity.
      * rewrite Bool.eqb_reflx, String.eqb_refl. reflexivity.
  - intros n a Hna. rewrite !getSSRCAttrValue_eq, Hm1. cbn [or_empty].
    rewrite find_app. destruct (find _ (or_empty (mline_ssrcs m))); [reflexivity|].
    cbn [find]. rewrite Hna. reflexivity.
Qed.

(** After [removeSSRC] no attribute of that SSRC is found and [getSSRCs] no
    longer lists it; the attributes of every other SSRC answer as before,
    and removing again changes nothing. *)
Theorem removeSSRC_forgets (m : IMLine) (ssrcNum : JS.number) :
  let m1 := removeSSRC ssrcNum m in
  (forall a, fst (getSSRCAttrValue ssrcNum a m1) = None)
  /\ (forall n a, JS.strict_eq n ssrcNum = false ->
        fst (getSSRCAttrValue n a m1) = fst (getSSRCAttrValue n a m))
  /\ ~ In ssrcNum (fst (getSSRCs m1))
  /\ removeSSRC ssrcNum m1 = m1.
Proof.
  cbn zeta.
  set (keep := fun ssrcObj : ISsrcs => negb (JS.strict_eq (id ssrcObj) ssrcNum)).
  assert (Hm1 : or_empty (mline_ssrcs (removeSSRC ssrcNum m))
                = List.filter keep (or_empty (mline_ssrcs m))).
  { unfold removeSSRC. destruct (mline_ssrcs m) as [[|o l]|] eqn:El; cbn; rewrite ?El;
      reflexivity. }
  split; [|split; [|split]].
  - intros a. rewrite getSSRCAttrValue_eq, Hm1. rewrite find_filter_none; [reflexivity|].
    intros x Hx. apply andb_true_iff in Hx as [Hx _]. unfold keep. rewrite Hx. reflexivity.
  - intros n a Hn. rewrite !getSSRCAttrValue_eq, Hm1. rewrite find_filter_same; [reflexivity|].
    intros x Hx. apply andb_true_iff in Hx as [Hx _]. unfold keep.
    apply strict_eq_true in Hx as [Hx Hnan]. rewrite Hx, Hn. reflexivity.
  - intros Hin. apply (proj2 (getSSRCs_members _)) in Hin as (Hnan & o & Ho & Hid).
    rewrite Hm1 in Ho. apply filter_In in Ho as [_ Ho]. unfold keep in Ho.
    rewrite Hid in Ho.
    assert (Hss : JS.strict_eq ssrcNum ssrcNum = true) by (apply strict_eq_true; tauto).
    rewrite Hss in Ho. discriminate.
  - unfold removeSSRC at 1. destruct (mline_ssrcs (removeSSRC ssrcNum m)) as [[|o l]|] eqn:El;
      [reflexivity| |reflexivity].
    cbn [or_empty] in Hm1. fold keep.
    assert (Hk : List.filter keep (o :: l) = o :: l) by (rewrite Hm1; apply filter_idem).
    rewrite Hk. apply set_ssrcs_same. exact El.
Qed.

Lemma get_ssrcGroups_eq (m : IMLine) :
  get_ssrcGroups m = (or_empty (ssrcGroups m), set_ssrcGroups (Some (or_empty (ssrcGroups m))) m).
Proof.
  unfold get_ssrcGroups. destruct (ssrcGroups m) as [l|] eqn:El; cbn [or_empty]; [|reflexivity].
  rewrite set_ssrcGroups_same by exact El. reflexivity.
Qed.

Lemma ssrcGroups_addSSRCGroup (g : ISsrcGroups) (m : IMLine) :
  ssrcGroups (addSSRCGroup g m) = Some (or_empty (ssrcGroups m) ++ [g]).
Proof. unfold addSSRCGroup. rewrite get_ssrcGroups_eq. reflexivity. Qed.

Lemma findGroupByPrimarySSRC_eq (sem : string) (primary : JS.number) (m : IMLine) :
  fst (findGroupByPrimarySSRC sem primary m)
  = find (fun group => String.eqb (semantics group) sem
                       && JS.strict_eq (parsePrimarySSRC group) primary)
      (or_empty (ssrcGroups m)).
Proof. unfold findGroupByPrimarySSRC. rewrite get_ssrcGroups_eq. reflexivity. Qed.

Lemma findGroups_eq (sem : string) (m : IMLine) :
  fst (findGroups sem m)
  = List.filter (fun group => String.eqb (semantics group) sem) (or_empty (ssrcGroups m)).
Proof. unfold findGroups. rewrite get_ssrcGroups_eq. reflexivity. Qed.

Lemma findGroup_eq (sem : string) (wanted : option string) (m : IMLine) :
  fst (findGroup sem wanted m)
  = find (fun group => String.eqb (semantics group) sem && ssrcs_match wanted group)
      (or_empty (ssrcGroups m)).
Proof. unfold findGroup. rewrite get_ssrcGroups_eq. reflexivity. Qed.

(** The text of a two-member group is read back: for the group written as
    the decimal forms of a primary and a secondary SSRC, both safe integers,
    with one space between them, [parsePrimarySSRC] and [parseSecondarySSRC]
    give the two numbers. *)
Lemma parse_printed_pair (sem : string) (p r : Z) :
  JS.isSafeInteger p = true ->
  JS.isSafeInteger r = true ->
  let g := {| semantics := sem;
              ssrcs := (JS.toString (JS.Int p) ++ " " ++ JS.toString (JS.Int r))%string |} in
  parsePrimarySSRC g = JS.Int p /\ parseSecondarySSRC g = JS.Int r.
Proof.
  intros Hp Hr. cbn zeta. unfold parsePrimarySSRC, parseSecondarySSRC. cbn [ssrcs].
  change (" " ++ JS.toString (JS.Int r))%string with (String " " (JS.toString (JS.Int r))).
  rewrite split_app by (apply toString_no_space; exact Hp).
  rewrite split_no_sep by (apply toString_no_space; exact Hr).
  cbn [head nth_error]. split; apply parseInt_toString; assumption.
Qed.

(** The SSRCs of a group are read from its text and written back to the same
    numbers, as long as they are safe integers (every 32-bit SSRC is): a pair
    printed by [String] with one space between, in plain decimal then, gives
    back its primary and its secondary SSRC. A group of a single SSRC has
    that primary and no secondary (NaN), and a group with an empty text has
    neither. *)
Theorem parse_ssrc_group_text (sem : string) (p r : Z) :
  JS.isSafeInteger p = true ->
  JS.isSafeInteger r = true ->
  let pair := {| semantics := sem;
                 ssrcs := (JS.toString (JS.Int p) ++ " " ++ JS.toString (JS.Int r))%string |} in
  let single := {| semantics := sem; ssrcs := JS.toString (JS.Int p) |} in
  let empty := {| semantics := sem; ssrcs := ""%string |} in
  ssrcs pair = (pretty p ++ " " ++ pretty r)%string
  /\ parsePrimarySSRC pair = JS.Int p
  /\ parseSecondarySSRC pair = JS.Int r
  /\ parsePrimarySSRC single = JS.Int p
  /\ parseSecondarySSRC single = JS.NaN
  /\ parsePrimarySSRC empty = JS.NaN
  /\ parseSecondarySSRC empty = JS.NaN.
Proof.
  intros Hsp Hsr. cbn zeta. destruct (parse_printed_pair sem p r Hsp Hsr) as [Hp Hr].
  split; [cbn [ssrcs]; rewrite !toString_safe by assumption; reflexivity|].
  split; [exact Hp|]. split; [exact Hr|].
  unfold parsePrimarySSRC, parseSecondarySSRC. cbn [ssrcs].
  rewrite split_no_sep by (apply toString_no_space; exact Hsp). cbn [head nth_error].
  split; [apply parseInt_toString; exact Hsp|]. repeat split.
Qed.

(** Adding the FID group of a primary SSRC and its RTX SSRC, both safe
    integers printed by [String], makes [getRtxSSRC] of the primary answer
    the RTX SSRC, unless the media line already had a FID group with that
    primary, which keeps answering. *)
Theorem rtx_group_round_trip (m : IMLine) (p r : Z) :
  JS.isSafeInteger p = true ->
  JS.isSafeInteger r = true ->
  let g := {| semantics := SSRC_GROUP_SEMANTICS_FID;
              ssrcs := (JS.toString (JS.Int p) ++ " " ++ JS.toString (JS.Int r))%string |} in
  fst (getRtxSSRC (JS.Int p) (addSSRCGroup g m))
  = match fst (findGroupByPrimarySSRC SSRC_GROUP_SEMANTICS_FID (JS.Int p) m) with
    | Some old => Some (parseSecondarySSRC old)
    | None => Some (JS.Int r)
    end.
Proof.
  intros Hsp Hsr. cbn zeta. unfold getRtxSSRC.
  destruct (findGroupByPrimarySSRC _ _ (addSSRCGroup _ m)) as [found m'] eqn:Ef.
  cbn [fst]. assert (Hf : found = fst (findGroupByPrimarySSRC SSRC_GROUP_SEMANTICS_FID (JS.Int p)
                                         (addSSRCGroup
                                            {| semantics := SSRC_GROUP_SEMANTICS_FID;
                                               ssrcs := (JS.toString (JS.Int p) ++ " "
                                                         ++ JS.toString (JS.Int r))%string |} m)))
    by (rewrite Ef; reflexivity).
  rewrite Hf, !findGroupByPrimarySSRC_eq, ssrcGroups_addSSRCGroup. cbn [or_empty].
  rewrite find_app. destruct (find _ (or_empty (ssrcGroups m))); [reflexivity|].
  destruct (parse_printed_pair SSRC_GROUP_SEMANTICS_FID p r Hsp Hsr) as [Hp Hr].
  cbn [find semantics]. rewrite String.eqb_refl, Hp, strict_eq_refl. cbn [andb option_map]. rewrite Hr.
  reflexivity.
Qed.

(** [removeGroupsWithSSRC] goes by the text: every group whose [ssrcs] text
    holds anywhere the text [String] gives for the SSRC is removed, and only
    those. For a safe integer that text is its plain decimal form, so every
    group that lists the SSRC in decimal goes, and so does a group that only
    holds its digits inside another number. The groups that stay were there
    before, and an undefined [ssrcGroups] stays undefined. *)
Theorem removeGroupsWithSSRC_by_text (m : IMLine) (ssrc : JS.number) :
  let kept := or_empty (ssrcGroups (removeGroupsWithSSRC ssrc m)) in
  (forall g, In g kept -> In g (or_empty (ssrcGroups m)))
  /\ (forall g pre post,
        ssrcs g = (pre ++ JS.toString ssrc ++ post)%string -> ~ In g kept)
  /\ (forall g, In (JS.toString ssrc) (JS.split " " (ssrcs g)) -> ~ In g kept)
  /\ (forall g z pre post,
        ssrc = JS.Int z -> JS.isSafeInteger z = true ->
        In (pretty z) (JS.split " " (ssrcs g))
        \/ ssrcs g = (pre ++ pretty z ++ post)%string ->
        ~ In g kept)
  /\ (forall g, In g (or_empty (ssrcGroups m)) ->
        JS.includes (JS.toString ssrc) (ssrcs g) = false -> In g kept)
  /\ containsAnySSRCGroups (removeGroupsWithSSRC ssrc m) = containsAnySSRCGroups m.
Proof.
  cbn zeta.
  assert (Hk : or_empty (ssrcGroups (removeGroupsWithSSRC ssrc m))
               = List.filter (fun g => negb (JS.includes (JS.toString ssrc) (ssrcs g)))
                   (or_empty (ssrcGroups m))).
  { unfold removeGroupsWithSSRC. destruct (ssrcGroups m) eqn:E; cbn; rewrite ?E; reflexivity. }
  assert (Htext : forall g pre post,
             ssrcs g = (pre ++ JS.toString ssrc ++ post)%string ->
             ~ In g (or_empty (ssrcGroups (removeGroupsWithSSRC ssrc m)))).
  { intros g pre post Hg Hin. rewrite Hk in Hin. apply filter_In in Hin as [_ Hin].
    rewrite Hg, includes_app in Hin. discriminate. }
  assert (Hlisted : forall g, In (JS.toString ssrc) (JS.split " " (ssrcs g)) ->
             ~ In g (or_empty (ssrcGroups (removeGroupsWithSSRC ssrc m)))).
  { intros g Hin. destruct (in_split_substring _ _ _ Hin) as (pre & post & Hg).
    exact (Htext g pre post Hg). }
  split; [|split; [exact Htext|split; [exact Hlisted|split; [|split]]]].
  - intros g Hin. rewrite Hk in Hin. now apply filter_In in Hin.
  - intros g z pre post Hz Hsafe Hg. rewrite <- (toString_safe z Hsafe), <- Hz in Hg.
    destruct Hg as [Hg|Hg]; [exact (Hlisted g Hg) | exact (Htext g pre post Hg)].
  - intros g Hin Hinc. rewrite Hk. apply filter_In. split; [exact Hin|].
    rewrite Hinc. reflexivity.
  - unfold removeGroupsWithSSRC, containsAnySSRCGroups.
    destruct (ssrcGroups m) eqn:E; cbn; rewrite ?E; reflexivity.
Qed.

(** Group bookkeeping: after [removeGroupsBySemantics] neither [findGroups]
    nor [findGroup] finds a group of that semantics while the groups of any
    other semantics are found as before, and [addSSRCGroup] puts the new
    group last among the groups of its semantics. *)
Theorem groups_by_semantics (m : IMLine) (sem : string) (g : ISsrcGroups) :
  let m1 := removeGroupsBySemantics sem m in
  fst (findGroups sem m1) = []
  /\ (forall wanted, fst (findGroup sem wanted m1) = None)
  /\ (forall sem', sem' <> sem -> fst (findGroups sem' m1) = fst (findGroups sem' m))
  /\ fst (findGroups sem (addSSRCGroup g m))
     = fst (findGroups sem m) ++ (if String.eqb (semantics g) sem then [g] else []).
Proof.
  cbn zeta.
  assert (Hk : or_empty (ssrcGroups (removeGroupsBySemantics sem m))
               = List.filter (fun g => negb (String.eqb (semantics g) sem))
                   (or_empty (ssrcGroups m))).
  { unfold removeGroupsBySemantics. destruct (ssrcGroups m) eqn:E; cbn; rewrite ?E; reflexivity. }
  split; [|split; [|split]].
  - rewrite findGroups_eq, Hk. clear Hk.
    induction (or_empty (ssrcGroups m)) as [|x l IH]; [reflexivity|].
    cbn. destruct (String.eqb (semantics x) sem) eqn:E; cbn; rewrite ?E; exact IH.
  - intros wanted. rewrite findGroup_eq, Hk. apply find_filter_none.
    intros x Hx. apply andb_true_iff in Hx as [-> _]. reflexivity.
  - intros sem' Hne. rewrite !findGroups_eq, Hk. clear Hk.
    induction (or_empty (ssrcGroups m)) as [|x l IH]; [reflexivity|]. cbn.
    destruct (String.eqb_spec (semantics x) sem) as [Hs|Hs]; cbn.
    + destruct (String.eqb_spec (semantics x) sem') as [Hs'|Hs']; [congruence | exact IH].
    + rewrite IH. reflexivity.
  - rewrite !findGroups_eq, ssrcGroups_addSSRCGroup. cbn [or_empty].
    rewrite List.filter_app. reflexivity.
Qed.

(** Reading the groups defines them: each of [findGroup], [findGroups],
    [findGroupByPrimarySSRC] and [getRtxSSRC] leaves a media line for which
    [containsAnySSRCGroups] answers true, also when the line had no
    [ssrcGroups] and the search found nothing; the two removals leave an
    undefined [ssrcGroups] undefined. *)
Theorem reading_groups_defines_them (m : IMLine) (sem : string) (wanted : option string)
    (n : JS.number) :
  containsAnySSRCGroups (snd (findGroup sem wanted m)) = true
  /\ containsAnySSRCGroups (snd (findGroups sem m)) = true
  /\ containsAnySSRCGroups (snd (findGroupByPrimarySSRC sem n m)) = true
  /\ containsAnySSRCGroups (snd (getRtxSSRC n m)) = true
  /\ containsAnySSRCGroups (removeGroupsBySemantics sem m) = containsAnySSRCGroups m
  /\ containsAnySSRCGroups (removeGroupsWithSSRC n m) = containsAnySSRCGroups m
  /\ (ssrcGroups m = None ->
      findGroups sem m = ([], set_ssrcGroups (Some []) m)
      /\ findGroup sem wanted m = (None, set_ssrcGroups (Some []) m)).
Proof.
  unfold findGroup, findGroups, getRtxSSRC, findGroupByPrimarySSRC, removeGroupsBySemantics,
    removeGroupsWithSSRC, containsAnySSRCGroups.
  rewrite !get_ssrcGroups_eq. cbn [fst snd set_ssrcGroups ssrcGroups].
  repeat split; try (destruct (ssrcGroups m) eqn:E; cbn; rewrite ?E; reflexivity).
  all: match goal with Hm : ssrcGroups _ = None |- _ => rewrite Hm; reflexivity end.
Qed.

Lemma findGroup_same (sem : string) (wanted : option string) (m : IMLine) (l : list ISsrcGroups) :
  ssrcGroups m = Some l -> snd (findGroup sem wanted m) = m.
Proof. intros Hl. unfold findGroup, get_ssrcGroups. rewrite Hl. reflexivity. Qed.

Lemma findGroup_pair (sem : string) (wanted : option string) (m : IMLine) :
  findGroup sem wanted m = (fst (findGroup sem wanted m), snd (findGroup sem wanted m)).
Proof. destruct (findGroup sem wanted m). reflexivity. Qed.

Lemma NoDup_all_equal {A} (a : A) (r : list A) :
  List.NoDup r -> (forall v, In v r <-> v = a) -> r = [a].
Proof.
  intros Hnd Hin. destruct r as [|x r].
  - exfalso. apply (proj2 (Hin a) eq_refl).
  - assert (x = a) as -> by (apply Hin; now left).
    destruct r as [|y r]; [reflexivity|]. exfalso.
    assert (y = a) as -> by (apply Hin; right; now left).
    inversion Hnd as [|? ? Hni _]. apply Hni. now left.
Qed.

(** [getPrimaryVideoSsrc] throws for a media line that is not video and
    otherwise leaves the line as it was. A line whose SSRC attributes all
    carry one SSRC answers that SSRC whatever its groups say; a line with
    no or several SSRCs answers the primary SSRC of its first SIM group, else
    of its first FID group, else of its first FEC-FR group, else
    [undefined]. *)
Theorem getPrimaryVideoSsrc_choice (m : IMLine) :
  (is_video m = false -> exists msg, getPrimaryVideoSsrc m = inl msg)
  /\ (forall r m', getPrimaryVideoSsrc m = inr (r, m') -> m' = m /\ is_video m = true)
  /\ (forall (z : Z) (first : ISsrcs) (rest : list ISsrcs),
        is_video m = true ->
        mline_ssrcs m = Some (first :: rest) ->
        (forall o, In o (first :: rest) -> id o = JS.Int z) ->
        getPrimaryVideoSsrc m = inr (Some (JS.Int z), m))
  /\ (is_video m = true -> getSSRCCount m <> 1 ->
      getPrimaryVideoSsrc m = inr (option_map parsePrimarySSRC (primary_group m), m)).
Proof.
  assert (Hmany : is_video m = true -> Nat.eqb (_getSSRCCount m) 1 = false ->
                  getPrimaryVideoSsrc m
                  = inr (option_map parsePrimarySSRC (primary_group m), m)).
  { intros Hv Hc. unfold getPrimaryVideoSsrc, primary_group. rewrite Hv, Hc. cbn [negb].
    destruct (ssrcGroups m) as [l|] eqn:El.
    - rewrite (findGroup_pair SSRC_GROUP_SEMANTICS_SIM).
      rewrite (findGroup_same _ _ _ _ El).
      destruct (fst (findGroup SSRC_GROUP_SEMANTICS_SIM None m)); [reflexivity|].
      rewrite (findGroup_pair SSRC_GROUP_SEMANTICS_FID).
      rewrite (findGroup_same _ _ _ _ El).
      destruct (fst (findGroup SSRC_GROUP_SEMANTICS_FID None m)); [reflexivity|].
      rewrite (findGroup_pair "FEC-FR").
      rewrite (findGroup_same _ _ _ _ El).
      destruct (fst (findGroup "FEC-FR" None m)); reflexivity.
    - rewrite !findGroup_eq, El. reflexivity. }
  split; [|split; [|split]].
  - intros Hv. unfold getPrimaryVideoSsrc. rewrite Hv. eexists. reflexivity.
  - intros r m' Hr. destruct (is_video m) eqn:Hv.
    + split; [|reflexivity].
      destruct (Nat.eqb (_getSSRCCount m) 1) eqn:Hc.
      * unfold getPrimaryVideoSsrc in Hr. rewrite Hv, Hc in Hr. cbn [negb] in Hr.
        destruct (mline_ssrcs m) as [[|first rest]|]; try discriminate.
        injection Hr as _ <-. reflexivity.
      * rewrite (Hmany eq_refl eq_refl) in Hr. injection Hr as _ <-. reflexivity.
    + unfold getPrimaryVideoSsrc in Hr. rewrite Hv in Hr. discriminate.
  - intros z first rest Hv Hl Hall. unfold getPrimaryVideoSsrc, _getSSRCCount.
    rewrite Hv, Hl. cbn [negb].
    destruct (filter_from_first_occurrence (map id (first :: rest)) []) as [Hnd Hin].
    cbn [app length] in Hnd, Hin. unfold JS.filter_indexed.
    rewrite (NoDup_all_equal (JS.Int z) _ Hnd).
    + cbn [length Nat.eqb]. rewrite (Hall first (or_introl eq_refl)). reflexivity.
    + intros v. rewrite Hin, in_map_iff. split.
      * intros (_ & (o & <- & Ho) & _). apply Hall. exact Ho.
      * intros ->. split; [discriminate|]. split; [|intros []].
        exists first. split; [apply Hall|]; now left.
  - intros Hv Hc. apply Hmany; [exact Hv|]. apply Nat.eqb_neq. exact Hc.
Qed.

Lemma filter_all {A} (f : A -> bool) (l : list A) :
  (forall x, In x l -> f x = true) -> List.filter f l = l.
Proof.
  induction l as [|x l IH]; [reflexivity|]. intros Hall. cbn.
  rewrite (Hall x (or_introl eq_refl)), IH; [reflexivity|].
  intros y Hy. apply Hall. now right.
Qed.

Lemma filter_filter {A} (f g : A -> bool) (l : list A) :
  List.filter f (List.filter g l) = List.filter (fun x => g x && f x) l.
Proof.
  induction l as [|x l IH]; [reflexivity|]. cbn. destruct (g x); cbn; [|exact IH].
  destruct (f x); rewrite IH; reflexivity.
Qed.

Lemma splice1_indexOf (v : JS.number) (cur : list JS.number) :
  v <> JS.NaN ->
  List.NoDup cur -> In v cur ->
  JS.splice1 (JS.indexOf v cur) cur
  = List.filter (fun x => negb (JS.strict_eq x v)) cur.
Proof.
  intros Hv.
  induction cur as [|y rest IH]; intros Hnd Hin; [destruct Hin|].
  inversion Hnd as [|? ? Hni Hnd']; subst. cbn [JS.indexOf List.filter].
  destruct (JS.strict_eq y v) eqn:E; cbn [negb].
  - apply strict_eq_true in E as [-> _]. cbn [JS.splice1 firstn skipn app].
    symmetry. apply filter_all. intros x Hx.
    destruct (JS.strict_eq x v) eqn:Ex; [|reflexivity].
    apply strict_eq_true in Ex as [-> _]. contradiction.
  - destruct Hin as [->|Hin]; [rewrite strict_eq_same in E by exact Hv; discriminate|].
    specialize (IH Hnd' Hin).
    destruct (JS.indexOf v rest) as [i|] eqn:Ei.
    + cbn [option_map JS.splice1 firstn skipn app] in *. rewrite <- IH. reflexivity.
    + exfalso. apply indexOf_none in Ei as [Ei|Ei]; [contradiction | contradiction].
Qed.

Lemma fold_drop_secondary_listed (groups : list ISsrcGroups) (cur : list JS.number) :
  List.NoDup cur -> ~ In JS.NaN cur ->
  List.NoDup (secondary_ssrcs groups) ->
  (forall s, In s (secondary_ssrcs groups) -> In s cur) ->
  fold_left drop_secondary groups cur
  = List.filter (fun x => negb (existsb (JS.strict_eq x) (secondary_ssrcs groups))) cur.
Proof.
  revert cur. induction groups as [|g gs IH]; intros cur Hnd Hnan Hsec Hin.
  - cbn. symmetry. apply filter_all. reflexivity.
  - cbn [fold_left]. unfold drop_secondary at 2. unfold secondary_ssrcs in *.
    cbn [List.filter] in *. fold (pairs_a_secondary g).
    destruct (pairs_a_secondary g) eqn:Eg.
    + cbn [map] in *. inversion Hsec as [|? ? Hni Hsec']; subst.
      assert (Hs : In (parseSecondarySSRC g) cur) by (apply Hin; now left).
      assert (Hv : parseSecondarySSRC g <> JS.NaN) by (intros Hn; rewrite Hn in Hs; contradiction).
      set (v := parseSecondarySSRC g) in *.
      rewrite splice1_indexOf by assumption.
      rewrite IH.
      * rewrite filter_filter. apply filter_ext. intros x. cbn [existsb].
        rewrite negb_orb. reflexivity.
      * apply List.NoDup_filter. exact Hnd.
      * intros Hn. apply filter_In in Hn as [Hn _]. contradiction.
      * exact Hsec'.
      * intros s Hs'. apply filter_In. split; [apply Hin; now right|].
        destruct (JS.strict_eq s v) eqn:E; [|reflexivity].
        apply strict_eq_true in E as [-> _]. contradiction.
    + apply IH; assumption.
Qed.

(** When every FID or FEC-FR group of a video line names a secondary SSRC
    that the line lists, no two of them the same one, [getPrimaryVideoSSRCs]
    answers the SSRCs of the line without those secondary SSRCs, in their
    order. *)
Theorem getPrimaryVideoSSRCs_drops_secondaries (m : IMLine) :
  is_video m = true ->
  List.NoDup (secondary_ssrcs (or_empty (ssrcGroups m))) ->
  (forall s, In s (secondary_ssrcs (or_empty (ssrcGroups m))) -> In s (fst (getSSRCs m))) ->
  exists m',
    getPrimaryVideoSSRCs m
    = inr (List.filter
             (fun x => negb (existsb (JS.strict_eq x)
                               (secondary_ssrcs (or_empty (ssrcGroups m)))))
             (fst (getSSRCs m)), m').
Proof.
  intros Hv Hnd Hin. unfold getPrimaryVideoSSRCs. rewrite Hv. cbn [negb].
  destruct (getSSRCs m) as [videoSSRCs m1] eqn:Eg.
  assert (Hg1 : ssrcGroups m1 = ssrcGroups m).
  { unfold getSSRCs, get_ssrcs in Eg. destruct (mline_ssrcs m); injection Eg as _ <-;
      reflexivity. }
  rewrite get_ssrcGroups_eq, Hg1. eexists. f_equal. f_equal.
  pose proof (getSSRCs_members m) as (Hnd1 & Hin1). rewrite Eg in Hnd1, Hin1.
  cbn [fst] in *. apply fold_drop_secondary_listed; try assumption.
  intros Hn. apply Hin1 in Hn as [Hn _]. congruence.
Qed.

Lemma in_firstn {A} (x : A) (n : nat) (l : list A) : In x (firstn n l) -> In x l.
Proof.
  revert l. induction n as [|n IH]; intros [|y l]; cbn; try tauto.
  intros [->|Hin]; [now left | right; now apply IH].
Qed.

Lemma fold_drop_secondary_unlisted (groups : list ISsrcGroups) (cur : list JS.number) :
  (forall g, In g groups ->
             pairs_a_secondary g = true
             /\ (parseSecondarySSRC g = JS.NaN \/ ~ In (parseSecondarySSRC g) cur)) ->
  fold_left drop_secondary groups cur = firstn (length cur - length groups) cur.
Proof.
  revert cur. induction groups as [|g gs IH]; intros cur Hall.
  - cbn. rewrite Nat.sub_0_r, firstn_all. reflexivity.
  - cbn [fold_left length]. destruct (Hall g (or_introl eq_refl)) as [Hg Hs].
    unfold drop_secondary at 2. fold (pairs_a_secondary g). rewrite Hg.
    rewrite (proj2 (indexOf_none _ _) Hs). cbn [JS.splice1].
    rewrite IH.
    + rewrite removelast_firstn_len, firstn_firstn, length_firstn. f_equal. lia.
    + intros g' Hg'. destruct (Hall g' (or_intror Hg')) as [Hp [Hn|Hn]].
      * split; [exact Hp | now left].
      * split; [exact Hp|]. right. intros Hin. apply Hn.
        rewrite removelast_firstn_len in Hin. eapply in_firstn; eassumption.
Qed.

(** A FID or FEC-FR group whose secondary SSRC the line does not list (or
    that has no second member) costs the last SSRC instead: when that holds
    for every group of a video line, [getPrimaryVideoSSRCs] answers the
    SSRCs of the line without as many of the last ones as there are
    groups. *)
Theorem getPrimaryVideoSSRCs_unlisted_secondary (m : IMLine) :
  is_video m = true ->
  (forall g, In g (or_empty (ssrcGroups m)) ->
             pairs_a_secondary g = true /\ ~ In (parseSecondarySSRC g) (fst (getSSRCs m))) ->
  exists m',
    getPrimaryVideoSSRCs m
    = inr (firstn (length (fst (getSSRCs m)) - length (or_empty (ssrcGroups m)))
             (fst (getSSRCs m)), m').
Proof.
  intros Hv Hall. unfold getPrimaryVideoSSRCs. rewrite Hv. cbn [negb].
  destruct (getSSRCs m) as [videoSSRCs m1] eqn:Eg.
  assert (Hg1 : ssrcGroups m1 = ssrcGroups m).
  { unfold getSSRCs, get_ssrcs in Eg. destruct (mline_ssrcs m); injection Eg as _ <-;
      reflexivity. }
  rewrite get_ssrcGroups_eq, Hg1. eexists. f_equal. f_equal. cbn [fst] in *.
  apply fold_drop_secondary_unlisted. intros g Hg. destruct (Hall g Hg) as [Hp Hn].
  split; [exact Hp | now right].
Qed.


End SdpTransformUtilProperties.

(** * Properties of the presence map *)

Section PresenceProperties.

Import Room.

Local Open Scope list_scope.

Lemma isEqual_eq : forall a b : Node, isEqual a b = true <-> a = b.
Proof.
  fix IH 1. intros [t1 v1 a1 c1] [t2 v2 a2 c2]. cbn [isEqual].
  rewrite !andb_true_iff, !bool_decide_eq_true.
  assert (Hc : match c1, c2 with
               | None, None => true
               | Some l1, Some l2 =>
                   (fix all2 (l1 l2 : list Node) : bool :=
                      match l1, l2 with
                      | [], [] => true
                      | x :: l1, y :: l2 => isEqual x y && all2 l1 l2
                      | _, _ => false
                      end) l1 l2
               | _, _ => false
               end = true <-> c1 = c2).
  { destruct c1 as [l1|], c2 as [l2|]; try (split; [discriminate | congruence]);
      [|split; reflexivity].
    revert l2. induction l1 as [|x l1 IHl]; intros [|y l2];
      try (split; [discriminate | congruence]); [split; reflexivity|].
    rewrite andb_true_iff, (IH x y). specialize (IHl l2). split.
    - intros [-> Hl]. apply IHl in Hl. congruence.
    - intros Heq. injection Heq as -> ->. split; [reflexivity|]. apply IHl. reflexivity. }
  rewrite Hc. split.
  - intros [[[-> ->] ->] ->]. reflexivity.
  - intros Heq. injection Heq as -> -> -> ->. tauto.
Qed.

Lemma isEqual_refl (a : Node) : isEqual a a = true.
Proof. apply isEqual_eq. reflexivity. Qed.

Lemma has_tag_set_tagName (key key' : string) (n : Node) :
  has_tag key' (set_tagName key n) = bool_decide (key = key').
Proof.
  unfold has_tag, set_tagName. cbn. apply bool_decide_ext. split; congruence.
Qed.

Lemma filter_none {A} (f : A -> bool) (l : list A) :
  (forall x, In x l -> f x = false) -> List.filter f l = [].
Proof.
  induction l as [|x l IH]; [reflexivity|]. intros Hall. cbn.
  rewrite (Hall x (or_introl eq_refl)). apply IH. intros y Hy. apply Hall. now right.
Qed.

Lemma filter_tag_removed (key : string) (l : list Node) :
  List.filter (has_tag key) (List.filter (fun node => negb (has_tag key node)) l) = [].
Proof.
  apply filter_none. intros x Hx. apply filter_In in Hx as [_ Hx].
  apply negb_true_iff in Hx. exact Hx.
Qed.

Lemma filter_other_tag (key key' : string) (l : list Node) :
  key' <> key ->
  List.filter (has_tag key') (List.filter (fun node => negb (has_tag key node)) l)
  = List.filter (has_tag key') l.
Proof.
  intros Hne. induction l as [|x l IH]; [reflexivity|]. cbn.
  destruct (has_tag key x) eqn:Ek; cbn.
  - destruct (has_tag key' x) eqn:Ek'; [|exact IH]. exfalso.
    unfold has_tag in *. apply bool_decide_eq_true in Ek, Ek'. congruence.
  - rewrite IH. reflexivity.
Qed.

Lemma find_filter_tag (key : string) (l : list Node) :
  find (has_tag key) l = head (List.filter (has_tag key) l).
Proof.
  induction l as [|x l IH]; [reflexivity|]. cbn. destruct (has_tag key x); [reflexivity | exact IH].
Qed.

(** The nodes after the key was removed and the new node pushed. *)
Lemma replaced_nodes (key key' : string) (values : Node) (l : list Node) :
  List.filter (has_tag key')
    (List.filter (fun node => negb (has_tag key node)) l ++ [set_tagName key values])
  = if bool_decide (key = key') then [set_tagName key values]
    else List.filter (has_tag key') l.
Proof.
  rewrite List.filter_app. cbn [List.filter]. rewrite has_tag_set_tagName.
  destruct (bool_decide (key = key')) eqn:E.
  - apply bool_decide_eq_true in E as <-. rewrite filter_tag_removed. reflexivity.
  - apply bool_decide_eq_false in E. rewrite filter_other_tag by congruence.
    apply app_nil_r.
Qed.

Lemma set_nodes_same (r : ChatRoom) :
  set_nodes (presMap_nodes r) (presenceUpdateTime r) r = r.
Proof. destruct r; reflexivity. Qed.

Lemma set_tagName_twice (key : string) (n : Node) :
  set_tagName key (set_tagName key n) = set_tagName key n.
Proof. reflexivity. Qed.

(** The node at a position, taken apart. *)
Lemma nth_error_parts {A} (l : list A) (index : nat) (n : A) :
  nth_error l index = Some n -> l = firstn index l ++ n :: skipn (S index) l.
Proof.
  revert index. induction l as [|x l IH]; intros [|index]; cbn; try discriminate.
  - intros [= ->]. reflexivity.
  - intros Hn. f_equal. apply IH. exact Hn.
Qed.

Lemma tag_values_NewObject (key : string) (n : Node) (l : list Node) :
  tag_values key (NewObject n) l = Some (set_tagName key n, l).
Proof. reflexivity. Qed.

Lemma tag_values_NodeAt (key : string) (index : nat) (n : Node) (l : list Node) :
  nth_error l index = Some n ->
  tag_values key (NodeAt index) l
  = Some (set_tagName key n, firstn index l ++ set_tagName key n :: skipn (S index) l).
Proof. intros Hn. unfold tag_values. rewrite Hn. reflexivity. Qed.

(** The object has the key for its tag name after the assignment. *)
Lemma tag_values_tagged (key : string) (values : Values) (l nodes : list Node) (v : Node) :
  tag_values key values l = Some (v, nodes) -> has_tag key v = true /\ set_tagName key v = v.
Proof.
  destruct values as [n|index]; cbn.
  - intros [= <- <-]. rewrite has_tag_set_tagName, bool_decide_true; split; reflexivity.
  - destruct (nth_error l index); [|discriminate]. intros [= <- <-].
    rewrite has_tag_set_tagName, bool_decide_true; split; reflexivity.
Qed.

Lemma nodes_addOrReplaceInPresence (key : string) (values : Values) (now : Z) (r : ChatRoom)
    (v : Node) (nodes : list Node) :
  tag_values key values (presMap_nodes r) = Some (v, nodes) ->
  let res := addOrReplaceInPresence key values now r in
  (fst res = false
   /\ snd res = set_nodes nodes (presenceUpdateTime r) r
   /\ List.filter (has_tag key) nodes = [v])
  \/ (fst res = true
      /\ snd res
         = set_nodes (List.filter (fun node => negb (has_tag key node)) nodes ++ [v]) now r
      /\ List.filter (has_tag key) nodes <> [v]).
Proof.
  intros Ht. cbn zeta. unfold addOrReplaceInPresence, removeFromPresence. rewrite Ht.
  cbn [presMap_nodes set_nodes].
  destruct (List.filter (has_tag key) nodes) as [|only [|second rest]] eqn:Ef;
    cbn [presMap_nodes set_nodes fst snd].
  - right. split; [reflexivity|]. split; [destruct r; reflexivity | discriminate].
  - destruct (isEqual only v) eqn:Ee; cbn [fst snd].
    + left. apply isEqual_eq in Ee as ->. split; [reflexivity|]. split; reflexivity.
    + right. split; [reflexivity|]. split; [destruct r; reflexivity|].
      intros Heq. injection Heq as ->. rewrite isEqual_refl in Ee. discriminate.
  - right. split; [reflexivity|]. split; [destruct r; reflexivity | discriminate].
Qed.

Lemma replaced_nodes_tagged (key key' : string) (v : Node) (l : list Node) :
  has_tag key v = true ->
  List.filter (has_tag key')
    (List.filter (fun node => negb (has_tag key node)) l ++ [v])
  = if bool_decide (key = key') then [v] else List.filter (has_tag key') l.
Proof.
  intros Hv. rewrite List.filter_app. cbn [List.filter].
  destruct (bool_decide (key = key')) eqn:E.
  - apply bool_decide_eq_true in E as <-. rewrite filter_tag_removed, Hv. reflexivity.
  - apply bool_decide_eq_false in E. rewrite filter_other_tag by congruence.
    assert (Hv' : has_tag key' v = false).
    { unfold has_tag in *. apply bool_decide_eq_true in Hv. apply bool_decide_eq_false.
      congruence. }
    rewrite Hv'. apply app_nil_r.
Qed.

(** The nodes of another key, with the object retagged in place. *)
Lemma filter_other_retagged (key key' : string) (v : Node) (before after : list Node) :
  has_tag key v = true -> key' <> key ->
  List.filter (has_tag key') (before ++ v :: after)
  = List.filter (has_tag key') (before ++ after).
Proof.
  intros Hv Hne. rewrite !List.filter_app. cbn [List.filter].
  assert (Hv' : has_tag key' v = false).
  { unfold has_tag in *. apply bool_decide_eq_true in Hv. apply bool_decide_eq_false.
    congruence. }
  rewrite Hv'. reflexivity.
Qed.

Lemma app_eq_one {A} (a b : list A) (v : A) :
  a ++ v :: b = [v] <-> a = [] /\ b = [].
Proof.
  split; [|intros [-> ->]; reflexivity].
  destruct a as [|x a]; cbn.
  - intros [= ->]. split; reflexivity.
  - intros [= _ Hab]. destruct a; discriminate.
Qed.

Lemma last_index_parts {A} (l : list A) (v : A) :
  nth_error (l ++ [v]) (length (l ++ [v]) - 1) = Some v
  /\ firstn (length (l ++ [v]) - 1) (l ++ [v]) = l
  /\ skipn (S (length (l ++ [v]) - 1)) (l ++ [v]) = [].
Proof.
  rewrite length_app. cbn [length]. replace (length l + 1 - 1) with (length l) by lia.
  split; [|split].
  - rewrite nth_error_app2 by lia. rewrite Nat.sub_diag. reflexivity.
  - rewrite firstn_app, Nat.sub_diag, firstn_all. cbn. apply app_nil_r.
  - apply skipn_all2. rewrite length_app. cbn. lia.
Qed.

(** What [addOrReplaceInPresence] leaves behind. With [v] the object as it
    is after [values.tagName = key] and [nodes] the map after that
    assignment: the key is found again with the very node [v], the map
    holds exactly one node of that key, and the nodes of any other key are
    those [nodes] has. The call answers false exactly when [v] was the one
    node of the key in [nodes], and leaves [nodes] and the time of the last
    update then; it sets the time when it answers true. For an object that
    is not in the map, [nodes] is the map as it was, so that a call that
    answers false changes nothing, and calling once more, with an equal
    object or with the object itself, which a call that answered true has
    put last in the map, always answers false and changes nothing. For the
    node the map holds at [index], the assignment retags that node in
    place: the nodes of any other key are those of the map apart from the
    object, so that the object is no longer found under the name it had,
    and the call answers false, though the map has changed, exactly when no
    other node has the key. *)
Theorem addOrReplaceInPresence_then_getFromPresence (r : ChatRoom) (key : string)
    (values : Values) (now later : Z) (v : Node) (nodes : list Node) :
  tag_values key values (presMap_nodes r) = Some (v, nodes) ->
  let res := addOrReplaceInPresence key values now r in
  getFromPresence key (snd res) = Some v
  /\ List.filter (has_tag key) (presMap_nodes (snd res)) = [v]
  /\ (forall key', key' <> key ->
        List.filter (has_tag key') (presMap_nodes (snd res))
        = List.filter (has_tag key') nodes
        /\ getFromPresence key' (snd res) = find (has_tag key') nodes)
  /\ (fst res = false <-> List.filter (has_tag key) nodes = [v])
  /\ (fst res = false -> snd res = set_nodes nodes (presenceUpdateTime r) r)
  /\ (fst res = true -> presenceUpdateTime (snd res) = now)
  /\ (forall n, values = NewObject n ->
        v = set_tagName key n
        /\ nodes = presMap_nodes r
        /\ (fst res = false -> snd res = r)
        /\ addOrReplaceInPresence key (NewObject n) later (snd res) = (false, snd res)
        /\ (fst res = true ->
            nth_error (presMap_nodes (snd res)) (length (presMap_nodes (snd res)) - 1)
            = Some v
            /\ addOrReplaceInPresence key (NodeAt (length (presMap_nodes (snd res)) - 1))
                 later (snd res)
               = (false, snd res)))
  /\ (forall index n, values = NodeAt index ->
        nth_error (presMap_nodes r) index = Some n ->
        let others := firstn index (presMap_nodes r) ++ skipn (S index) (presMap_nodes r) in
        v = set_tagName key n
        /\ nodes = firstn index (presMap_nodes r) ++ v :: skipn (S index) (presMap_nodes r)
        /\ (forall key', key' <> key ->
              List.filter (has_tag key') (presMap_nodes (snd res))
              = List.filter (has_tag key') others)
        /\ (fst res = false <-> List.filter (has_tag key) others = [])).
Proof.
  intros Ht. cbn zeta.
  destruct (tag_values_tagged _ _ _ _ _ Ht) as [Hv Hvv].
  pose proof (nodes_addOrReplaceInPresence key values now r v nodes Ht) as Hres.
  cbn zeta in Hres.
  assert (Hone : List.filter (has_tag key)
                   (presMap_nodes (snd (addOrReplaceInPresence key values now r)))
                 = [v]).
  { destruct Hres as [(_ & -> & Hf)|(_ & -> & _)].
    - exact Hf.
    - cbn [presMap_nodes set_nodes].
      rewrite (replaced_nodes_tagged _ _ _ _ Hv), bool_decide_true; reflexivity. }
  assert (Hf : forall key', key' <> key ->
             List.filter (has_tag key')
               (presMap_nodes (snd (addOrReplaceInPresence key values now r)))
             = List.filter (has_tag key') nodes).
  { intros key' Hne. destruct Hres as [(_ & -> & _)|(_ & -> & _)]; [reflexivity|].
    cbn [presMap_nodes set_nodes].
    rewrite (replaced_nodes_tagged _ _ _ _ Hv), bool_decide_false by congruence.
    reflexivity. }
  assert (Hfalse : fst (addOrReplaceInPresence key values now r) = false
                   <-> List.filter (has_tag key) nodes = [v]).
  { destruct Hres as [(Hr & _ & Hn)|(Hr & _ & Hn)]; rewrite Hr; split;
      try tauto; try discriminate. }
  split; [|split; [exact Hone|split; [|split; [exact Hfalse|split; [|split; [|split]]]]]].
  - unfold getFromPresence. rewrite find_filter_tag, Hone. reflexivity.
  - intros key' Hne. split; [exact (Hf key' Hne)|].
    unfold getFromPresence. rewrite !find_filter_tag, (Hf key' Hne). reflexivity.
  - destruct Hres as [(_ & Hs & _)|(Hr & _ & _)];
      [intros _; exact Hs | rewrite Hr; discriminate].
  - destruct Hres as [(Hr & _ & _)|(_ & -> & _)];
      [rewrite Hr; discriminate | reflexivity].
  - intros n ->. rewrite tag_values_NewObject in Ht. injection Ht as <- <-.
    split; [reflexivity|]. split; [reflexivity|]. split; [|split].
    + destruct Hres as [(_ & Hs & _)|(Hr & _ & _)];
        [intros _; rewrite Hs; apply set_nodes_same | rewrite Hr; discriminate].
    + set (r1 := snd (addOrReplaceInPresence key (NewObject n) now r)) in *.
      destruct (nodes_addOrReplaceInPresence key (NewObject n) later r1 _ _
                  (tag_values_NewObject key n (presMap_nodes r1)))
        as [(Hr & Hs & _)|(_ & _ & Hn)]; [|contradiction].
      destruct (addOrReplaceInPresence key (NewObject n) later r1) as [b r2].
      cbn [fst snd] in Hr, Hs. rewrite Hr, Hs, set_nodes_same. reflexivity.
    + intros Htrue. destruct Hres as [(Hr & _ & _)|(_ & Hs & _)]; [congruence|].
      set (r1 := snd (addOrReplaceInPresence key (NewObject n) now r)) in *.
      assert (Hnodes : presMap_nodes r1
                       = List.filter (fun node => negb (has_tag key node)) (presMap_nodes r)
                         ++ [set_tagName key n]).
      { rewrite Hs. reflexivity. }
      destruct (last_index_parts
                  (List.filter (fun node => negb (has_tag key node)) (presMap_nodes r))
                  (set_tagName key n)) as (Hnth & Hfirst & Hskip).
      rewrite <- Hnodes in Hnth, Hfirst, Hskip. split; [exact Hnth|].
      pose proof (tag_values_NodeAt key _ _ _ Hnth) as Ht2.
      rewrite Hfirst, Hskip, set_tagName_twice, <- Hnodes in Ht2.
      destruct (nodes_addOrReplaceInPresence key _ later r1 _ _ Ht2)
        as [(Hr & Hs2 & _)|(_ & _ & Hn)]; [|contradiction].
      destruct (addOrReplaceInPresence key _ later r1) as [b r2].
      cbn [fst snd] in Hr, Hs2. rewrite Hr, Hs2, set_nodes_same. reflexivity.
  - intros index n -> Hn. cbn zeta. rewrite (tag_values_NodeAt _ _ _ _ Hn) in Ht.
    injection Ht as <- <-.
    split; [reflexivity|]. split; [reflexivity|]. split.
    + intros key' Hne. rewrite (Hf key' Hne).
      apply (filter_other_retagged key); assumption.
    + rewrite Hfalse, !List.filter_app. cbn [List.filter]. rewrite Hv, app_eq_one.
      split.
      * intros [-> ->]. reflexivity.
      * intros Happ. apply app_eq_nil in Happ. exact Happ.
Qed.

Lemma NoDup_map_filter {A B} (f : A -> B) (g : A -> bool) (l : list A) :
  List.NoDup (map f l) -> List.NoDup (map f (List.filter g l)).
Proof.
  induction l as [|x l IH]; [intros _; constructor|]. cbn. intros Hnd.
  inversion Hnd as [|? ? Hni Hnd']; subst. destruct (g x); [|exact (IH Hnd')].
  cbn. constructor; [|exact (IH Hnd')]. intros Hin. apply Hni.
  apply in_map_iff in Hin as (y & Hy & Hin). apply filter_In in Hin as [Hin _].
  apply in_map_iff. now exists y.
Qed.

Lemma NoDup_snoc {A} (x : A) (l : list A) :
  List.NoDup l -> ~ In x l -> List.NoDup (l ++ [x]).
Proof.
  induction l as [|y l IH]; cbn; intros Hnd Hni.
  - constructor; [intros [] | constructor].
  - inversion Hnd as [|? ? Hy Hnd']; subst. constructor.
    + intros Hin. apply in_app_or in Hin as [Hin|[->|[]]]; tauto.
    + apply IH; tauto.
Qed.

Lemma tags_after_replace (key : string) (v : Node) (l : list Node) :
  has_tag key v = true ->
  List.NoDup (map tagName l) ->
  List.NoDup (map tagName (List.filter (fun node => negb (has_tag key node)) l ++ [v])).
Proof.
  intros Hv Hnd. rewrite map_app. cbn [map].
  apply NoDup_snoc.
  - apply NoDup_map_filter. exact Hnd.
  - intros Ht. apply in_map_iff in Ht as (y & Hy & Hin).
    apply filter_In in Hin as [_ Hin]. apply negb_true_iff in Hin.
    unfold has_tag in *. apply bool_decide_eq_false in Hin. apply bool_decide_eq_true in Hv.
    apply Hin. congruence.
Qed.

Lemma filter_nil_In {A} (f : A -> bool) (l : list A) (x : A) :
  List.filter f l = [] -> In x l -> f x = false.
Proof.
  intros Hf Hin. destruct (f x) eqn:E; [|reflexivity].
  assert (Hx : In x (List.filter f l)) by (apply filter_In; tauto).
  rewrite Hf in Hx. destruct Hx.
Qed.

(** The tag names stay distinct when a node is retagged in place with a
    key that no other node has. *)
Lemma tags_after_retag (key : string) (v n : Node) (before after : list Node) :
  has_tag key v = true ->
  List.filter (has_tag key) (before ++ v :: after) = [v] ->
  List.NoDup (map tagName (before ++ n :: after)) ->
  List.NoDup (map tagName (before ++ v :: after)).
Proof.
  intros Hv Hf Hnd. rewrite List.filter_app in Hf. cbn [List.filter] in Hf.
  rewrite Hv in Hf. apply app_eq_one in Hf as [Hb Ha].
  rewrite map_app in *. cbn [map] in *. apply NoDup_remove_1 in Hnd.
  apply (proj2 (NoDup_Add (Add_app (tagName v) _ _))). split; [exact Hnd|].
  intros Hin. rewrite <- map_app in Hin. apply in_map_iff in Hin as (y & Hy & Hin).
  assert (Hky : has_tag key y = true).
  { unfold has_tag in *. apply bool_decide_eq_true in Hv. apply bool_decide_eq_true.
    congruence. }
  apply in_app_or in Hin as [Hin|Hin];
    [rewrite (filter_nil_In _ _ _ Hb Hin) in Hky | rewrite (filter_nil_In _ _ _ Ha Hin) in Hky];
    discriminate.
Qed.

(** The presence map keeps at most one node per tag name: it is so after
    [initPresenceMap], and [addOrReplaceInPresence], also when it is handed
    a node of the map itself, and [removeFromPresence] keep it so. *)
Theorem presence_map_one_node_per_tag (r : ChatRoom) (key : string) (values : Values)
    (statsId : option string) (now : Z) :
  one_node_per_tag (initPresenceMap statsId now r)
  /\ (one_node_per_tag r ->
      one_node_per_tag (snd (addOrReplaceInPresence key values now r))
      /\ one_node_per_tag (removeFromPresence key now r)).
Proof.
  unfold one_node_per_tag. split; [|intros Hnd; split].
  - unfold initPresenceMap. cbn [presMap_nodes].
    destruct statsId as [[|c s]|]; cbn; repeat constructor; intros [].
  - destruct (tag_values key values (presMap_nodes r)) as [[v nodes]|] eqn:Ht;
      [|unfold addOrReplaceInPresence; rewrite Ht; exact Hnd].
    destruct (tag_values_tagged _ _ _ _ _ Ht) as [Hv _].
    assert (Hparts : nodes = presMap_nodes r
                     \/ exists index n,
                          nth_error (presMap_nodes r) index = Some n
                          /\ nodes = firstn index (presMap_nodes r)
                                     ++ v :: skipn (S index) (presMap_nodes r)).
    { destruct values as [n|index]; cbn in Ht.
      - injection Ht as <- <-. now left.
      - destruct (nth_error (presMap_nodes r) index) as [n|] eqn:Hn; [|discriminate].
        injection Ht as <- <-. right. exists index, n. split; [exact Hn | reflexivity]. }
    destruct (nodes_addOrReplaceInPresence key values now r v nodes Ht)
      as [(_ & -> & Hf)|(_ & -> & _)]; cbn [presMap_nodes set_nodes].
    + destruct Hparts as [->|(index & n & Hn & ->)]; [exact Hnd|].
      apply (tags_after_retag key v n); [exact Hv | exact Hf|].
      rewrite <- (nth_error_parts _ _ _ Hn). exact Hnd.
    + destruct Hparts as [->|(index & n & Hn & ->)];
        [apply tags_after_replace; assumption|].
      rewrite List.filter_app. cbn [List.filter]. rewrite Hv. cbn [negb].
      rewrite <- List.filter_app. apply tags_after_replace; [exact Hv|].
      rewrite (nth_error_parts _ _ _ Hn), map_app in Hnd. cbn [map] in Hnd.
      apply NoDup_remove_1 in Hnd. rewrite map_app. exact Hnd.
  - unfold removeFromPresence. cbn [presMap_nodes set_nodes]. apply NoDup_map_filter. exact Hnd.
Qed.

(** After [removeFromPresence] the key is not found any more while every
    other key is found as before; the time of the last update is set even
    when there was nothing to remove, and removing again leaves the same
    nodes. *)
Theorem removeFromPresence_forgets (r : ChatRoom) (key : string) (now later : Z) :
  let r' := removeFromPresence key now r in
  getFromPresence key r' = None
  /\ (forall key', key' <> key -> getFromPresence key' r' = getFromPresence key' r)
  /\ presenceUpdateTime r' = now
  /\ (getFromPresence key r = None -> presMap_nodes r' = presMap_nodes r)
  /\ presMap_nodes (removeFromPresence key later r') = presMap_nodes r'.
Proof.
  cbn zeta. unfold removeFromPresence, getFromPresence. cbn [presMap_nodes set_nodes].
  split; [|split; [|split; [reflexivity|split]]].
  - rewrite find_filter_tag, filter_tag_removed. reflexivity.
  - intros key' Hne. rewrite !find_filter_tag, filter_other_tag by exact Hne. reflexivity.
  - intros Hnone. induction (presMap_nodes r) as [|x l IH]; [reflexivity|].
    cbn in *. destruct (has_tag key x); [discriminate|]. cbn. rewrite IH by exact Hnone.
    reflexivity.
  - induction (presMap_nodes r) as [|x l IH]; [reflexivity|]. cbn.
    destruct (has_tag key x) eqn:E; cbn; rewrite ?E; cbn; rewrite IH; reflexivity.
Qed.

Lemma remove_first_last (f : nat) (l : list nat) :
  existsb (Nat.eqb f) l = false -> remove_first f (l ++ [f]) = Some l.
Proof.
  induction l as [|x l IH]; cbn.
  - intros _. rewrite Nat.eqb_refl. reflexivity.
  - intros Hn. apply orb_false_iff in Hn as [Hx Hn]. rewrite Nat.eqb_sym, Hx, (IH Hn).
    reflexivity.
Qed.

Lemma remove_first_none (f : nat) (l : list nat) :
  existsb (Nat.eqb f) l = false -> remove_first f l = None.
Proof.
  induction l as [|x l IH]; [reflexivity|]. cbn. intros Hn.
  apply orb_false_iff in Hn as [Hx Hn]. rewrite Nat.eqb_sym, Hx, (IH Hn). reflexivity.
Qed.

Lemma get_insert {V} (object : gmap string V) (name : string) (v : V) :
  JS.get (<[name := v]> object) name = JS.Own v.
Proof. unfold JS.get. rewrite lookup_insert_eq. reflexivity. Qed.

(** [addPresenceListener] for a name that yields no inherited member. *)
Lemma addPresenceListener_own (name : string) (f : nat) (r : ChatRoom) :
  JS.get (presHandlers r) name <> JS.Inherited ->
  addPresenceListener name (Some f) r
  = if existsb (Nat.eqb f) (handlers_of name r)
    then inr ([SameHandlerTwice name],
              set_presHandlers (<[name := handlers_of name r]> (presHandlers r)) r)
    else inr ([],
              set_presHandlers (<[name := handlers_of name r ++ [f]]> (presHandlers r)) r).
Proof.
  unfold addPresenceListener, handlers_of, JS.get.
  destruct (presHandlers r !! name) as [l|]; cbn [default from_option]; unfold id;
    [reflexivity|].
  destruct (JS.inherited name); [intros Hne; now contradiction Hne | reflexivity].
Qed.

(** A presence handler is registered at most once per node name.
    [addPresenceListener] throws for a handler that is not a function.
    [presHandlers] being a plain object, a name that [Object.prototype] has
    and that no handler was registered for yields an inherited member, and
    both [addPresenceListener] and [removePresenceListener] throw on
    calling its [indexOf]. For any other name [addPresenceListener] appends
    a handler that is new for the name and only warns about one that is
    registered already, so that the handlers of a name stay free of
    duplicates; the handlers of other names are left alone. Removing a
    handler right after it was newly added gives back the handlers there
    were, and removing an unregistered handler only warns. *)
Theorem presence_handler_registered_once (r : ChatRoom) (name : string) (f : nat) :
  addPresenceListener name None r = inl HandlerIsNotAFunction
  /\ (JS.get (presHandlers r) name = JS.Inherited
      <-> presHandlers r !! name = None /\ JS.inherited name = true)
  /\ match JS.get (presHandlers r) name with
     | JS.Inherited =>
         addPresenceListener name (Some f) r = inl IndexOfIsNotAFunction
         /\ removePresenceListener name f r = inl IndexOfIsNotAFunction
     | _ =>
         exists (ws : list Warning) (r' : ChatRoom),
           addPresenceListener name (Some f) r = inr (ws, r')
           /\ In f (handlers_of name r')
           /\ (List.NoDup (handlers_of name r) -> List.NoDup (handlers_of name r'))
           /\ (forall name', name' <> name -> handlers_of name' r' = handlers_of name' r)
           /\ addPresenceListener name (Some f) r' = inr ([SameHandlerTwice name], r')
           /\ (In f (handlers_of name r) ->
               ws = [SameHandlerTwice name] /\ handlers_of name r' = handlers_of name r)
           /\ (~ In f (handlers_of name r) ->
               ws = []
               /\ handlers_of name r' = handlers_of name r ++ [f]
               /\ exists r'', removePresenceListener name f r' = inr ([], r'')
                              /\ handlers_of name r'' = handlers_of name r
                              /\ removePresenceListener name f r''
                                 = inr ([HandlerNotRegistered name], r''))
     end.
Proof.
  split; [reflexivity|]. split.
  { unfold JS.get. destruct (presHandlers r !! name); [split; [discriminate | intros [? _]; discriminate]|].
    destruct (JS.inherited name); split; try tauto; try discriminate.
    intros [_ ?]; discriminate. }
  assert (Hex : existsb (Nat.eqb f) (handlers_of name r) = true <-> In f (handlers_of name r)).
  { rewrite existsb_exists. split.
    - intros (x & Hx & He). apply Nat.eqb_eq in He as ->. exact Hx.
    - intros Hin. exists f. split; [exact Hin | apply Nat.eqb_refl]. }
  assert (Hset : forall l r0, handlers_of name (set_presHandlers (<[name := l]> (presHandlers r0)) r0) = l).
  { intros l r0. unfold handlers_of. cbn [presHandlers set_presHandlers].
    rewrite lookup_insert_eq. reflexivity. }
  assert (Hother : forall l r0 name', name' <> name ->
             handlers_of name' (set_presHandlers (<[name := l]> (presHandlers r0)) r0)
             = handlers_of name' r0).
  { intros l r0 name' Hne. unfold handlers_of. cbn [presHandlers set_presHandlers].
    rewrite lookup_insert_ne by congruence. reflexivity. }
  assert (Hagain : forall l r0, In f l ->
             let r1 := set_presHandlers (<[name := l]> (presHandlers r0)) r0 in
             addPresenceListener name (Some f) r1 = inr ([SameHandlerTwice name], r1)).
  { intros l r0 Hin. cbn zeta. unfold addPresenceListener.
    cbn [presHandlers set_presHandlers]. rewrite get_insert.
    assert (Hl : existsb (Nat.eqb f) l = true).
    { apply existsb_exists. exists f. split; [exact Hin | apply Nat.eqb_refl]. }
    rewrite Hl, insert_insert_eq. reflexivity. }
  assert (Hown : JS.get (presHandlers r) name <> JS.Inherited ->
            exists (ws : list Warning) (r' : ChatRoom),
              addPresenceListener name (Some f) r = inr (ws, r')
              /\ In f (handlers_of name r')
              /\ (List.NoDup (handlers_of name r) -> List.NoDup (handlers_of name r'))
              /\ (forall name', name' <> name -> handlers_of name' r' = handlers_of name' r)
              /\ addPresenceListener name (Some f) r' = inr ([SameHandlerTwice name], r')
              /\ (In f (handlers_of name r) ->
                  ws = [SameHandlerTwice name] /\ handlers_of name r' = handlers_of name r)
              /\ (~ In f (handlers_of name r) ->
                  ws = []
                  /\ handlers_of name r' = handlers_of name r ++ [f]
                  /\ exists r'', removePresenceListener name f r' = inr ([], r'')
                                 /\ handlers_of name r'' = handlers_of name r
                                 /\ removePresenceListener name f r''
                                    = inr ([HandlerNotRegistered name], r''))).
  { intros Hne. rewrite (addPresenceListener_own _ _ _ Hne).
    destruct (existsb (Nat.eqb f) (handlers_of name r)) eqn:E.
    - assert (Hin : In f (handlers_of name r)) by (apply Hex; reflexivity).
      eexists _, _. split; [reflexivity|]. rewrite Hset.
      split; [exact Hin|]. split; [tauto|]. split; [intros; now apply Hother|].
      split; [now apply Hagain|]. split; [tauto | contradiction].
    - assert (Hni : ~ In f (handlers_of name r)).
      { intros Hin. apply Hex in Hin. congruence. }
      eexists _, _. split; [reflexivity|]. rewrite Hset.
      split; [apply in_or_app; right; now left|]. split.
      { intros Hnd. apply NoDup_snoc; assumption. }
      split; [intros; now apply Hother|].
      split; [apply Hagain; apply in_or_app; right; now left|].
      split; [contradiction|]. intros _. split; [reflexivity|].
      split; [rewrite ?Hset; reflexivity|].
      unfold removePresenceListener at 1. cbn [presHandlers set_presHandlers].
      rewrite get_insert, (remove_first_last _ _ E). eexists. split; [reflexivity|].
      split; [apply (Hset _ (set_presHandlers _ r))|].
      unfold removePresenceListener. cbn [presHandlers set_presHandlers].
      rewrite get_insert, (remove_first_none _ _ E). reflexivity. }
  destruct (JS.get (presHandlers r) name) as [l| |] eqn:Eg.
  - apply Hown. discriminate.
  - unfold addPresenceListener, removePresenceListener. rewrite Eg. split; reflexivity.
  - apply Hown. discriminate.
Qed.

Lemma push_matching_filter (pres : list Node) (nodeName : string) (res : list Node) :
  push_matching pres nodeName res = res ++ List.filter (has_tag nodeName) pres.
Proof.
  revert res. induction pres as [|n pres IH]; intros res; cbn.
  - symmetry. apply app_nil_r.
  - rewrite IH. destruct (has_tag nodeName n); [rewrite <- app_assoc|]; reflexivity.
Qed.

(** A participant counts as muted until the presence says otherwise.
    [filterNodeFromPresenceJSON] gives the nodes of a name in their order,
    and [getMediaPresenceInfo] reads the first one: without a last presence
    of the endpoint it answers [null]; for a media type that is neither
    audio nor video it logs an error and answers [null]; else the media is
    muted unless the first mute node of its type has a value other than
    'true' (or none), and the video type is the camera unless a videoType
    node is present. Audio has neither video type nor codec type. *)
Theorem media_presence_defaults (r : ChatRoom) (endpointId : string)
    (mediaType : option MediaType) :
  (forall pres nodeName,
     filterNodeFromPresenceJSON pres nodeName = List.filter (has_tag nodeName) pres)
  /\ (lastPresences r !! (roomjid r ++ "/" ++ endpointId)%string = None ->
      getMediaPresenceInfo endpointId mediaType r = (None, false))
  /\ (forall pres,
        lastPresences r !! (roomjid r ++ "/" ++ endpointId)%string = Some pres ->
        match mediaType with
        | None => getMediaPresenceInfo endpointId mediaType r = (None, true)
        | Some m =>
            exists info,
              getMediaPresenceInfo endpointId mediaType r = (Some info, false)
              /\ muted info
                 = match find (has_tag (muted_node_name m)) pres with
                   | Some node => bool_decide (value node = Some "true"%string)
                   | None => true
                   end
              /\ match m with
                 | AUDIO => videoType info = None /\ codecType info = None
                 | VIDEO =>
                     videoType info
                     = Some match find (has_tag "videoType") pres with
                            | Some node => FromPresence (value node)
                            | None => Default_CAMERA
                            end
                     /\ codecType info
                        = find (has_tag "jitsi_participant_codecType") pres ≫= value
                 end
        end).
Proof.
  assert (Hfilter : forall pres nodeName,
             filterNodeFromPresenceJSON pres nodeName = List.filter (has_tag nodeName) pres).
  { intros pres nodeName. unfold filterNodeFromPresenceJSON. apply push_matching_filter. }
  split; [exact Hfilter|]. unfold getMediaPresenceInfo. split.
  - intros ->. reflexivity.
  - intros pres ->. destruct mediaType as [[|]|]; [| |reflexivity];
      eexists; (split; [reflexivity|]); cbn [muted videoType codecType muted_node_name];
      rewrite !Hfilter, !find_filter_tag.
    + split; [|split; reflexivity].
      destruct (List.filter (has_tag "audiomuted") pres); reflexivity.
    + split; [|split].
      * destruct (List.filter (has_tag "videomuted") pres); reflexivity.
      * destruct (List.filter (has_tag "videoType") pres); reflexivity.
      * destruct (List.filter (has_tag "jitsi_participant_codecType") pres); reflexivity.
Qed.


End PresenceProperties.

(** * Properties of BrowserCapabilities *)

Section BrowserCapabilitiesProperties.

Import BrowserCapabilities.

Context `{BrowserDetection} `{JS.Engine}.

(** A browser is supported only with the WebRTC APIs present and one of the
    four families detected: Chromium with an engine newer than 71, Firefox
    newer than 90, React Native or WebKit. A Safari whose version reads
    below 14 is never supported, whatever else is detected, while a Safari
    whose version cannot be read passes that check. *)
Theorem isSupported_requirements (g : WebRTCGlobals) :
  (isSupported g = true ->
   RTCPeerConnection_defined g = true
   /\ mediaDevices_enumerateDevices g = true
   /\ mediaDevices_getUserMedia g = true
   /\ ((isChromiumBased = true /\ isEngineVersionGreaterThan 71 = true)
       \/ (isFirefox = true /\ isVersionGreaterThan 90 = true)
       \/ isReactNative = true
       \/ isWebKitBased = true))
  /\ (forall v, isSafari = true -> JS.parseInt getVersion = JS.Int v -> (v < 14)%Z ->
      isSupported g = false)
  /\ (RTCPeerConnection_defined g = true ->
      mediaDevices_enumerateDevices g = true ->
      mediaDevices_getUserMedia g = true ->
      (isSafari = false \/ JS.parseInt getVersion = JS.NaN
       \/ exists v, JS.parseInt getVersion = JS.Int v /\ (14 <= v)%Z) ->
      isReactNative = true \/ isWebKitBased = true ->
      isSupported g = true).
Proof.
  unfold isSupported, _getSafariVersion, MIN_REQUIRED_SAFARI_VERSION,
    MIN_REQUIRED_CHROME_VERSION, MIN_REQUIRED_FIREFOX_VERSION.
  change (72 - 1)%Z with 71%Z. change (91 - 1)%Z with 90%Z.
  split; [|split].
  - destruct (RTCPeerConnection_defined g), (mediaDevices_enumerateDevices g),
      (mediaDevices_getUserMedia g); cbn [negb orb]; try discriminate.
    destruct (isSafari && JS.lt (if isSafari then JS.parseInt getVersion else JS.Int (-1))
                            (JS.Int 14)); [discriminate|].
    intros Hs. repeat split.
    destruct isChromiumBased, (isEngineVersionGreaterThan 71), isFirefox,
      (isVersionGreaterThan 90), isReactNative, isWebKitBased; cbn in Hs;
      try discriminate; tauto.
  - intros v Hsafari Hv Hlt. rewrite Hsafari, Hv. cbn [JS.lt andb].
    destruct (Z.ltb_spec v 14); [|lia].
    destruct (negb _ || negb _ || negb _); reflexivity.
  - intros -> -> -> Hver Hfam. cbn [negb orb].
    assert (Hgate : isSafari && JS.lt (if isSafari then JS.parseInt getVersion else JS.Int (-1))
                                  (JS.Int 14) = false).
    { destruct Hver as [->|[Hv|(v & Hv & Hle)]]; [reflexivity| |].
      - destruct isSafari; [rewrite Hv|]; reflexivity.
      - destruct isSafari; [|reflexivity]. rewrite Hv. cbn.
        destruct (Z.ltb_spec v 14); [lia | reflexivity]. }
    rewrite Hgate. destruct Hfam as [->| ->]; rewrite ?orb_true_r; reflexivity.
Qed.

(** The iOS check passes in three cases only: a WebKit browser that is not
    Safari and reports the frozen macOS version 10.15.7; a Safari whose
    version reads 14 or more; a WebKit browser whose OS version reads 14 or
    more. A version reads 14 or more when [parseInt] answers such an integer
    or, for a number too long for a double, the positive infinity. The value
    -1 that stands for an unknown version, and a version that cannot be
    read, never pass. *)
Theorem isSupportedIOSBrowser_iff :
  isSupportedIOSBrowser = true <->
    (isSafari = false /\ isWebKitBased = true /\ getOSVersion = Some "10.15.7"%string)
    \/ (isSafari = true
        /\ ((exists v, JS.parseInt getVersion = JS.Int v /\ (14 <= v)%Z)
            \/ JS.parseInt getVersion = JS.Infinity false))
    \/ (isWebKitBased = true
        /\ ((exists v, JS.parseInt getOSVersion = JS.Int v /\ (14 <= v)%Z)
            \/ JS.parseInt getOSVersion = JS.Infinity false)).
Proof.
  unfold isSupportedIOSBrowser, _getSafariVersion, _getIOSVersion, FROZEN_MACOS_VERSION,
    MIN_REQUIRED_IOS_VERSION.
  assert (Hge : forall n, JS.ge n (JS.Int 14) = true <->
                          (exists v, n = JS.Int v /\ (14 <= v)%Z) \/ n = JS.Infinity false).
  { intros [|v|[]]; cbn.
    - split; [discriminate | intros [(v & Hv & _)|Hv]; discriminate].
    - rewrite Z.leb_le. split; [intros Hle; left; now exists v|].
      intros [(v' & Hv & Hle)|Hv]; congruence.
    - split; [discriminate | intros [(v & Hv & _)|Hv]; discriminate].
    - split; [intros _; now right | reflexivity]. }
  assert (Hneg : JS.ge (JS.Int (-1)) (JS.Int 14) = false) by reflexivity.
  destruct isSafari, isWebKitBased; cbn [negb andb];
    try destruct (bool_decide_reflect (getOSVersion = Some "10.15.7"%string)) as [Hos|Hos];
    rewrite ?Hneg, ?orb_true_iff, ?orb_false_r, ?orb_false_l, ?Hge.
  all: try (split; [intros _ | reflexivity]).
  all: try tauto.
  all: try (split; intros Hx; intuition (try discriminate; try congruence)).
Qed.

(** A device is a mobile device exactly when it runs React Native or a
    browser on Android or iOS, and these three cases exclude each other. *)
Theorem mobile_device_families :
  (isMobileDevice = true <->
   isReactNative = true \/ getOS = Some "Android"%string \/ getOS = Some "iOS"%string)
  /\ (isAndroidBrowser = true -> isIosBrowser = false /\ isReactNative = false)
  /\ (isIosBrowser = true -> isAndroidBrowser = false /\ isReactNative = false).
Proof.
  unfold isMobileDevice, isAndroidBrowser, isIosBrowser.
  destruct isReactNative; cbn [negb andb orb].
  - split; [tauto|]. split; discriminate.
  - destruct (bool_decide_reflect (getOS = Some "Android"%string)) as [Ha|Ha];
      destruct (bool_decide_reflect (getOS = Some "iOS"%string)) as [Hi|Hi];
      cbn; try (rewrite Ha in Hi; discriminate);
      (split; [|split]); try tauto; try discriminate;
      intuition (try discriminate; try congruence).
Qed.

End BrowserCapabilitiesProperties.

(** * Properties of MucConnectionPlugin *)

Section MucConnectionPluginProperties.

Import MucConnectionPlugin.

Variables (ChatRoom Options : Type).
Variable new_ChatRoom : string -> option string -> Options -> ChatRoom.

Context `{Strophe}.

Local Open Scope list_scope.

Lemma has_iff {V} (object : gmap string V) (name : string) :
  JS.has object name = true <-> is_Some (object !! name) \/ JS.inherited name = true.
Proof.
  unfold JS.has, JS.get. destruct (object !! name) as [v|].
  - split; [intros _; left; now exists v | reflexivity].
  - destruct (JS.inherited name); split; try tauto; try discriminate.
    intros [[x Hx]|Hi]; discriminate.
Qed.

Lemma has_false {V} (object : gmap string V) (name : string) :
  JS.has object name = false -> object !! name = None /\ JS.inherited name = false.
Proof.
  unfold JS.has, JS.get. destruct (object !! name) as [v|]; [discriminate|].
  destruct (JS.inherited name); [discriminate | split; reflexivity].
Qed.

Lemma has_insert {V} (object : gmap string V) (name : string) (v : V) :
  JS.has (<[name := v]> object) name = true.
Proof. unfold JS.has, JS.get. rewrite lookup_insert_eq. reflexivity. Qed.

(** A room is created once per bare jid. [rooms] being a plain object, a
    bare jid counts as created when a room is stored under it or when it is
    a name of [Object.prototype]: [createRoom] then throws 'You are already
    in the room!', for such a name even when no room was ever created.
    Otherwise [createRoom] stores the new room under the bare jid, announces
    it and returns it; from then on every [createRoom] for a jid with that
    bare jid throws, whatever the password and the options, and the rooms of
    other bare jids are left alone. *)
Theorem createRoom_once_per_bare_jid (p : Plugin ChatRoom) (jid : string)
    (password : option string) (options : Options) :
  let roomJid := getBareJidFromJid (Some jid) in
  (isRoomCreated p roomJid = true
   <-> is_Some (rooms p !! property_key roomJid)
       \/ JS.inherited (property_key roomJid) = true)
  /\ (isRoomCreated p roomJid = true ->
      createRoom new_ChatRoom p jid password options
      = inl "You are already in the room!"%string)
  /\ (isRoomCreated p roomJid = false ->
      exists p',
        createRoom new_ChatRoom p jid password options
        = inr (new_ChatRoom jid password options, p',
               [EMUC_ROOM_ADDED (new_ChatRoom jid password options)])
        /\ rooms p' !! property_key roomJid = Some (new_ChatRoom jid password options)
        /\ JS.get (rooms p') (property_key roomJid)
           = JS.Own (new_ChatRoom jid password options)
        /\ (forall other, other <> property_key roomJid ->
            rooms p' !! other = rooms p !! other)
        /\ (forall jid' password' options',
            getBareJidFromJid (Some jid') = roomJid ->
            createRoom new_ChatRoom p' jid' password' options'
            = inl "You are already in the room!"%string)).
Proof.
  intros roomJid. unfold MucConnectionPlugin.createRoom. fold roomJid.
  split; [apply has_iff|]. split.
  - intros ->. reflexivity.
  - intros Hnew. rewrite Hnew. eexists. split; [reflexivity|]. cbn [rooms].
    split; [apply lookup_insert_eq|]. split.
    { unfold JS.get. rewrite lookup_insert_eq. reflexivity. }
    split.
    + intros other Hother. apply lookup_insert_ne. congruence.
    + intros jid' password' options' Hsame. rewrite Hsame.
      unfold isRoomCreated. cbn [rooms]. rewrite has_insert. reflexivity.
Qed.

(** [doLeave] removes the room stored under the very jid it is given, not
    under its bare jid. Leaving with the key a room was created under
    announces that room and makes the jid free again; leaving with another
    jid of the same room, such as the full jid it was created with,
    announces what [rooms] yields for that jid, [undefined] or another
    room or an inherited member, and the room stays, so that creating it
    again still throws. *)
Theorem doLeave_uses_the_jid_as_given (p : Plugin ChatRoom) (jid leaving : string)
    (password : option string) (options : Options) (room : ChatRoom)
    (p' : Plugin ChatRoom) (emitted : list (Emitted ChatRoom)) :
  createRoom new_ChatRoom p jid password options = inr (room, p', emitted) ->
  let key := property_key (getBareJidFromJid (Some jid)) in
  (leaving = key ->
   snd (doLeave p' leaving) = [EMUC_ROOM_REMOVED (JS.Own room)]
   /\ isRoomCreated (fst (doLeave p' leaving))
        (getBareJidFromJid (Some jid)) = false
   /\ rooms (fst (doLeave p' leaving)) = rooms p)
  /\ (leaving <> key ->
      snd (doLeave p' leaving) = [EMUC_ROOM_REMOVED (JS.get (rooms p) leaving)]
      /\ rooms (fst (doLeave p' leaving)) !! key = Some room
      /\ createRoom new_ChatRoom (fst (doLeave p' leaving)) jid password options
         = inl "You are already in the room!"%string).
Proof.
  unfold MucConnectionPlugin.createRoom.
  destruct (isRoomCreated p (getBareJidFromJid (Some jid))) eqn:Hnew;
    [discriminate|].
  intros Hc. injection Hc as <- <- <-. unfold doLeave. cbn [fst snd rooms].
  set (key := property_key (getBareJidFromJid (Some jid))).
  destruct (has_false _ _ Hnew) as [Hfree Hinh]. fold key in Hfree, Hinh.
  split.
  - intros ->. unfold JS.get at 1. rewrite lookup_insert_eq. split; [reflexivity|]. split.
    + unfold isRoomCreated, JS.has, JS.get. cbn [rooms]. fold key.
      rewrite lookup_delete_eq, Hinh. reflexivity.
    + rewrite delete_insert_eq. apply delete_id. exact Hfree.
  - intros Hne. unfold JS.get at 1. rewrite lookup_insert_ne by congruence.
    split; [reflexivity|].
    rewrite lookup_delete_ne by congruence. rewrite lookup_insert_eq.
    split; [reflexivity|].
    unfold isRoomCreated, JS.has, JS.get. cbn [rooms]. fold key.
    rewrite lookup_delete_ne by congruence. rewrite lookup_insert_eq. reflexivity.
Qed.

(** Where the plugin routes a stanza. No handler ever returns false, the
    value that would make Strophe drop it. When [rooms] yields nothing for
    the bare jid of the sender, every handler returns true and reaches no
    room. When a room is stored under it, every handler returns true; a
    presence reaches [room.onPresence] exactly when it has no type, and
    the room is told to create a non-anonymous room first exactly when the
    presence carries the status code 201; each of the six other room
    handlers passes the stanza to the method of its name. When the bare jid
    is a name of [Object.prototype] with no room stored under it, the seven
    room handlers throw a [TypeError] before any room is reached, the
    presence handler only for a presence with no type. [onVisitors] calls
    no method of the room and always returns true: with a room or an
    inherited member, and both a [visitors] and a [promotion-response]
    element in the iq, it emits [CONNECTION_REDIRECTED] when the attribute
    [allow] reads 'true' in any case of letters and [VISITORS_REJECTION]
    otherwise; it emits nothing in every other case. *)
Theorem stanza_routed_to_its_room (p : Plugin ChatRoom) (stanza : Stanza) :
  let from := stanza_from stanza in
  let typed := match stanza_type stanza with Some (String _ _) => true | _ => false end in
  let handlers := [onPresence p stanza; onPresenceUnavailable p stanza;
                   onPresenceError p stanza; onMessage p stanza;
                   onMute p stanza; onMuteVideo p stanza;
                   onMuteDesktop p stanza] in
  Forall (fun r => fst r <> Returns false) handlers
  /\ fst (onVisitors p stanza) = Returns true
  /\ match room_of p from with
     | JS.Undefined =>
         Forall (fun r => r = (Returns true, [])) handlers
         /\ onVisitors p stanza = (Returns true, [])
     | JS.Own room =>
         handlers
         = [(Returns true,
             if typed then []
             else (if status_201 stanza then [createNonAnonymousRoom room] else [])
                  ++ [room_onPresence room stanza]);
            (Returns true, [room_onPresenceUnavailable room stanza from]);
            (Returns true, [room_onPresenceError room stanza from]);
            (Returns true, [room_onMessage room stanza from]);
            (Returns true, [room_onMute room stanza]);
            (Returns true, [room_onMuteVideo room stanza]);
            (Returns true, [room_onMuteDesktop room stanza])]
     | JS.Inherited =>
         handlers
         = (if typed then (Returns true, []) else (ThrowsTypeError, []))
           :: repeat (ThrowsTypeError, []) 6
     end
  /\ (room_of p from <> JS.Undefined ->
      snd (onVisitors p stanza)
      = match visitors stanza, promotion_response stanza with
        | Some visitors, Some response =>
            if String.eqb (JS.toLowerCase (String_of (allow response))) "true"
            then [CONNECTION_REDIRECTED None (focusjid visitors) (username response)]
            else [VISITORS_REJECTION]
        | _, _ => []
        end)
  /\ (room_of p from = JS.Inherited
      <-> rooms p !! property_key (getBareJidFromJid from) = None
          /\ JS.inherited (property_key (getBareJidFromJid from)) = true).
Proof.
  cbn zeta.
  unfold onPresence, onPresenceUnavailable, onPresenceError, onMessage, onMute,
    onMuteVideo, onMuteDesktop, onVisitors.
  split; [|split; [|split; [|split]]].
  - repeat constructor;
      destruct (stanza_type stanza) as [[|? ?]|];
      destruct (room_of p (stanza_from stanza)); discriminate.
  - destruct (room_of p (stanza_from stanza)); [| |reflexivity];
      destruct (visitors stanza), (promotion_response stanza); try reflexivity;
      destruct (String.eqb _ _); reflexivity.
  - destruct (room_of p (stanza_from stanza)) as [room| |].
    + destruct (stanza_type stanza) as [[|? ?]|]; reflexivity.
    + destruct (stanza_type stanza) as [[|? ?]|]; reflexivity.
    + split; [|reflexivity].
      repeat constructor; destruct (stanza_type stanza) as [[|? ?]|]; reflexivity.
  - intros Hroom. destruct (room_of p (stanza_from stanza)); [| |contradiction];
      destruct (visitors stanza), (promotion_response stanza); try reflexivity;
      destruct (String.eqb _ _); reflexivity.
  - unfold room_of, JS.get.
    destruct (rooms p !! property_key (getBareJidFromJid (stanza_from stanza)));
      [split; [discriminate | intros [? _]; discriminate]|].
    destruct (JS.inherited _); split; try tauto; try discriminate.
    intros [_ ?]; discriminate.
Qed.

End MucConnectionPluginProperties.


(** * The properties on the sample conferences *)

Lemma leader_election_witness :
  @could_start_P2P sample (conf world_aaa) /\ @could_start_P2P sample (conf world_bbb)
  /\ invites "room@conference.example.com/bbb2222" []
       (calls_of (@_maybeStartOrStopP2P sample false world_aaa))
  /\ existsb sends_invite (calls_of (@_maybeStartOrStopP2P sample false world_bbb)) = false
  /\ calls_of (@_maybeStartOrStopP2P sample true world_aaa)
     = [SetTimeout 1 (CbStartP2PSession "room@conference.example.com/bbb2222") 5000].
Proof.
  assert (HA : @could_start_P2P sample (conf world_aaa)).
  { unfold could_start_P2P. repeat split; vm_compute; reflexivity. }
  assert (HB : @could_start_P2P sample (conf world_bbb)).
  { unfold could_start_P2P. repeat split; vm_compute; reflexivity. }
  pose proof (@leader_election sample world_aaa world_bbb "aaa1111" "bbb2222"
                (snd (sample_participant "bbb2222" [])) (snd (sample_participant "aaa1111" []))
                HA) as H.
  specialize (H ltac:(vm_compute; reflexivity) ltac:(vm_compute; reflexivity)
                ltac:(vm_compute; reflexivity) HB ltac:(vm_compute; reflexivity)
                ltac:(vm_compute; reflexivity) ltac:(vm_compute; reflexivity)).
  cbv zeta in H. destruct H as (_ & H2 & H3 & _ & _ & _ & _ & _ & H9).
  split; [exact HA|]. split; [exact HB|]. split; [|split].
  - apply H3. vm_compute. reflexivity.
  - rewrite H2. vm_compute. reflexivity.
  - specialize (H9 ltac:(vm_compute; reflexivity)).
    change (deferredStartP2PTask (conf world_aaa)) with (@None positive) in H9.
    destruct H9 as [H9 _]. exact H9.
Defined.

(** C1 as stated fails. With end-to-end encryption enabled there is no P2P
    session, the conference should be in P2P mode and no test flag forces a
    side, and the local id is the smaller one; yet the re-evaluation calls
    nothing and sends no invitation. And on a user-left event the endpoint
    with the smaller id sends no invitation in the call either: it
    schedules the start. *)
Lemma smaller_id_sends_no_invitation :
  p2pJingleSession (conf world_e2ee) = None
  /\ @_shouldBeInP2PMode sample (conf world_e2ee) = true
  /\ cfg_forceInitiator (config (conf world_e2ee)) = false
  /\ cfg_forceResponder (config (conf world_e2ee)) = false
  /\ @myUserId sample (conf world_e2ee) = Some "aaa1111"
  /\ map getId (getParticipants (conf world_e2ee)) = ["bbb2222"]
  /\ String.ltb "aaa1111" "bbb2222" = true
  /\ @_maybeStartOrStopP2P sample false world_e2ee = Ok tt world_e2ee []
  /\ ~ (existsb sends_invite (calls_of (@_maybeStartOrStopP2P sample false world_e2ee)) = true
        <-> String.ltb "aaa1111" "bbb2222" = true)
  /\ @could_start_P2P sample (conf world_aaa)
  /\ ~ (existsb sends_invite (calls_of (@_maybeStartOrStopP2P sample true world_aaa)) = true
        <-> String.ltb "aaa1111" "bbb2222" = true).
Proof.
  repeat (split; [vm_compute; reflexivity|]).
  split; [|split].
  - intros [_ Hinv]. specialize (Hinv eq_refl). vm_compute in Hinv. discriminate.
  - unfold could_start_P2P. repeat split; vm_compute; reflexivity.
  - intros [_ Hinv]. specialize (Hinv eq_refl). vm_compute in Hinv. discriminate.
Qed.

Lemma p2p_ice_failure_witness :
  isP2P p2p_session = true
  /\ p2pJingleSession (conf world_in_p2p) = Some p2p_session
  /\ existsb restarts_ice (calls_of (@_onIceConnectionFailed sample p2p_session world_in_p2p))
     = false
  /\ p2pJingleSession (conf (world_of (@_onIceConnectionFailed sample p2p_session world_in_p2p)))
     = None
  /\ In (SessionSetMediaTransferActive 1 true)
       (calls_of (@_onIceConnectionFailed sample p2p_session world_in_p2p)).
Proof.
  pose proof (@p2p_ice_failure_falls_back sample world_in_p2p p2p_session p2p_session) as H.
  specialize (H ltac:(vm_compute; reflexivity) ltac:(vm_compute; reflexivity)
                ltac:(vm_compute; reflexivity)).
  cbv zeta in H. destruct H as (_ & Hn & _ & _ & _ & _ & Hs & _ & Hf).
  split; [reflexivity|]. split; [reflexivity|]. split; [exact Hn|]. split; [exact Hs|].
  destruct (Hf bridge_session ltac:(vm_compute; reflexivity) ltac:(vm_compute; reflexivity))
    as [Hr _].
  exact Hr.
Defined.

Lemma bridge_ice_failure_witness :
  isP2P bridge_session = false
  /\ jvbJingleSession (conf world_on_bridge) = Some bridge_session
  /\ calls_of (@_onIceConnectionFailed sample bridge_session world_on_bridge)
     = [SetTimeout 1 (CbIceRestart bridge_session 1250) 1250]
  /\ calls_of (@fire sample 1 world_restart_scheduled)
     = [LogIceRestart 1250; IceFailedHandling_start 1]
  /\ _iceRestarts (conf (world_of (@fire sample 1 world_restart_scheduled))) = 1
  /\ calls_of (@_onIceConnectionFailed sample bridge_session
                 (world_of (@fire sample 1 world_restart_scheduled)))
     = [SetTimeout 2 (CbIceRestart bridge_session 2500) 2500].
Proof.
  pose proof (@bridge_ice_failure_retries sample world_on_bridge bridge_session bridge_session)
    as H.
  specialize (H ltac:(vm_compute; reflexivity) ltac:(vm_compute; reflexivity)
                ltac:(vm_compute; reflexivity) ltac:(vm_compute; reflexivity)).
  cbv zeta in H. destruct H as (_ & _ & H).
  change ((_iceRestarts (conf world_on_bridge) <? @MAX_CONNECTION_RETRIES sample)%nat)
    with true in H.
  destruct H as (Hc & _ & _ & _ & Hf & Hi & _ & Hn).
  split; [reflexivity|]. split; [reflexivity|]. split; [exact Hc|].
  split; [exact Hf|]. split; [exact Hi | exact Hn].
Defined.

(** C4 as stated fails. The failure event schedules the restart and leaves
    the restart counter at the value it had; so that a second failure
    reported before the scheduled restart has run is answered like the
    first one: the same delay, and no fatal signal however many such
    failures there are. *)
Lemma ice_failure_event_leaves_counter :
  isP2P bridge_session = false
  /\ jvbJingleSession (conf world_on_bridge) = Some bridge_session
  /\ _iceRestarts (conf world_on_bridge) = 0
  /\ @MAX_CONNECTION_RETRIES sample = 3
  /\ existsb restarts_ice
       (calls_of (@_onIceConnectionFailed sample bridge_session world_on_bridge)) = true
  /\ _iceRestarts (conf world_restart_scheduled) = 0
  /\ _iceRestarts (conf world_restart_scheduled) <> S (_iceRestarts (conf world_on_bridge))
  /\ (let again (w : @World sample) :=
        world_of (@_onIceConnectionFailed sample bridge_session w) in
      let fourth := @_onIceConnectionFailed sample bridge_session
                      (again (again (again world_on_bridge))) in
      calls_of fourth = [SetTimeout 4 (CbIceRestart bridge_session 1250) 1250]
      /\ _iceRestarts (conf (world_of fourth)) = 0).
Proof.
  repeat (split; [vm_compute; reflexivity|]).
  split; [vm_compute; discriminate|].
  cbv zeta. split; vm_compute; reflexivity.
Qed.

Lemma stop_and_deferred_start_witness :
  @_shouldBeInP2PMode sample (conf world_third_joined) = false
  /\ p2pJingleSession
       (conf (world_of (@_maybeStartOrStopP2P sample false world_third_joined))) = None
  /\ calls_of (@_maybeStartOrStopP2P sample true world_aaa)
     = [SetTimeout 1 (CbStartP2PSession "room@conference.example.com/bbb2222") 5000]
  /\ deferredStartP2PTask
       (conf (world_of (@_maybeStartOrStopP2P sample false world_deferred_third))) = None.
Proof.
  assert (HA : @could_start_P2P sample (conf world_aaa)).
  { unfold could_start_P2P. repeat split; vm_compute; reflexivity. }
  pose proof (@stop_is_immediate_start_is_deferred sample world_third_joined world_aaa
                world_deferred_third p2p_session "aaa1111"
                (snd (sample_participant "bbb2222" [])) 1%positive false false) as H.
  specialize (H ltac:(vm_compute; reflexivity) ltac:(vm_compute; reflexivity)
                ltac:(vm_compute; reflexivity) HA ltac:(vm_compute; reflexivity)
                ltac:(vm_compute; reflexivity) ltac:(vm_compute; reflexivity)
                ltac:(vm_compute; reflexivity) ltac:(vm_compute; reflexivity)
                ltac:(vm_compute; reflexivity) ltac:(vm_compute; reflexivity)).
  cbv zeta in H. destruct H as ((_ & _ & _ & _ & Hs & _) & (Hc & _) & (_ & Hd & _)).
  split; [vm_compute; reflexivity|]. split; [exact Hs|]. split; [exact Hc | exact Hd].
Defined.

(** C5 as stated fails: when the third participant has joined, the
    re-evaluation ends the P2P session within the call and schedules
    nothing. *)
Lemma third_participant_stop_is_not_deferred :
  @autoP2PDisabled sample (conf world_third_joined) = false
  /\ p2pJingleSession (conf world_third_joined) = Some p2p_session
  /\ length (getParticipants (conf world_third_joined)) = 2
  /\ @_shouldBeInP2PMode sample (conf world_third_joined) = false
  /\ ~ switch_is_deferred (@_maybeStartOrStopP2P sample false world_third_joined)
         (sid p2p_session)
  /\ timers (world_of (@_maybeStartOrStopP2P sample false world_third_joined)) = [].
Proof.
  split; [vm_compute; reflexivity|]. split; [reflexivity|]. split; [reflexivity|].
  split; [vm_compute; reflexivity|]. split; [|vm_compute; reflexivity].
  intros [Hends _]. vm_compute in Hends. discriminate.
Qed.

Lemma p2p_established_witness :
  isP2P p2p_session = true
  /\ p2pJingleSession (conf world_p2p_pending) = Some p2p_session
  /\ isP2PActive
       (conf (world_of (@_onIceConnectionEstablished sample p2p_session world_p2p_pending)))
     = true
  /\ In (SessionSetMediaTransferActive 1 false)
       (calls_of (@_onIceConnectionEstablished sample p2p_session world_p2p_pending))
  /\ jvbJingleSession
       (conf (world_of (@_onIceConnectionEstablished sample p2p_session world_p2p_pending)))
     = Some bridge_session.
Proof.
  pose proof (@p2p_established_takes_over sample world_p2p_pending p2p_session p2p_session) as H.
  specialize (H ltac:(vm_compute; reflexivity) ltac:(vm_compute; reflexivity)
                ltac:(vm_compute; reflexivity)).
  cbv zeta in H. destruct H as (_ & Ha & _ & _ & Hj).
  destruct (Hj bridge_session ltac:(vm_compute; reflexivity)) as (Hm & _ & Hk & _).
  split; [reflexivity|]. split; [reflexivity|]. split; [exact Ha|]. split; [exact Hm | exact Hk].
Defined.

Lemma protocol_violation_witness :
  isP2P incoming_p2p_session = true
  /\ peerUsesUnifiedPlan plan_b_offer = false
  /\ exists (analytics : list Effect) (msg description : string),
       @onIncomingCall sample incoming_p2p_session plan_b_offer world_aaa
       = Ok tt world_aaa
           (analytics
            ++ [Log WARN msg;
                SessionTerminate 3 (Some "decline"%string) (Some description) true]).
Proof.
  pose proof (@protocol_violations_rejected sample world_aaa incoming_p2p_session plan_b_offer)
    as H.
  cbv zeta in H.
  destruct H as (analytics & msg & reason & description & Heq & _ & _ & _ & Hr).
  { left. split; [reflexivity|]. left. reflexivity. }
  destruct (Hr eq_refl) as (Hd & _).
  rewrite (Hd (or_introl eq_refl)) in Heq.
  split; [reflexivity|]. split; [reflexivity|].
  exists analytics, msg, description. exact Heq.
Defined.

(** C9: [leave] on a conference with a deferred start of P2P and a
    session-initiate timeout pending cancels neither of them, and the
    deferred start, when it fires, runs against the conference that was
    left: it clears the task and throws on the room that is null by then.
    [leave] on a conference with an ICE restart scheduled leaves that timer
    pending as well, and the restart runs after the bridge session was
    closed. *)
Lemma leave_keeps_timers_pending :
  let w := world_of (@leave sample None world_two_timers) in
  let w' := world_of (@leave sample None world_restart_scheduled) in
  pending 1 w = true
  /\ pending 2 w = true
  /\ deferredStartP2PTask (conf w) = Some 1%positive
  /\ room (conf w) = None
  /\ ~ (forall h, pending h w = false)
  /\ @fire sample 1 w
     = Throw "TypeError: this.room is null" (world_of (@fire sample 1 w)) [ClearTimeout 1]
  /\ deferredStartP2PTask (conf (world_of (@fire sample 1 w))) = None
  /\ In (SessionClose 1) (calls_of (@leave sample None world_restart_scheduled))
  /\ jvbJingleSession (conf w') = None
  /\ pending 1 w' = true
  /\ calls_of (@fire sample 1 w') = [LogIceRestart 1250; IceFailedHandling_start 1]
  /\ _iceRestarts (conf (world_of (@fire sample 1 w'))) = 1.
Proof.
  cbv zeta. split; [vm_compute; reflexivity|]. split; [vm_compute; reflexivity|].
  split; [vm_compute; reflexivity|]. split; [vm_compute; reflexivity|]. split.
  - intros Hall. specialize (Hall 1%positive). vm_compute in Hall. discriminate.
  - split; [vm_compute; reflexivity|]. split; [vm_compute; reflexivity|].
    split; [vm_compute; tauto|]. repeat split; vm_compute; reflexivity.
Qed.

(** C10: a track that was added next to the camera is not recognised when
    it is added again. The screen share is accepted next to the camera;
    once it is in the conference, adding the camera again resolves at once
    with that track, while adding the screen share again is rejected as a
    second video track or, with [testing.allowMultipleTracks], is named
    anew and added to the bridge session once more. *)
Lemma addTrack_second_track_again :
  calls_of (@addTrack sample (Some desktop) world_on_bridge)
  = [TrackSetSourceName 22 (Some "aaa1111-v1"); SessionAddTracks 1 [22]]
  /\ getLocalTracks (conf world_sharing_screen) (Some (getType desktop)) = [camera; desktop]
  /\ @addTrack sample (Some camera) world_sharing_screen
     = Ok (Promise_resolve (Some 21)) world_sharing_screen []
  /\ @addTrack sample (Some desktop) world_sharing_screen
     = Ok (Promise_reject "Cannot add second video track to the conference")
         world_sharing_screen []
  /\ @addTrack sample (Some desktop) world_sharing_screen_multiple_tracks
     = Ok (Promise_then (Promise_all [1]) AfterAddTracks) world_sharing_screen_multiple_tracks
         [TrackSetSourceName 22 (Some "aaa1111-v2"); SessionAddTracks 1 [22]].
Proof.
  repeat split; vm_compute; reflexivity.
Qed.

(** * The further properties on samples *)

Lemma p2p_offer_accepted_witness :
  isP2P incoming_p2p_session = true
  /\ existsb (accepts_offer (sid incoming_p2p_session))
       (calls_of (@onIncomingCall sample incoming_p2p_session unified_plan_offer world_aaa))
     = true
  /\ existsb (accepts_offer (sid incoming_p2p_session))
       (calls_of (@onIncomingCall sample incoming_p2p_session plan_b_offer world_aaa))
     = false.
Proof.
  pose proof (@p2p_offer_accepted_iff sample world_aaa incoming_p2p_session
                unified_plan_offer ltac:(reflexivity)) as H1.
  pose proof (@p2p_offer_accepted_iff sample world_aaa incoming_p2p_session
                plan_b_offer ltac:(reflexivity)) as H2.
  cbv zeta in H1, H2. destruct H1 as (H1 & _). destruct H2 as (H2 & _).
  split; [reflexivity|]. split.
  - rewrite H1. vm_compute. reflexivity.
  - rewrite H2. vm_compute. reflexivity.
Defined.

Lemma session_initiate_timeout_witness :
  @pending sample (next_handle world_aaa) world_aaa = false
  /\ calls_of (@_maybeSetSITimeout sample world_aaa)
     = [SetTimeout 1 CbSessionInitiateTimeout JINGLE_SI_TIMEOUT]
  /\ calls_of (@_maybeSetSITimeout sample (world_of (@_maybeSetSITimeout sample world_aaa)))
     = [].
Proof.
  pose proof (@session_initiate_timeout_once sample world_aaa ltac:(vm_compute; reflexivity))
    as H.
  cbv zeta in H. destruct H as (_ & Hc & _ & Hagain & _).
  split; [vm_compute; reflexivity|]. split.
  - rewrite Hc. vm_compute. reflexivity.
  - rewrite Hagain. reflexivity.
Defined.

Lemma remote_track_witness :
  track_isP2P bridge_track = isP2PActive (conf world_aaa)
  /\ @onRemoteTrackRemoved sample bridge_track
       (world_of (@onRemoteTrackAdded sample bridge_track world_aaa))
     = Ok tt world_aaa [Emit (TRACK_REMOVED 11)].
Proof.
  pose proof (@remote_track_added_then_removed sample world_aaa bridge_track
                ltac:(reflexivity) ltac:(vm_compute; reflexivity)) as H.
  specialize (H ltac:(intros (kp & [<-|[]] & []))).
  cbv zeta in H. destruct H as (_ & _ & _ & H).
  split; [reflexivity | exact H].
Defined.

Lemma deferred_start_witness :
  deferredStartP2PTask (conf world_two_timers) = Some 1%positive
  /\ option_map remoteJid
       (p2pJingleSession (conf (world_of (@fire sample 1 world_two_timers))))
     = Some "room@conference.example.com/bbb2222"
  /\ @pending sample 1 (world_of (@fire sample 1 world_two_timers)) = false.
Proof.
  pose proof (@deferred_start_fires sample world_two_timers 1
                "room@conference.example.com/bbb2222" (sample_room "aaa1111")
                ltac:(reflexivity) ltac:(reflexivity) ltac:(reflexivity)) as H.
  cbv zeta in H. destruct H as (_ & Hp & _ & H).
  change (p2pJingleSession (conf world_two_timers)) with (@None JingleSessionPC) in H.
  destruct H as (_ & Hj & _).
  split; [reflexivity|]. split; [exact Hj | exact Hp].
Defined.


Lemma parse_ssrc_group_witness :
  JS.isSafeInteger 4004 = true
  /\ JS.isSafeInteger 4005 = true
  /\ @SdpTransformUtil.parsePrimarySSRC sample_engine
       {| SdpTransformUtil.semantics := "FID"; SdpTransformUtil.ssrcs := "4004 4005" |}
     = JS.Int 4004
  /\ @SdpTransformUtil.parseSecondarySSRC sample_engine
       {| SdpTransformUtil.semantics := "FID"; SdpTransformUtil.ssrcs := "4004 4005" |}
     = JS.Int 4005.
Proof.
  pose proof (@parse_ssrc_group_text sample_engine "FID" 4004 4005
                ltac:(reflexivity) ltac:(reflexivity)) as H.
  cbv zeta in H. destruct H as (_ & Hp & Hr & _).
  split; [reflexivity|]. split; [reflexivity|]. split; [exact Hp | exact Hr].
Defined.

Lemma rtx_group_witness :
  JS.isSafeInteger 4004 = true
  /\ JS.isSafeInteger 4009 = true
  /\ fst (@SdpTransformUtil.getRtxSSRC sample_engine sample_semantics (JS.Int 4004)
            (SdpTransformUtil.addSSRCGroup
               {| SdpTransformUtil.semantics := "FID";
                  SdpTransformUtil.ssrcs := "4004 4009" |}
               sample_video_mline))
     = Some (JS.Int 4005).
Proof.
  pose proof (@rtx_group_round_trip sample_semantics sample_engine sample_video_mline 4004 4009
                ltac:(reflexivity) ltac:(reflexivity)) as H.
  cbv zeta in H. split; [reflexivity|]. split; [reflexivity|].
  etransitivity; [exact H|]. vm_compute. reflexivity.
Defined.

Lemma getPrimaryVideoSSRCs_witness :
  SdpTransformUtil.is_video sample_video_mline = true
  /\ exists m',
       @SdpTransformUtil.getPrimaryVideoSSRCs sample_engine sample_semantics sample_video_mline
       = inr ([JS.Int 4004], m').
Proof.
  split; [reflexivity|].
  destruct (@getPrimaryVideoSSRCs_drops_secondaries sample_semantics sample_engine sample_video_mline)
    as [m' Hm'].
  - reflexivity.
  - vm_compute. constructor; [intros [] | constructor].
  - intros s Hs. vm_compute in Hs. destruct Hs as [<-|[]]. vm_compute. right. now left.
  - exists m'. rewrite Hm'. vm_compute. reflexivity.
Defined.

Lemma getPrimaryVideoSSRCs_stale_group_witness :
  SdpTransformUtil.is_video sample_video_mline_stale_group = true
  /\ exists m',
       @SdpTransformUtil.getPrimaryVideoSSRCs sample_engine sample_semantics sample_video_mline_stale_group
       = inr ([JS.Int 4004], m').
Proof.
  split; [reflexivity|].
  destruct (@getPrimaryVideoSSRCs_unlisted_secondary sample_semantics sample_engine
              sample_video_mline_stale_group) as [m' Hm'].
  - reflexivity.
  - intros g Hg. vm_compute in Hg. destruct Hg as [<-|[]]. split; [reflexivity|].
    vm_compute. intros [Hx|[Hx|[]]]; discriminate.
  - exists m'. rewrite Hm'. vm_compute. reflexivity.
Defined.

Lemma presence_node_retagged_witness :
  let stats := Room.mkNode (Some "stats-id") (Some "stats-1") None None in
  let nick := Room.mkNode (Some "nick") (Some "stats-1") None None in
  let res := Room.addOrReplaceInPresence "nick" (Room.NodeAt 0) 5 sample_presence_room in
  Room.presMap_nodes sample_presence_room = [stats]
  /\ Room.tag_values "nick" (Room.NodeAt 0) (Room.presMap_nodes sample_presence_room)
     = Some (nick, [nick])
  /\ fst res = false
  /\ Room.getFromPresence "nick" (snd res) = Some nick
  /\ Room.getFromPresence "stats-id" (snd res) = None.
Proof.
  cbv zeta.
  pose proof (addOrReplaceInPresence_then_getFromPresence sample_presence_room "nick"
                (Room.NodeAt 0) 5 5 _ _ eq_refl) as H.
  cbv zeta in H. destruct H as (Hg & _ & Hother & _ & _ & _ & _ & Hat).
  destruct (Hat 0%nat _ eq_refl eq_refl) as (_ & _ & _ & Hfalse).
  destruct (Hother "stats-id" ltac:(discriminate)) as [_ Hold].
  split; [reflexivity|]. split; [reflexivity|]. split; [apply Hfalse; reflexivity|].
  split; [exact Hg | exact Hold].
Defined.

Lemma doLeave_witness :
  exists p',
    @MucConnectionPlugin.createRoom string unit sample_new_ChatRoom sample_strophe
      MucConnectionPlugin.constructor "room@conference.example.com/aaa1111" None tt
    = inr ("room@conference.example.com/aaa1111", p',
           [MucConnectionPlugin.EMUC_ROOM_ADDED "room@conference.example.com/aaa1111"])
    /\ MucConnectionPlugin.isRoomCreated
         (fst (MucConnectionPlugin.doLeave p' "room@conference.example.com"))
         (Some "room@conference.example.com") = false
    /\ @MucConnectionPlugin.createRoom string unit sample_new_ChatRoom sample_strophe
         (fst (MucConnectionPlugin.doLeave p' "room@conference.example.com/aaa1111"))
         "room@conference.example.com/aaa1111" None tt
       = inl "You are already in the room!".
Proof.
  eexists. split; [reflexivity|].
  pose proof (@doLeave_uses_the_jid_as_given string unit sample_new_ChatRoom sample_strophe
                MucConnectionPlugin.constructor "room@conference.example.com/aaa1111"
                "room@conference.example.com" None tt _ _ _ eq_refl) as Hbare.
  pose proof (@doLeave_uses_the_jid_as_given string unit sample_new_ChatRoom sample_strophe
                MucConnectionPlugin.constructor "room@conference.example.com/aaa1111"
                "room@conference.example.com/aaa1111" None tt _ _ _ eq_refl) as Hfull.
  cbv zeta in Hbare, Hfull.
  destruct Hbare as [Hbare _]. destruct Hfull as [_ Hfull].
  destruct (Hbare ltac:(reflexivity)) as (_ & Hgone & _).
  destruct (Hfull ltac:(vm_compute; discriminate)) as (_ & _ & Hthrows).
  split; [exact Hgone | exact Hthrows].
Defined.
